(** * Remote Velero: client factory, backup deletion and label shortening

    A shallow embedding of

    - [pkg/client/factory.go]: the resolution of the source and destination
      cluster credentials from secrets ([Module Factory]), the clients
      built on it and the setters ([Module Clients]);
    - [pkg/cmd/cli/restic/server.go]: the construction of the restic
      server and the validation of the pod volumes host path
      ([Module Restic]);
    - the backup deletion controller as the specification describes it
      ([Module Label], [Module Deletion], [Module Sweeper]) and as the
      controller tests record its calls ([Module Controller]). *)

From stdpp Require Import gmap strings list.
From Stdlib Require Import ZArith Lia Ascii String.

Open Scope string_scope.
Open Scope list_scope.

(** Go's [(T, error)] results. *)
Inductive result (A : Type) : Type :=
| Ok (a : A)
| Err (e : string).
Arguments Ok {A} a.
Arguments Err {A} e.

Definition isOk {A} (r : result A) : bool :=
  match r with Ok _ => true | Err _ => false end.

(* ===================================================================== *)
(** * The client factory ([pkg/client/factory.go])                        *)
(* ===================================================================== *)
Module Factory.

Definition srcClusterSecretName : string := "srccluster".
Definition destClusterSecretName : string := "destcluster".
Definition remoteClusterSecretName : string := "remotecluster".

(** [type factory struct]; [flags] only binds the fields to command-line
    flags and is left out.  [clientQPS] is a [float32] that is stored and
    handed on, never computed with: an integer stands for it. *)
Record factory := mkFactory {
  kubeconfig : string;
  kubecontext : string;
  srcClusterHost : string;
  destClusterHost : string;
  baseName : string;
  namespace : string;
  clientQPS : Z;
  clientBurst : Z;
  httpsProxy : string;
  httpProxy : string;
}.

Definition set_httpsProxy (p : string) (f : factory) : factory :=
  mkFactory (kubeconfig f) (kubecontext f) (srcClusterHost f)
    (destClusterHost f) (baseName f) (namespace f) (clientQPS f)
    (clientBurst f) p (httpProxy f).

Definition set_srcClusterHost (h : string) (f : factory) : factory :=
  mkFactory (kubeconfig f) (kubecontext f) h
    (destClusterHost f) (baseName f) (namespace f) (clientQPS f)
    (clientBurst f) (httpsProxy f) (httpProxy f).

Definition set_destClusterHost (h : string) (f : factory) : factory :=
  mkFactory (kubeconfig f) (kubecontext f) (srcClusterHost f)
    h (baseName f) (namespace f) (clientQPS f)
    (clientBurst f) (httpsProxy f) (httpProxy f).

(** [type serviceAcctCreds struct]. *)
Record serviceAcctCreds := mkCreds {
  host : string;
  saToken : string;
  creds_kubeconfig : string;
  creds_httpsProxy : string;
}.

(** [serviceAcctCreds{}] *)
Definition noCreds : serviceAcctCreds := mkCreds "" "" "" "".

#[global] Instance serviceAcctCreds_eq_dec : EqDecision serviceAcctCreds.
Proof. solve_decision. Defined.

(** A [v1.Secret]: its name and its [Data map[string][]byte].  A key that
    is absent reads as the empty byte slice, hence as the empty string. *)
Record Secret := mkSecret {
  secret_Name : string;
  secret_Data : gmap string string;
}.

Definition dataField (s : Secret) (k : string) : string :=
  default "" (secret_Data s !! k).

Section Client.

(** ** What the factory calls outside this file *)

(** [*url.URL] and [url.Parse], which returns a URL (possibly nil) and an
    error (possibly nil). *)
Variable URL : Type.
Variable url_Parse : string -> option URL * option string.

(** [http.Transport], reduced to its [Proxy] field: [None] is the nil
    function, [Some u] is [http.ProxyURL(u)], the function that always
    answers [u] (no proxy when [u] is nil). *)
Record Transport := mkTransport { Proxy : option (option URL) }.

Definition http_ProxyURL (u : option URL) : option (option URL) := Some u.

(** [rest.Config], with the fields the factory writes.  [WrapTransport]
    is the chain of round-tripper wrappers that [Config.Wrap] extends,
    applied in order when a transport is built. *)
Record restConfig := mkConfig {
  Host : string;
  BearerToken : string;
  Insecure : bool;
  Burst : Z;
  QPS : Z;
  WrapTransport : list (Transport -> Transport);
}.

Definition Wrap (fn : Transport -> Transport) (c : restConfig) : restConfig :=
  mkConfig (Host c) (BearerToken c) (Insecure c) (Burst c) (QPS c)
    (WrapTransport c ++ [fn]).

Definition buildTransport (c : restConfig) (rt : Transport) : Transport :=
  foldl (fun t w => w t) rt (WrapTransport c).

(** [client.Config(kubeconfig, kubecontext, baseName, qps, burst)], the
    local cluster's configuration, defined in another file of the
    package. *)
Variable Config : string -> string -> string -> Z -> Z -> result restConfig.

(** [clientcmd.RESTConfigFromKubeConfig]. *)
Variable RESTConfigFromKubeConfig : string -> result restConfig.

(** [kubernetes.NewForConfig]: the client itself is a handle on the local
    cluster; only whether it could be built matters here. *)
Variable kubernetes_NewForConfig : restConfig -> result unit.

(** The local cluster at the time of a call: what
    [client.CoreV1().Secrets(ns).List] answers for each namespace. *)
Definition cluster : Type := string -> result (list Secret).

(** ** The factory's methods *)

Definition ClientConfig (f : factory) : result restConfig :=
  Config (kubeconfig f) (kubecontext f) (baseName f) (clientQPS f)
    (clientBurst f).

Definition KubeClient (f : factory) : result unit :=
  match ClientConfig f with
  | Err e => Err e
  | Ok clientConfig =>
      match kubernetes_NewForConfig clientConfig with
      | Err e => Err e
      | Ok kubeClient => Ok kubeClient
      end
  end.

(** The wrapper that [setTransportProxy] installs: the error of
    [url.Parse] is dropped ([proxyURL, _ := url.Parse(proxy)]). *)
Definition proxyWrapper (proxy : string) (rt : Transport) : Transport :=
  let proxyURL := fst (url_Parse proxy) in
  mkTransport (http_ProxyURL proxyURL).

Definition setTransportProxy (config : restConfig) (proxy : string)
  : restConfig :=
  Wrap (proxyWrapper proxy) config.

Definition restConfigWithSAToken (f : factory) (creds : serviceAcctCreds)
  : result restConfig :=
  let config := mkConfig (host creds) (saToken creds) true 1000 100 [] in
  if decide (httpsProxy f = "") then Ok config
  else Ok (setTransportProxy config (httpsProxy f)).

Definition restConfigWithKubeConfig (f : factory) (creds : serviceAcctCreds)
  : result restConfig :=
  match RESTConfigFromKubeConfig (creds_kubeconfig creds) with
  | Err e => Err e
  | Ok config =>
      if decide (httpsProxy f = "") then Ok config
      else Ok (setTransportProxy config (httpsProxy f))
  end.

(** The loop of [serviceAcctCredsFromSecret] over [secrets.Items]: the
    first item of the wanted name ends it. *)
Fixpoint credsFromItems (f : factory) (items : list Secret)
    (secretName : string) : factory * result serviceAcctCreds :=
  match items with
  | [] => (f, Ok noCreds)
  | item :: rest =>
      if decide (secret_Name item = secretName) then
        let saCreds :=
          mkCreds (dataField item "host") (dataField item "sa-token")
            (dataField item "kubeconfig") (dataField item "https_proxy") in
        let f' :=
          if decide (httpsProxy f = "") then
            if decide (creds_httpsProxy saCreds = "") then f
            else set_httpsProxy (creds_httpsProxy saCreds) f
          else f in
        (f', Ok saCreds)
      else credsFromItems f rest secretName
  end.

Definition serviceAcctCredsFromSecret (f : factory) (c : cluster)
    (secretName secretNS : string) : factory * result serviceAcctCreds :=
  match KubeClient f with
  | Err e => (f, Err e)
  | Ok client =>
      match c secretNS with
      | Err e => (f, Err e)
      | Ok secrets => credsFromItems f secrets secretName
      end
  end.

Definition SourceClientConfig (f : factory) (c : cluster)
  : factory * result restConfig :=
  match serviceAcctCredsFromSecret f c remoteClusterSecretName (namespace f) with
  | (f, Err e) => (f, Err e)
  | (f, Ok srcCreds) =>
      let second :=
        if decide (srcCreds = noCreds) then
          serviceAcctCredsFromSecret f c srcClusterSecretName (namespace f)
        else (f, Ok srcCreds) in
      match second with
      | (f, Err e) => (f, Err e)
      | (f, Ok srcCreds) =>
          if decide (srcCreds = noCreds) then
            (f, Config (kubeconfig f) (kubecontext f) (baseName f)
                  (clientQPS f) (clientBurst f))
          else
            let f := set_srcClusterHost (host srcCreds) f in
            if decide (creds_kubeconfig srcCreds = "") then
              (f, restConfigWithSAToken f srcCreds)
            else (f, restConfigWithKubeConfig f srcCreds)
      end
  end.

Definition DestinationClientConfig (f : factory) (c : cluster)
  : factory * result restConfig :=
  match serviceAcctCredsFromSecret f c remoteClusterSecretName (namespace f) with
  | (f, Err e) => (f, Err e)
  | (f, Ok destCreds) =>
      let second :=
        if decide (destCreds = noCreds) then
          serviceAcctCredsFromSecret f c destClusterSecretName (namespace f)
        else (f, Ok destCreds) in
      match second with
      | (f, Err e) => (f, Err e)
      | (f, Ok destCreds) =>
          if decide (destCreds = noCreds) then
            (f, Config (kubeconfig f) (kubecontext f) (baseName f)
                  (clientQPS f) (clientBurst f))
          else
            let f := set_destClusterHost (host destCreds) f in
            if decide (creds_kubeconfig destCreds = "") then
              (f, restConfigWithSAToken f destCreds)
            else (f, restConfigWithKubeConfig f destCreds)
      end
  end.

Definition SrcClusterHost (f : factory) : string := srcClusterHost f.
Definition DestClusterHost (f : factory) : string := destClusterHost f.
Definition HttpsProxy (f : factory) : string := httpsProxy f.

(** ** The resolution as the specification words it *)

(** The first secret of a given name among the listed ones. *)
Definition findSecret (items : list Secret) (name : string) : option Secret :=
  List.find (fun s => bool_decide (secret_Name s = name)) items.

Definition credsOfSecret (s : Secret) : serviceAcctCreds :=
  mkCreds (dataField s "host") (dataField s "sa-token")
    (dataField s "kubeconfig") (dataField s "https_proxy").

(** A secret is usable when it exists and at least one of its four
    fields is non-empty. *)
Definition usableCreds (items : list Secret) (name : string)
  : option serviceAcctCreds :=
  match findSecret items name with
  | Some s =>
      if decide (credsOfSecret s = noCreds) then None
      else Some (credsOfSecret s)
  | None => None
  end.

(** Shared secret first, then the role's own secret, else nothing. *)
Definition resolveCreds (items : list Secret) (roleSecret : string)
  : option serviceAcctCreds :=
  match usableCreds items remoteClusterSecretName with
  | Some cr => Some cr
  | None => usableCreds items roleSecret
  end.

(** The configuration built from resolved credentials. *)
Definition configFromCreds (f : factory) (cr : serviceAcctCreds)
  : result restConfig :=
  if decide (creds_kubeconfig cr = "") then restConfigWithSAToken f cr
  else restConfigWithKubeConfig f cr.

(** A run of calls on one factory, each against the cluster as it is at
    the time of the call. *)
Inductive call :=
| CallSource (c : cluster)
| CallDestination (c : cluster).

Definition step (f : factory) (k : call) : factory :=
  match k with
  | CallSource c => fst (SourceClientConfig f c)
  | CallDestination c => fst (DestinationClientConfig f c)
  end.

Definition run (f : factory) (ks : list call) : factory := foldl step f ks.

(** The two roles a remote cluster can play. *)
Inductive role := Source | Destination.

Definition roleSecretName (r : role) : string :=
  match r with
  | Source => srcClusterSecretName
  | Destination => destClusterSecretName
  end.

Definition roleClientConfig (r : role) (f : factory) (c : cluster)
  : factory * result restConfig :=
  match r with
  | Source => SourceClientConfig f c
  | Destination => DestinationClientConfig f c
  end.

End Client.

Arguments mkTransport {URL}.
Arguments Proxy {URL}.
Arguments http_ProxyURL {URL}.
Arguments mkConfig {URL}.
Arguments Host {URL}.
Arguments BearerToken {URL}.
Arguments Insecure {URL}.
Arguments Burst {URL}.
Arguments QPS {URL}.
Arguments WrapTransport {URL}.
Arguments Wrap {URL}.
Arguments buildTransport {URL}.
Arguments proxyWrapper {URL}.
Arguments setTransportProxy {URL}.
Arguments restConfigWithSAToken {URL}.
Arguments restConfigWithKubeConfig {URL}.
Arguments ClientConfig {URL}.
Arguments KubeClient {URL}.
Arguments serviceAcctCredsFromSecret {URL}.
Arguments SourceClientConfig {URL}.
Arguments DestinationClientConfig {URL}.
Arguments configFromCreds {URL}.
Arguments step {URL}.
Arguments run {URL}.
Arguments roleClientConfig {URL}.

(** The proxy a factory keeps when a secret carrying [p] is read: its own
    when it has one, else [p]. *)
Definition retainProxy (p : string) (f : factory) : factory :=
  if decide (httpsProxy f = "") then
    if decide (p = "") then f else set_httpsProxy p f
  else f.

(** [velerov1api.DefaultNamespace] *)
Definition DefaultNamespace : string := "velero".

(** [NewFactory]: the namespace comes from the environment variable
    [VELERO_NAMESPACE], then from the configuration file, then from the
    default; every other field starts empty. *)
Definition NewFactory (baseName envNamespace configNamespace : string)
  : factory :=
  let ns := envNamespace in
  let ns := if decide (configNamespace = "") then ns else configNamespace in
  let ns := if decide (ns = "") then DefaultNamespace else ns in
  mkFactory "" "" "" "" baseName ns 0 0 "" "".

(** The [--httpsproxy] flag, bound to [f.httpsProxy]. *)
Definition flag_httpsproxy (v : string) (f : factory) : factory :=
  set_httpsProxy v f.

(** The settings that decide how the local cluster is reached. *)
Definition sameSettings (f g : factory) : Prop :=
  kubeconfig f = kubeconfig g /\ kubecontext f = kubecontext g /\
  baseName f = baseName g /\ namespace f = namespace g /\
  clientQPS f = clientQPS g /\ clientBurst f = clientBurst g.

(** [keeps f g]: [g] reaches the local cluster as [f] does, and a proxy
    that [f] has is still the proxy of [g]. *)
Definition keeps (f g : factory) : Prop :=
  sameSettings f g /\ (httpsProxy f <> "" -> httpsProxy g = httpsProxy f).

(** ** A concrete environment, to run the definitions on *)

Definition exParse (s : string) : option string * option string :=
  if String.prefix "http" s then (Some s, None)
  else (None, Some "first path segment in URL cannot contain colon").

Definition exConfig (kc ctx base : string) (qps burst : Z)
  : result (restConfig string) :=
  Ok (mkConfig "https://local.example" "" false burst qps []).

Definition exFromKubeConfig (kc : string) : result (restConfig string) :=
  if decide (kc = "") then Err "empty kubeconfig"
  else Ok (mkConfig "https://from-kubeconfig.example" "" false 0 0 []).

Definition exNewForConfig (c : restConfig string) : result unit := Ok tt.

Definition exTokenSecret (name : string) : Secret :=
  mkSecret name
    (<["host" := "https://remote.example"]>
       (<["sa-token" := "token"]> (<["https_proxy" := "http://proxy-a"]> ∅))).

Definition exKubeconfigSecret (name : string) : Secret :=
  mkSecret name
    (<["host" := "https://other.example"]>
       (<["kubeconfig" := "apiVersion: v1"]>
          (<["https_proxy" := "http://proxy-b"]> ∅))).

Definition exCluster (items : list Secret) : cluster := fun _ => Ok items.

Definition exFactory : factory := NewFactory "velero" "" "".

End Factory.

(* ===================================================================== *)
(** * Label values ([label.GetValidName])                                 *)
(* ===================================================================== *)
Module Label.

Open Scope Z_scope.

(** ** SHA-256 on 32-bit words held in [Z] (FIPS 180-4) *)

Definition w32 (x : Z) : Z := Z.land x 0xffffffff.
Definition add32 (x y : Z) : Z := w32 (x + y).
Definition rotr (n x : Z) : Z :=
  Z.lor (Z.shiftr x n) (w32 (Z.shiftl x (32 - n))).
Definition not32 (x : Z) : Z := Z.lxor x 0xffffffff.

Definition Ch (x y z : Z) : Z := Z.lxor (Z.land x y) (Z.land (not32 x) z).
Definition Maj (x y z : Z) : Z :=
  Z.lxor (Z.lxor (Z.land x y) (Z.land x z)) (Z.land y z).
Definition bigSigma0 (x : Z) : Z :=
  Z.lxor (Z.lxor (rotr 2 x) (rotr 13 x)) (rotr 22 x).
Definition bigSigma1 (x : Z) : Z :=
  Z.lxor (Z.lxor (rotr 6 x) (rotr 11 x)) (rotr 25 x).
Definition smallSigma0 (x : Z) : Z :=
  Z.lxor (Z.lxor (rotr 7 x) (rotr 18 x)) (Z.shiftr x 3).
Definition smallSigma1 (x : Z) : Z :=
  Z.lxor (Z.lxor (rotr 17 x) (rotr 19 x)) (Z.shiftr x 10).

(** The round constants and the initial hash value, in decimal. *)
Definition K256 : list Z :=
  [1116352408; 1899447441; 3049323471; 3921009573; 961987163; 1508970993;
   2453635748; 2870763221; 3624381080; 310598401; 607225278; 1426881987;
   1925078388; 2162078206; 2614888103; 3248222580; 3835390401; 4022224774;
   264347078; 604807628; 770255983; 1249150122; 1555081692; 1996064986;
   2554220882; 2821834349; 2952996808; 3210313671; 3336571891; 3584528711;
   113926993; 338241895; 666307205; 773529912; 1294757372; 1396182291;
   1695183700; 1986661051; 2177026350; 2456956037; 2730485921; 2820302411;
   3259730800; 3345764771; 3516065817; 3600352804; 4094571909; 275423344;
   430227734; 506948616; 659060556; 883997877; 958139571; 1322822218;
   1537002063; 1747873779; 1955562222; 2024104815; 2227730452; 2361852424;
   2428436474; 2756734187; 3204031479; 3329325298].

Definition H256 : list Z :=
  [1779033703; 3144134277; 1013904242; 2773480762;
   1359893119; 2600822924; 528734635; 1541459225].

(** Padding: one [0x80] byte, zero bytes up to 56 modulo 64, then the
    length in bits as 8 big-endian bytes. *)
Definition be_bytes (n : nat) (x : Z) : list Z :=
  List.map (fun i => Z.land (Z.shiftr x (8 * Z.of_nat i)) 0xff) (rev (seq 0 n)).

Definition pad (msg : list Z) : list Z :=
  let len := Z.of_nat (List.length msg) in
  let zeros := Z.to_nat ((55 - len) mod 64) in
  msg ++ [0x80] ++ repeat 0 zeros ++ be_bytes 8 (8 * len).

Fixpoint words (fuel : nat) (bytes : list Z) : list Z :=
  match fuel, bytes with
  | S fuel, a :: b :: c :: d :: rest =>
      (Z.shiftl a 24 + Z.shiftl b 16 + Z.shiftl c 8 + d) :: words fuel rest
  | _, _ => []
  end.

(** The message schedule: [w] holds the words computed so far, newest
    first. *)
Fixpoint schedule (n : nat) (w : list Z) : list Z :=
  match n with
  | O => w
  | S n =>
      let at_ i := nth i w 0 in
      let wt := add32 (add32 (smallSigma1 (at_ 1%nat)) (at_ 6%nat))
                  (add32 (smallSigma0 (at_ 14%nat)) (at_ 15%nat)) in
      schedule n (wt :: w)
  end.

Record regs := mkRegs { ra : Z; rb : Z; rc : Z; rd : Z;
                        re : Z; rf : Z; rg : Z; rh : Z }.

Definition round (s : regs) (kw : Z * Z) : regs :=
  let t1 := add32 (add32 (add32 (rh s) (bigSigma1 (re s)))
                     (add32 (Ch (re s) (rf s) (rg s)) (fst kw))) (snd kw) in
  let t2 := add32 (bigSigma0 (ra s)) (Maj (ra s) (rb s) (rc s)) in
  mkRegs (add32 t1 t2) (ra s) (rb s) (rc s) (add32 (rd s) t1) (re s) (rf s)
    (rg s).

Definition regs_of (h : list Z) : regs :=
  mkRegs (nth 0 h 0) (nth 1 h 0) (nth 2 h 0) (nth 3 h 0)
         (nth 4 h 0) (nth 5 h 0) (nth 6 h 0) (nth 7 h 0).

Definition list_of (s : regs) : list Z :=
  [ra s; rb s; rc s; rd s; re s; rf s; rg s; rh s].

Definition compress (h : list Z) (block : list Z) : list Z :=
  let w := rev (schedule 48 (rev (words 16 block))) in
  let s := foldl round (regs_of h) (zip K256 w) in
  zip_with add32 h (list_of s).

Fixpoint blocks (fuel : nat) (h : list Z) (bytes : list Z) : list Z :=
  match fuel with
  | O => h
  | S fuel =>
      match bytes with
      | [] => h
      | _ => blocks fuel (compress h (take 64 bytes)) (drop 64 bytes)
      end
  end.

(** [sha256.Sum256]: the digest as 32 bytes. *)
Definition Sum256 (msg : list Z) : list Z :=
  let p := pad msg in
  flat_map (be_bytes 4) (blocks (List.length p) H256 p).

(** [hex.EncodeToString] *)
Definition hexDigit (d : Z) : ascii :=
  if d <? 10 then ascii_of_nat (Z.to_nat (48 + d))
  else ascii_of_nat (Z.to_nat (87 + d)).

Fixpoint EncodeToString (bytes : list Z) : string :=
  match bytes with
  | [] => EmptyString
  | b :: rest =>
      String (hexDigit (Z.shiftr b 4))
        (String (hexDigit (Z.land b 0xf)) (EncodeToString rest))
  end.

Definition bytes_of_string (s : string) : list Z :=
  List.map (fun c => Z.of_nat (nat_of_ascii c)) (list_ascii_of_string s).

Close Scope Z_scope.

(** [validation.DNS1035LabelMaxLength] *)
Definition DNS1035LabelMaxLength : nat := 63.

(** Modelled from the spec: [label.GetValidName] (package [pkg/label] is
    not among the sources; the controller tests use it through the label
    they expect).  The specification asks for the name unchanged when it
    fits the label length limit and otherwise for a truncated prefix of
    the name followed by a deterministic hash suffix, the whole bounded by
    the limit.  The hash is SHA-256 in hexadecimal, of which six digits are
    kept: this is the choice under which the label expected by the test
    "full delete, no errors, with backup name greater than 63 chars"
    comes out (see [GetValidName_long_test_name]). *)
Definition GetValidName (label : string) : string :=
  if decide (String.length label <= DNS1035LabelMaxLength)%nat then label
  else
    let sha := Sum256 (bytes_of_string label) in
    let strSha := EncodeToString sha in
    String.append (substring 0 (DNS1035LabelMaxLength - 6) label) (substring 0 6 strSha).



(** The backup name of the test "full delete, no errors, with backup name
    greater than 63 chars". *)
Definition longName : string :=
  "the-really-long-backup-name-that-is-much-more-than-63-characters".


End Label.


(* ===================================================================== *)
(** * The backup deletion controller                                      *)
(* ===================================================================== *)
Module Deletion.

Import Label.

(** ** Data model (section 3 of the specification) *)

Definition BackupNameLabel : string := "velero.io/backup-name".
Definition BackupUIDLabel : string := "velero.io/backup-uid".

Inductive DeleteBackupRequestPhase :=
| PhaseUnset
| DeleteBackupRequestPhaseNew
| DeleteBackupRequestPhaseInProgress
| DeleteBackupRequestPhaseProcessed.

Inductive BackupPhase :=
| BackupPhaseUnset
| BackupPhaseNew
| BackupPhaseInProgress
| BackupPhaseCompleted
| BackupPhaseDeleting.

Inductive RestorePhase :=
| RestorePhaseNew
| RestorePhaseInProgress
| RestorePhaseCompleted.

Inductive BackupStorageLocationAccessMode :=
| BackupStorageLocationAccessModeReadWrite
| BackupStorageLocationAccessModeReadOnly.

#[global] Instance DeleteBackupRequestPhase_eq_dec : EqDecision DeleteBackupRequestPhase.
Proof. solve_decision. Defined.
#[global] Instance BackupPhase_eq_dec : EqDecision BackupPhase.
Proof. solve_decision. Defined.
#[global] Instance RestorePhase_eq_dec : EqDecision RestorePhase.
Proof. solve_decision. Defined.
#[global] Instance AccessMode_eq_dec : EqDecision BackupStorageLocationAccessMode.
Proof. solve_decision. Defined.

Record DeleteBackupRequest := mkRequest {
  req_Namespace : string;
  req_Name : string;
  req_Labels : gmap string string;
  req_CreationTimestamp : Z;
  req_BackupName : string;
  req_Phase : DeleteBackupRequestPhase;
  req_Errors : list string;
}.

Record Backup := mkBackup {
  bk_Namespace : string;
  bk_Name : string;
  bk_UID : string;
  bk_StorageLocation : string;
  bk_Phase : BackupPhase;
}.

Record Restore := mkRestore {
  rs_Namespace : string;
  rs_Name : string;
  rs_BackupName : string;
  rs_Phase : RestorePhase;
}.

Record BackupStorageLocation := mkLocation {
  bsl_Namespace : string;
  bsl_Name : string;
  bsl_AccessMode : BackupStorageLocationAccessMode;
}.

Record VolumeSnapshotLocation := mkSnapshotLocation {
  vsl_Namespace : string;
  vsl_Name : string;
  vsl_Provider : string;
}.

(** [volume.Snapshot]: the location it was taken through and the
    provider's identifier of it. *)
Record Snapshot := mkSnapshot {
  snap_Location : string;
  snap_ProviderSnapshotID : string;
}.

#[global] Instance Restore_eq_dec : EqDecision Restore.
Proof. solve_decision. Defined.
#[global] Instance Backup_eq_dec : EqDecision Backup.
Proof. solve_decision. Defined.

(** ** What a run can be observed to do *)

(** A merge patch of a request: labels to set, the phase when it is set,
    the error list (left out of the patch when empty). *)
Record RequestPatch := mkPatch {
  patch_Labels : list (string * string);
  patch_Phase : option DeleteBackupRequestPhase;
  patch_Errors : list string;
}.

Inductive Op :=
(* the cluster API *)
| PatchRequest (ns name : string) (p : RequestPatch)
| GetBackup (ns name : string)
| PatchBackupPhase (ns name : string) (ph : BackupPhase)
| DeleteRestore (ns name : string)
| DeleteBackup (ns name : string)
| DeleteCollectionRequests (ns backupName uid : string)
| DeleteRequest (ns name : string)
| GetLocation (ns name : string)
(* the storage abstraction *)
| StoreGetBackupContents (name : string)
| StoreGetBackupVolumeSnapshots (name : string)
| StoreDeleteBackup (name : string)
| StoreDeleteRestore (name : string)
(* the plugin capability handle *)
| GetDeleteItemActions
| ExecuteDeleteItemAction (i : nat)
| GetVolumeSnapshotter (provider : string)
| DeleteSnapshot (provider id : string)
| CleanupClients.

(** A call and how it ended: [None] for success, else the error. *)
Inductive Event := Call (op : Op) (err : option string).

Definition ev_op (e : Event) : Op := let 'Call op _ := e in op.
Definition ev_err (e : Event) : option string := let 'Call _ err := e in err.

(** The objects a run may change, and the calls made so far, oldest
    first. *)
Record World := mkWorld {
  requests : list DeleteBackupRequest;
  backups : list Backup;
  restores : list Restore;
  storeBackups : list string;
  storeRestores : list string;
  providerSnapshots : list (string * string);
  trace : list Event;
}.

(** What a run only reads: storage locations, snapshot locations, the
    concurrency guard, the volume snapshots recorded in storage for each
    backup, and the number of registered delete-time item actions. *)
Record View := mkView {
  locations : list BackupStorageLocation;
  snapshotLocations : list VolumeSnapshotLocation;
  tracker : gset (string * string);
  volumeSnapshots : string -> list Snapshot;
  deleteItemActions : nat;
}.

(** Which calls fail, and with what error.  These are the failures the
    specification names. *)
Record Faults := mkFaults {
  failPatchInProgress : option string;
  failPatchDeleting : option string;
  failGetBackupContents : option string;
  failGetBackupVolumeSnapshots : option string;
  failGetVolumeSnapshotter : string -> option string;
  failDeleteSnapshot : string -> option string;
  failDeleteRestore : string -> option string;
  failStoreDeleteRestore : string -> option string;
  failDeleteBackup : option string;
  failStoreDeleteBackup : option string;
}.

Definition noFaults : Faults :=
  mkFaults None None None None (fun _ => None) (fun _ => None)
    (fun _ => None) (fun _ => None) None None.

Definition set_requests (x : list DeleteBackupRequest) (w : World) : World :=
  mkWorld x (backups w) (restores w) (storeBackups w) (storeRestores w)
    (providerSnapshots w) (trace w).
Definition set_backups (x : list Backup) (w : World) : World :=
  mkWorld (requests w) x (restores w) (storeBackups w) (storeRestores w)
    (providerSnapshots w) (trace w).
Definition set_restores (x : list Restore) (w : World) : World :=
  mkWorld (requests w) (backups w) x (storeBackups w) (storeRestores w)
    (providerSnapshots w) (trace w).
Definition set_storeBackups (x : list string) (w : World) : World :=
  mkWorld (requests w) (backups w) (restores w) x (storeRestores w)
    (providerSnapshots w) (trace w).
Definition set_storeRestores (x : list string) (w : World) : World :=
  mkWorld (requests w) (backups w) (restores w) (storeBackups w) x
    (providerSnapshots w) (trace w).
Definition set_providerSnapshots (x : list (string * string)) (w : World)
  : World :=
  mkWorld (requests w) (backups w) (restores w) (storeBackups w)
    (storeRestores w) x (trace w).
Definition set_trace (x : list Event) (w : World) : World :=
  mkWorld (requests w) (backups w) (restores w) (storeBackups w)
    (storeRestores w) (providerSnapshots w) x.

(** ** A state monad over the world *)

Definition M (A : Type) : Type := World -> A * World.

Definition ret {A} (a : A) : M A := fun w => (a, w).

Definition bind {A B} (m : M A) (k : A -> M B) : M B :=
  fun w => let (a, w') := m w in k a w'.

Notation "x <- m ;; k" := (bind m (fun x => k))
  (at level 100, m at next level, right associativity).
Notation "m ;;; k" := (bind m (fun _ => k))
  (at level 100, right associativity).

Definition gets {A} (f : World -> A) : M A := fun w => (f w, w).

(** Make a call: it is recorded; its effect takes place when it
    succeeds; its error, if any, is handed back. *)
Definition attempt (op : Op) (err : option string) (effect : World -> World)
  : M (option string) :=
  fun w =>
    let w1 := set_trace (trace w ++ [Call op err]) w in
    match err with
    | None => (None, effect w1)
    | Some e => (Some e, w1)
    end.

(** ** The cluster, storage and plugin calls *)

Definition sameRequest (ns name : string) (r : DeleteBackupRequest) : bool :=
  bool_decide (req_Namespace r = ns) && bool_decide (req_Name r = name).

Definition applyPatch (p : RequestPatch) (r : DeleteBackupRequest)
  : DeleteBackupRequest :=
  mkRequest (req_Namespace r) (req_Name r)
    (foldr (fun kv m => <[kv.1 := kv.2]> m) (req_Labels r) (patch_Labels p))
    (req_CreationTimestamp r) (req_BackupName r)
    (default (req_Phase r) (patch_Phase p))
    (match patch_Errors p with [] => req_Errors r | errs => errs end).

Definition patchRequest (err : option string) (req : DeleteBackupRequest)
    (p : RequestPatch) : M (option string) :=
  let ns := req_Namespace req in
  let name := req_Name req in
  attempt (PatchRequest ns name p) err
    (fun w =>
       set_requests
         (List.map (fun r => if sameRequest ns name r then applyPatch p r else r)
            (requests w)) w).

Definition sameBackup (ns name : string) (b : Backup) : bool :=
  bool_decide (bk_Namespace b = ns) && bool_decide (bk_Name b = name).

Definition getBackup (ns name : string) : M (option Backup) :=
  found <- gets (fun w => List.find (sameBackup ns name) (backups w)) ;;
  attempt (GetBackup ns name) None (fun w => w) ;;;
  ret found.

Definition setBackupPhase (ph : BackupPhase) (b : Backup) : Backup :=
  mkBackup (bk_Namespace b) (bk_Name b) (bk_UID b) (bk_StorageLocation b) ph.

Definition patchBackupPhase (err : option string) (backup : Backup)
    (ph : BackupPhase) : M (option string) :=
  let ns := bk_Namespace backup in
  let name := bk_Name backup in
  attempt (PatchBackupPhase ns name ph) err
    (fun w =>
       set_backups
         (List.map (fun b => if sameBackup ns name b then setBackupPhase ph b else b)
            (backups w)) w).

Definition sameLocation (ns name : string) (l : BackupStorageLocation) : bool :=
  bool_decide (bsl_Namespace l = ns) && bool_decide (bsl_Name l = name).

Definition getLocation (v : View) (ns name : string)
  : M (option BackupStorageLocation) :=
  attempt (GetLocation ns name) None (fun w => w) ;;;
  ret (List.find (sameLocation ns name) (locations v)).

Definition sameRestore (ns name : string) (r : Restore) : bool :=
  bool_decide (rs_Namespace r = ns) && bool_decide (rs_Name r = name).

Definition deleteRestore (err : option string) (ns name : string)
  : M (option string) :=
  attempt (DeleteRestore ns name) err
    (fun w =>
       set_restores
         (List.filter (fun r => negb (sameRestore ns name r)) (restores w)) w).

Definition storeDeleteRestore (err : option string) (name : string)
  : M (option string) :=
  attempt (StoreDeleteRestore name) err
    (fun w =>
       set_storeRestores
         (List.filter (fun n => negb (bool_decide (n = name))) (storeRestores w))
         w).

Definition deleteBackup (err : option string) (ns name : string)
  : M (option string) :=
  attempt (DeleteBackup ns name) err
    (fun w =>
       set_backups
         (List.filter (fun b => negb (sameBackup ns name b)) (backups w)) w).

Definition storeDeleteBackup (err : option string) (name : string)
  : M (option string) :=
  attempt (StoreDeleteBackup name) err
    (fun w =>
       set_storeBackups
         (List.filter (fun n => negb (bool_decide (n = name))) (storeBackups w))
         w).

(** The requests selected by [NewDeleteBackupRequestListOptions]: those
    of the namespace that carry both correlation labels of the backup. *)
Definition correlatedRequest (ns backupName uid : string)
    (r : DeleteBackupRequest) : bool :=
  bool_decide (req_Namespace r = ns)
  && bool_decide (req_Labels r !! BackupNameLabel = Some (GetValidName backupName))
  && bool_decide (req_Labels r !! BackupUIDLabel = Some uid).

Definition deleteCollectionRequests (ns backupName uid : string)
  : M (option string) :=
  attempt (DeleteCollectionRequests ns backupName uid) None
    (fun w =>
       set_requests
         (List.filter (fun r => negb (correlatedRequest ns backupName uid r))
            (requests w)) w).

Definition deleteSnapshot (err : option string) (provider id : string)
  : M (option string) :=
  attempt (DeleteSnapshot provider id) err
    (fun w =>
       set_providerSnapshots
         (List.filter (fun s => negb (bool_decide (s = (provider, id))))
            (providerSnapshots w)) w).

Definition errList (e : option string) : list string :=
  match e with Some msg => [msg] | None => [] end.

(** Run [f] on every element in turn and gather the errors. *)
Fixpoint forEach {A} (f : A -> M (list string)) (l : list A) : M (list string) :=
  match l with
  | [] => ret []
  | x :: rest =>
      e <- f x ;;
      es <- forEach f rest ;;
      ret (e ++ es)
  end.

(** ** The cascade (steps 10 to 15) *)

(** Step 10, item-action cleanup: the content archive is fetched only when
    delete-time item actions are registered; when the download fails the
    actions are skipped and nothing is added to the error list. *)
Definition itemActionCleanup (v : View) (flt : Faults) (backup : Backup)
  : M unit :=
  attempt GetDeleteItemActions None (fun w => w) ;;;
  if decide (deleteItemActions v = 0%nat) then ret tt
  else
    e <- attempt (StoreGetBackupContents (bk_Name backup))
           (failGetBackupContents flt) (fun w => w) ;;
    match e with
    | Some _ => ret tt
    | None =>
        forEach
          (fun i => attempt (ExecuteDeleteItemAction i) None (fun w => w) ;;;
                    ret [])
          (seq 0 (deleteItemActions v)) ;;;
        ret tt
    end.

Definition sameSnapshotLocation (ns name : string)
    (l : VolumeSnapshotLocation) : bool :=
  bool_decide (vsl_Namespace l = ns) && bool_decide (vsl_Name l = name).

Definition snapshotLocationMissing (name : string) : string :=
  "volume snapshot location " +:+ name +:+ " not found".

(** Step 11 for one snapshot: the provider is the one of the snapshot's
    location; its plugin is resolved by that name and asked to delete the
    snapshot. *)
Definition deleteOneSnapshot (v : View) (flt : Faults) (backup : Backup)
    (s : Snapshot) : M (list string) :=
  match List.find (sameSnapshotLocation (bk_Namespace backup) (snap_Location s))
          (snapshotLocations v) with
  | None => ret [snapshotLocationMissing (snap_Location s)]
  | Some loc =>
      let provider := vsl_Provider loc in
      e <- attempt (GetVolumeSnapshotter provider)
             (failGetVolumeSnapshotter flt provider) (fun w => w) ;;
      match e with
      | Some msg => ret [msg]
      | None =>
          e <- deleteSnapshot (failDeleteSnapshot flt (snap_ProviderSnapshotID s))
                 provider (snap_ProviderSnapshotID s) ;;
          ret (errList e)
      end
  end.

Definition snapshotCleanup (v : View) (flt : Faults) (backup : Backup)
  : M (list string) :=
  e <- attempt (StoreGetBackupVolumeSnapshots (bk_Name backup))
         (failGetBackupVolumeSnapshots flt) (fun w => w) ;;
  match e with
  | Some msg => ret [msg]
  | None => forEach (deleteOneSnapshot v flt backup) (volumeSnapshots v (bk_Name backup))
  end.

(** A restore is correlated to a backup by the backup's name. *)
Definition correlatedRestore (backup : Backup) (r : Restore) : bool :=
  bool_decide (rs_Namespace r = bk_Namespace backup)
  && bool_decide (rs_BackupName r = bk_Name backup).

(** Step 12 for one restore: both deletions are attempted whatever the
    outcome of the first. *)
Definition deleteOneRestore (flt : Faults) (r : Restore) : M (list string) :=
  e1 <- deleteRestore (failDeleteRestore flt (rs_Name r)) (rs_Namespace r)
          (rs_Name r) ;;
  e2 <- storeDeleteRestore (failStoreDeleteRestore flt (rs_Name r)) (rs_Name r) ;;
  ret (errList e1 ++ errList e2).

Definition restoreCleanup (flt : Faults) (backup : Backup) : M (list string) :=
  rs <- gets (fun w => List.filter (correlatedRestore backup) (restores w)) ;;
  forEach (deleteOneRestore flt) rs.

(** Step 13. *)
Definition deleteBackupAndRecord (flt : Faults) (backup : Backup)
  : M (list string) :=
  e1 <- deleteBackup (failDeleteBackup flt) (bk_Namespace backup) (bk_Name backup) ;;
  e2 <- storeDeleteBackup (failStoreDeleteBackup flt) (bk_Name backup) ;;
  ret (errList e1 ++ errList e2).

Definition processedPatch (errs : list string) : RequestPatch :=
  mkPatch [] (Some DeleteBackupRequestPhaseProcessed) errs.

Definition inProgressPatch (label : string) : RequestPatch :=
  mkPatch [(BackupNameLabel, label)] (Some DeleteBackupRequestPhaseInProgress) [].

Definition uidPatch (uid : string) : RequestPatch :=
  mkPatch [(BackupUIDLabel, uid)] None [].

(** Modelled from the spec: steps 9 to 15 of the processing algorithm, the
    part of [processRequest] that runs once the backup is marked Deleting.
    Errors of steps 11 to 13 are gathered and none of them ends the run. *)
Definition cascade (v : View) (flt : Faults) (req : DeleteBackupRequest)
    (backup : Backup) : M (option string) :=
  (* 10. item-action cleanup (best-effort) *)
  itemActionCleanup v flt backup ;;;
  (* 11. volume snapshot cleanup *)
  errs11 <- snapshotCleanup v flt backup ;;
  (* 12. dependent restore cleanup *)
  errs12 <- restoreCleanup flt backup ;;
  (* 13. delete backup object and storage record *)
  errs13 <- deleteBackupAndRecord flt backup ;;
  (* 14. finalize *)
  patchRequest None req (processedPatch (errs11 ++ errs12 ++ errs13)) ;;;
  (* 15. self-cleanup *)
  deleteCollectionRequests (req_Namespace req) (bk_Name backup) (bk_UID backup) ;;;
  (* 9. the plugin handle is released when processing finishes *)
  attempt CleanupClients None (fun w => w) ;;;
  ret None.

Definition locationNotFound (name : string) : string :=
  "backup storage location " +:+ name +:+ " not found".

Definition locationReadOnly (name : string) : string :=
  "cannot delete backup because backup storage location " +:+ name
  +:+ " is currently in read-only mode".

(** Modelled from the spec: [processRequest] of the backup deletion
    controller, whose source file is not among the sources (its tests
    are).  The steps and their order are those of the specification's
    processing algorithm (4.3, steps 1 to 15); the two fatal failures
    return the error, every validation failure ends the run with the
    request [Processed].  For a failed archive download step 10 of the
    algorithm is followed (log and proceed), which is what the test
    "backup is still deleted if downloading tarball fails for
    DeleteItemAction plugins" expects of the final patch. *)
Definition processRequest (v : View) (flt : Faults) (req : DeleteBackupRequest)
  : M (option string) :=
  let ns := req_Namespace req in
  let name := req_BackupName req in
  (* 1. validate *)
  if decide (name = "") then
    patchRequest None req (processedPatch ["spec.backupName is required"]) ;;;
    ret None
  (* 2. exclusivity check *)
  else if decide ((ns, name) ∈ tracker v) then
    patchRequest None req (processedPatch ["backup is still in progress"]) ;;;
    ret None
  else
    (* 3. mark InProgress *)
    e <- patchRequest (failPatchInProgress flt) req
           (inProgressPatch (GetValidName name)) ;;
    match e with
    | Some err => ret (Some err)
    | None =>
        (* 4. locate backup *)
        found <- getBackup ns name ;;
        match found with
        | None =>
            patchRequest None req (processedPatch ["backup not found"]) ;;;
            ret None
        | Some backup =>
            (* 5. label enrichment *)
            patchRequest None req (uidPatch (bk_UID backup)) ;;;
            (* 6. locate storage location *)
            loc <- getLocation v (bk_Namespace backup) (bk_StorageLocation backup) ;;
            match loc with
            | None =>
                patchRequest None req
                  (processedPatch [locationNotFound (bk_StorageLocation backup)]) ;;;
                ret None
            | Some location =>
                (* 7. read-only guard *)
                if decide (bsl_AccessMode location
                           = BackupStorageLocationAccessModeReadOnly) then
                  patchRequest None req
                    (processedPatch [locationReadOnly (bsl_Name location)]) ;;;
                  ret None
                else
                  (* 8. mark backup Deleting *)
                  e <- patchBackupPhase (failPatchDeleting flt) backup
                         BackupPhaseDeleting ;;
                  match e with
                  | Some err => ret (Some err)
                  | None => cascade v flt req backup
                  end
            end
        end
    end.

(** The calls that go through the typed cluster client, which is what the
    controller tests record and compare. *)
Definition isClientAction (op : Op) : bool :=
  match op with
  | PatchRequest _ _ _ | GetBackup _ _ | PatchBackupPhase _ _ _
  | DeleteRestore _ _ | DeleteBackup _ _ | DeleteCollectionRequests _ _ _
  | DeleteRequest _ _ => true
  | _ => false
  end.

Definition clientActions (t : list Event) : list Op :=
  List.filter isClientAction (List.map ev_op t).

(** The failures of a trace: the calls that ended in an error. *)
Definition failed (op : Op) (msg : string) (t : list Event) : Prop :=
  Call op (Some msg) ∈ t.

Definition attempted (op : Op) (t : list Event) : Prop :=
  exists err, Call op err ∈ t.

(** The request as the cluster holds it. *)
Definition findRequest (w : World) (ns name : string)
  : option DeleteBackupRequest :=
  List.find (sameRequest ns name) (requests w).

(** The calls a run added to the trace. *)
Definition eventsOf {A} (m : M A) (w : World) : list Event :=
  drop (List.length (trace w)) (trace (snd (m w))).

(** ** What a run amounts to

    The calls, the errors and the world that each part of [processRequest]
    leaves, written as plain functions of the faults; the facts below show
    that the monadic code computes exactly these. *)

Definition isNone {A} (o : option A) : bool :=
  match o with None => true | Some _ => false end.

(** Step 10. *)
Definition itemActionEvents (v : View) (flt : Faults) (b : Backup)
  : list Event :=
  Call GetDeleteItemActions None ::
  (if decide (deleteItemActions v = 0%nat) then []
   else
     Call (StoreGetBackupContents (bk_Name b)) (failGetBackupContents flt) ::
     match failGetBackupContents flt with
     | Some _ => []
     | None =>
         List.map (fun i => Call (ExecuteDeleteItemAction i) None)
           (seq 0 (deleteItemActions v))
     end).

(** Step 11. *)
Definition snapshotProvider (v : View) (b : Backup) (s : Snapshot)
  : option string :=
  vsl_Provider <$>
    List.find (sameSnapshotLocation (bk_Namespace b) (snap_Location s))
      (snapshotLocations v).

Definition oneSnapshotEvents (v : View) (flt : Faults) (b : Backup)
    (s : Snapshot) : list Event :=
  match snapshotProvider v b s with
  | None => []
  | Some p =>
      Call (GetVolumeSnapshotter p) (failGetVolumeSnapshotter flt p) ::
      match failGetVolumeSnapshotter flt p with
      | Some _ => []
      | None =>
          [Call (DeleteSnapshot p (snap_ProviderSnapshotID s))
             (failDeleteSnapshot flt (snap_ProviderSnapshotID s))]
      end
  end.

Definition oneSnapshotErrors (v : View) (flt : Faults) (b : Backup)
    (s : Snapshot) : list string :=
  match snapshotProvider v b s with
  | None => [snapshotLocationMissing (snap_Location s)]
  | Some p =>
      match failGetVolumeSnapshotter flt p with
      | Some msg => [msg]
      | None => errList (failDeleteSnapshot flt (snap_ProviderSnapshotID s))
      end
  end.

(** The provider snapshot that is gone after the step, if any. *)
Definition oneSnapshotDeleted (v : View) (flt : Faults) (b : Backup)
    (s : Snapshot) : list (string * string) :=
  match snapshotProvider v b s with
  | None => []
  | Some p =>
      if isNone (failGetVolumeSnapshotter flt p)
         && isNone (failDeleteSnapshot flt (snap_ProviderSnapshotID s))
      then [(p, snap_ProviderSnapshotID s)] else []
  end.

Definition listedSnapshots (v : View) (flt : Faults) (b : Backup)
  : list Snapshot :=
  match failGetBackupVolumeSnapshots flt with
  | Some _ => []
  | None => volumeSnapshots v (bk_Name b)
  end.

Definition snapshotEvents (v : View) (flt : Faults) (b : Backup) : list Event :=
  Call (StoreGetBackupVolumeSnapshots (bk_Name b))
    (failGetBackupVolumeSnapshots flt) ::
  flat_map (oneSnapshotEvents v flt b) (listedSnapshots v flt b).

Definition snapshotErrors (v : View) (flt : Faults) (b : Backup) : list string :=
  errList (failGetBackupVolumeSnapshots flt) ++
  flat_map (oneSnapshotErrors v flt b) (listedSnapshots v flt b).

Definition removeSnapshots (del : list (string * string))
    (l : list (string * string)) : list (string * string) :=
  foldl (fun l x => List.filter (fun s => negb (bool_decide (s = x))) l) l del.

(** Step 12. *)
Definition oneRestoreEvents (flt : Faults) (r : Restore) : list Event :=
  [Call (DeleteRestore (rs_Namespace r) (rs_Name r))
     (failDeleteRestore flt (rs_Name r));
   Call (StoreDeleteRestore (rs_Name r)) (failStoreDeleteRestore flt (rs_Name r))].

Definition oneRestoreErrors (flt : Faults) (r : Restore) : list string :=
  errList (failDeleteRestore flt (rs_Name r)) ++
  errList (failStoreDeleteRestore flt (rs_Name r)).

Definition removeRestores (del : list Restore) (l : list Restore)
  : list Restore :=
  foldl (fun l x =>
           List.filter
             (fun r => negb (sameRestore (rs_Namespace x) (rs_Name x) r)) l)
    l del.

Definition removeNames (del : list string) (l : list string) : list string :=
  foldl (fun l x => List.filter (fun n => negb (bool_decide (n = x))) l) l del.

Definition clusterDeleted (flt : Faults) (rs : list Restore) : list Restore :=
  List.filter (fun r => isNone (failDeleteRestore flt (rs_Name r))) rs.

Definition storeDeleted (flt : Faults) (rs : list Restore) : list string :=
  List.map rs_Name
    (List.filter (fun r => isNone (failStoreDeleteRestore flt (rs_Name r))) rs).

(** Step 13. *)
Definition backupEvents (flt : Faults) (b : Backup) : list Event :=
  [Call (DeleteBackup (bk_Namespace b) (bk_Name b)) (failDeleteBackup flt);
   Call (StoreDeleteBackup (bk_Name b)) (failStoreDeleteBackup flt)].

Definition backupErrors (flt : Faults) : list string :=
  errList (failDeleteBackup flt) ++ errList (failStoreDeleteBackup flt).

(** The world after the snapshot step and after the restore step. *)
Definition afterSnapshots (del : list (string * string)) (evs : list Event)
    (w : World) : World :=
  mkWorld (requests w) (backups w) (restores w) (storeBackups w)
    (storeRestores w) (removeSnapshots del (providerSnapshots w))
    (trace w ++ evs).

Definition afterRestores (flt : Faults) (rs : list Restore) (w : World)
  : World :=
  mkWorld (requests w) (backups w)
    (removeRestores (clusterDeleted flt rs) (restores w)) (storeBackups w)
    (removeNames (storeDeleted flt rs) (storeRestores w)) (providerSnapshots w)
    (trace w ++ flat_map (oneRestoreEvents flt) rs).

(** Steps 10 to 15 together; [rs] are the restores correlated to the
    backup when the cascade starts. *)
Definition cascadeErrors (v : View) (flt : Faults) (b : Backup)
    (rs : list Restore) : list string :=
  snapshotErrors v flt b ++ flat_map (oneRestoreErrors flt) rs ++ backupErrors flt.

Definition cascadeEvents (v : View) (flt : Faults) (req : DeleteBackupRequest)
    (b : Backup) (rs : list Restore) : list Event :=
  itemActionEvents v flt b ++ snapshotEvents v flt b ++
  flat_map (oneRestoreEvents flt) rs ++ backupEvents flt b ++
  [Call (PatchRequest (req_Namespace req) (req_Name req)
           (processedPatch (cascadeErrors v flt b rs))) None;
   Call (DeleteCollectionRequests (req_Namespace req) (bk_Name b) (bk_UID b)) None;
   Call CleanupClients None].

Definition patchedRequests (req : DeleteBackupRequest) (p : RequestPatch)
    (l : list DeleteBackupRequest) : list DeleteBackupRequest :=
  List.map
    (fun r => if sameRequest (req_Namespace req) (req_Name req) r
              then applyPatch p r else r) l.

Definition cascadeWorld (v : View) (flt : Faults) (req : DeleteBackupRequest)
    (b : Backup) (w : World) : World :=
  let rs := List.filter (correlatedRestore b) (restores w) in
  mkWorld
    (List.filter
       (fun r => negb (correlatedRequest (req_Namespace req) (bk_Name b)
                         (bk_UID b) r))
       (patchedRequests req (processedPatch (cascadeErrors v flt b rs))
          (requests w)))
    (if isNone (failDeleteBackup flt)
     then List.filter
            (fun x => negb (sameBackup (bk_Namespace b) (bk_Name b) x))
            (backups w)
     else backups w)
    (removeRestores (clusterDeleted flt rs) (restores w))
    (if isNone (failStoreDeleteBackup flt)
     then List.filter (fun n => negb (bool_decide (n = bk_Name b)))
            (storeBackups w)
     else storeBackups w)
    (removeNames (storeDeleted flt rs) (storeRestores w))
    (removeSnapshots
       (flat_map (oneSnapshotDeleted v flt b) (listedSnapshots v flt b))
       (providerSnapshots w))
    (trace w ++ cascadeEvents v flt req b rs).

(** Steps 3 to 8, when each of them goes through. *)
Definition prefixEvents (req : DeleteBackupRequest) (b : Backup) : list Event :=
  [Call (PatchRequest (req_Namespace req) (req_Name req)
           (inProgressPatch (GetValidName (req_BackupName req)))) None;
   Call (GetBackup (req_Namespace req) (req_BackupName req)) None;
   Call (PatchRequest (req_Namespace req) (req_Name req)
           (uidPatch (bk_UID b))) None;
   Call (GetLocation (bk_Namespace b) (bk_StorageLocation b)) None;
   Call (PatchBackupPhase (bk_Namespace b) (bk_Name b) BackupPhaseDeleting) None].

Definition prefixWorld (req : DeleteBackupRequest) (b : Backup) (w : World)
  : World :=
  mkWorld
    (patchedRequests req (uidPatch (bk_UID b))
       (patchedRequests req
          (inProgressPatch (GetValidName (req_BackupName req))) (requests w)))
    (List.map
       (fun x => if sameBackup (bk_Namespace b) (bk_Name b) x
                 then setBackupPhase BackupPhaseDeleting x else x)
       (backups w))
    (restores w) (storeBackups w) (storeRestores w) (providerSnapshots w)
    (trace w ++ prefixEvents req b).

(** The ways through [processRequest]. *)
Inductive Path :=
| PathMissingName
| PathStillInProgress
| PathInProgressPatchFailed (e : string)
| PathBackupNotFound
| PathLocationNotFound (b : Backup)
| PathReadOnly (b : Backup) (loc : BackupStorageLocation)
| PathDeletingPatchFailed (b : Backup) (e : string)
| PathCascade (b : Backup).

Definition pathOf (v : View) (flt : Faults) (req : DeleteBackupRequest)
    (w : World) : Path :=
  let ns := req_Namespace req in
  let name := req_BackupName req in
  if decide (name = "") then PathMissingName
  else if decide ((ns, name) ∈ tracker v) then PathStillInProgress
  else
    match failPatchInProgress flt with
    | Some e => PathInProgressPatchFailed e
    | None =>
        match List.find (sameBackup ns name) (backups w) with
        | None => PathBackupNotFound
        | Some b =>
            match List.find
                    (sameLocation (bk_Namespace b) (bk_StorageLocation b))
                    (locations v) with
            | None => PathLocationNotFound b
            | Some loc =>
                if decide (bsl_AccessMode loc
                           = BackupStorageLocationAccessModeReadOnly)
                then PathReadOnly b loc
                else
                  match failPatchDeleting flt with
                  | Some e => PathDeletingPatchFailed b e
                  | None => PathCascade b
                  end
            end
        end
    end.

Definition pathResult (p : Path) : option string :=
  match p with
  | PathInProgressPatchFailed e | PathDeletingPatchFailed _ e => Some e
  | _ => None
  end.

Definition requestCall (req : DeleteBackupRequest) (p : RequestPatch)
    (err : option string) : Event :=
  Call (PatchRequest (req_Namespace req) (req_Name req) p) err.

(** The successful request patches of a path that ends before the
    cascade, in order. *)
Definition pathPatches (req : DeleteBackupRequest) (p : Path)
  : list RequestPatch :=
  let inProgress := inProgressPatch (GetValidName (req_BackupName req)) in
  match p with
  | PathMissingName => [processedPatch ["spec.backupName is required"]]
  | PathStillInProgress => [processedPatch ["backup is still in progress"]]
  | PathInProgressPatchFailed _ => []
  | PathBackupNotFound => [inProgress; processedPatch ["backup not found"]]
  | PathLocationNotFound b =>
      [inProgress; uidPatch (bk_UID b);
       processedPatch [locationNotFound (bk_StorageLocation b)]]
  | PathReadOnly b loc =>
      [inProgress; uidPatch (bk_UID b);
       processedPatch [locationReadOnly (bsl_Name loc)]]
  | PathDeletingPatchFailed b _ => [inProgress; uidPatch (bk_UID b)]
  | PathCascade b => [inProgress; uidPatch (bk_UID b)]
  end.

(** The calls of a run, by path. *)
Definition pathEvents (v : View) (flt : Faults) (req : DeleteBackupRequest)
    (w : World) (p : Path) : list Event :=
  let inProgress := inProgressPatch (GetValidName (req_BackupName req)) in
  let getBackup := Call (GetBackup (req_Namespace req) (req_BackupName req)) None in
  let getLocation b :=
    Call (GetLocation (bk_Namespace b) (bk_StorageLocation b)) None in
  match p with
  | PathMissingName =>
      [requestCall req (processedPatch ["spec.backupName is required"]) None]
  | PathStillInProgress =>
      [requestCall req (processedPatch ["backup is still in progress"]) None]
  | PathInProgressPatchFailed e => [requestCall req inProgress (Some e)]
  | PathBackupNotFound =>
      [requestCall req inProgress None; getBackup;
       requestCall req (processedPatch ["backup not found"]) None]
  | PathLocationNotFound b =>
      [requestCall req inProgress None; getBackup;
       requestCall req (uidPatch (bk_UID b)) None; getLocation b;
       requestCall req
         (processedPatch [locationNotFound (bk_StorageLocation b)]) None]
  | PathReadOnly b loc =>
      [requestCall req inProgress None; getBackup;
       requestCall req (uidPatch (bk_UID b)) None; getLocation b;
       requestCall req (processedPatch [locationReadOnly (bsl_Name loc)]) None]
  | PathDeletingPatchFailed b e =>
      [requestCall req inProgress None; getBackup;
       requestCall req (uidPatch (bk_UID b)) None; getLocation b;
       Call (PatchBackupPhase (bk_Namespace b) (bk_Name b) BackupPhaseDeleting)
         (Some e)]
  | PathCascade b =>
      prefixEvents req b ++
      cascadeEvents v flt req b (List.filter (correlatedRestore b) (restores w))
  end.

Definition pathWorld (v : View) (flt : Faults) (req : DeleteBackupRequest)
    (w : World) (p : Path) : World :=
  match p with
  | PathCascade b => cascadeWorld v flt req b (prefixWorld req b w)
  | _ =>
      mkWorld
        (foldl (fun l q => patchedRequests req q l) (requests w)
           (pathPatches req p))
        (backups w) (restores w) (storeBackups w) (storeRestores w)
        (providerSnapshots w) (trace w ++ pathEvents v flt req w p)
  end.

(** The two failures that end a run with an error. *)
Definition isFatal (op : Op) : bool :=
  match op with
  | PatchRequest _ _ p =>
      bool_decide (patch_Phase p = Some DeleteBackupRequestPhaseInProgress)
  | PatchBackupPhase _ _ ph => bool_decide (ph = BackupPhaseDeleting)
  | _ => false
  end.

Definition isDownload (op : Op) : bool :=
  match op with StoreGetBackupContents _ => true | _ => false end.

(** The keys of the restores in the cluster. *)
Definition restoreKeys (w : World) : list (string * string) :=
  List.map (fun r => (rs_Namespace r, rs_Name r)) (restores w).

End Deletion.

(* ===================================================================== *)
(** * The expiry sweeper                                                  *)
(* ===================================================================== *)
Module Sweeper.

Import Deletion.

Open Scope Z_scope.

(** Times are seconds since the Unix epoch. *)
Definition Hour : Z := 3600.

(** The retention window. *)
Definition deleteBackupRequestMaxAge : Z := 24 * Hour.

(** [time.Date(y, m, d, hh, mm, ss, 0, time.UTC)] as Unix seconds (the
    proleptic Gregorian calendar, counted in days from the civil date). *)
Definition Date (y m d hh mm ss : Z) : Z :=
  let y' := if m <=? 2 then y - 1 else y in
  let era := y' / 400 in
  let yoe := y' - era * 400 in
  let mp := (m + 9) mod 12 in
  let doy := (153 * mp + 2) / 5 + d - 1 in
  let doe := yoe * 365 + yoe / 4 - yoe / 100 + doy in
  let days := era * 146097 + doe - 719468 in
  ((days * 24 + hh) * 60 + mm) * 60 + ss.

Definition isExpired (now : Z) (r : DeleteBackupRequest) : bool :=
  bool_decide (req_Phase r = DeleteBackupRequestPhaseProcessed)
  && (req_CreationTimestamp r <=? now - deleteBackupRequestMaxAge).

Definition deleteRequest (err : option string) (ns name : string)
  : M (option string) :=
  attempt (DeleteRequest ns name) err
    (fun w =>
       set_requests
         (List.filter (fun r => negb (sameRequest ns name r)) (requests w)) w).

(** Modelled from the spec: [deleteExpiredRequests] of the backup deletion
    controller (its source file is not among the sources; its test is).
    All requests are listed; each one that is [Processed] and was created
    at or before now minus the retention window is deleted; a deletion
    that fails is passed over and the others are still attempted. *)
Definition deleteExpiredRequests (failDelete : string -> string -> option string)
    (now : Z) : M unit :=
  reqs <- gets requests ;;
  forEach
    (fun r =>
       if isExpired now r then
         deleteRequest (failDelete (req_Namespace r) (req_Name r))
           (req_Namespace r) (req_Name r) ;;;
         ret []
       else ret [])
    reqs ;;;
  ret tt.

(** *** What a sweep amounts to *)

Definition sweepEvents (failDelete : string -> string -> option string)
    (now : Z) (l : list DeleteBackupRequest) : list Event :=
  List.map
    (fun r => Call (DeleteRequest (req_Namespace r) (req_Name r))
                (failDelete (req_Namespace r) (req_Name r)))
    (List.filter (isExpired now) l).

(** The requests whose deletion is attempted and succeeds. *)
Definition swept (failDelete : string -> string -> option string)
    (now : Z) (l : list DeleteBackupRequest) : list DeleteBackupRequest :=
  List.filter
    (fun r => isExpired now r
              && isNone (failDelete (req_Namespace r) (req_Name r))) l.

Definition removeRequests (del : list DeleteBackupRequest)
    (l : list DeleteBackupRequest) : list DeleteBackupRequest :=
  foldl (fun l x =>
           List.filter
             (fun r => negb (sameRequest (req_Namespace x) (req_Name x) r)) l)
    l del.

Definition afterSweep (failDelete : string -> string -> option string)
    (now : Z) (l : list DeleteBackupRequest) (w : World) : World :=
  mkWorld (removeRequests (swept failDelete now l) (requests w)) (backups w)
    (restores w) (storeBackups w) (storeRestores w) (providerSnapshots w)
    (trace w ++ sweepEvents failDelete now l).

(** The keys of the requests in the cluster. *)
Definition requestKeys (w : World) : list (string * string) :=
  List.map (fun r => (req_Namespace r, req_Name r)) (requests w).

Close Scope Z_scope.

End Sweeper.

(* ===================================================================== *)
(** * The scenarios of the controller tests                               *)
(* ===================================================================== *)
Module Tests.

Import Deletion Sweeper.

(** [setupBackupDeletionControllerTest]: the request
    [NewDeleteBackupRequest("foo", "uid")] named [velero/foo-abcde]. *)
Definition setupLabels : gmap string string :=
  <[BackupNameLabel := "foo"]> (<[BackupUIDLabel := "uid"]> ∅).

Definition setupReq (labels : gmap string string) (backupName : string)
  : DeleteBackupRequest :=
  mkRequest "velero" "foo-abcde" labels 0 backupName PhaseUnset [].

Definition emptyView : View := mkView [] [] ∅ (fun _ => []) 0.

Definition worldOf (reqs : list DeleteBackupRequest) (bs : list Backup)
    (rs : list Restore) : World :=
  mkWorld reqs bs rs (List.map bk_Name bs) (List.map rs_Name rs)
    [("provider-1", "snap-1")] [].

(** "missing spec.backupName" *)
Definition missingName_req : DeleteBackupRequest := setupReq setupLabels "".
Definition missingName_expected : list Op :=
  [PatchRequest "velero" "foo-abcde"
     (mkPatch [] (Some DeleteBackupRequestPhaseProcessed)
        ["spec.backupName is required"])].

(** "deleting an in progress backup isn't allowed" *)
Definition inProgress_req : DeleteBackupRequest := setupReq setupLabels "foo".
Definition inProgress_view : View :=
  mkView [] [] {[ ("velero", "foo") ]} (fun _ => []) 0.
Definition inProgress_expected : list Op :=
  [PatchRequest "velero" "foo-abcde"
     (mkPatch [] (Some DeleteBackupRequestPhaseProcessed)
        ["backup is still in progress"])].

(** "unable to find backup": no backup exists; the test compares the
    recorded actions in order. *)
Definition backupNotFound_expected : list Op :=
  [GetBackup "velero" "foo";
   PatchRequest "velero" "foo-abcde"
     (mkPatch [] (Some DeleteBackupRequestPhaseProcessed) ["backup not found"])].

(** "full delete, no errors": the request's labels are cleared. *)
Definition fullDelete_req : DeleteBackupRequest := setupReq ∅ "foo".
Definition fullDelete_backup : Backup :=
  mkBackup "velero" "foo" "uid" "primary" BackupPhaseUnset.
Definition restore1 (backupName : string) : Restore :=
  mkRestore "velero" "restore-1" backupName RestorePhaseCompleted.
Definition restore2 (backupName : string) : Restore :=
  mkRestore "velero" "restore-2" backupName RestorePhaseCompleted.
Definition restore3 : Restore :=
  mkRestore "velero" "restore-3" "some-other-backup" RestorePhaseCompleted.
Definition primaryLocation : BackupStorageLocation :=
  mkLocation "velero" "primary" BackupStorageLocationAccessModeReadWrite.
Definition snapshotLocation : VolumeSnapshotLocation :=
  mkSnapshotLocation "velero" "vsl-1" "provider-1".
Definition snapshots : list Snapshot := [mkSnapshot "vsl-1" "snap-1"].

Definition fullDelete_view (backupName : string) (actions : nat) : View :=
  mkView [primaryLocation] [snapshotLocation] ∅
    (fun n => if decide (n = backupName) then snapshots else []) actions.
Definition fullDelete_world : World :=
  worldOf [fullDelete_req] [fullDelete_backup]
    [restore1 "foo"; restore2 "foo"; restore3].
Definition fullDelete_expected : list Op :=
  [PatchRequest "velero" "foo-abcde"
     (mkPatch [(BackupNameLabel, "foo")]
        (Some DeleteBackupRequestPhaseInProgress) []);
   GetBackup "velero" "foo";
   PatchRequest "velero" "foo-abcde" (mkPatch [(BackupUIDLabel, "uid")] None []);
   PatchBackupPhase "velero" "foo" BackupPhaseDeleting;
   DeleteRestore "velero" "restore-1";
   DeleteRestore "velero" "restore-2";
   DeleteBackup "velero" "foo";
   PatchRequest "velero" "foo-abcde"
     (mkPatch [] (Some DeleteBackupRequestPhaseProcessed) []);
   DeleteCollectionRequests "velero" "foo" "uid"].

(** "full delete, no errors, with backup name greater than 63 chars" *)
Definition longDelete_req : DeleteBackupRequest := setupReq ∅ Label.longName.
Definition longDelete_backup : Backup :=
  mkBackup "velero" Label.longName "uid" "primary" BackupPhaseUnset.
Definition longDelete_world : World :=
  worldOf [longDelete_req] [longDelete_backup]
    [restore1 Label.longName; restore2 Label.longName; restore3].
Definition longDelete_expected : list Op :=
  [PatchRequest "velero" "foo-abcde"
     (mkPatch
        [(BackupNameLabel,
          "the-really-long-backup-name-that-is-much-more-than-63-cha6ca4bc")]
        (Some DeleteBackupRequestPhaseInProgress) []);
   GetBackup "velero" Label.longName;
   PatchRequest "velero" "foo-abcde" (mkPatch [(BackupUIDLabel, "uid")] None []);
   PatchBackupPhase "velero" Label.longName BackupPhaseDeleting;
   DeleteRestore "velero" "restore-1";
   DeleteRestore "velero" "restore-2";
   DeleteBackup "velero" Label.longName;
   PatchRequest "velero" "foo-abcde"
     (mkPatch [] (Some DeleteBackupRequestPhaseProcessed) []);
   DeleteCollectionRequests "velero" Label.longName "uid"].

(** "backup is not downloaded when there are no DeleteItemAction plugins"
    and "backup is still deleted if downloading tarball fails for
    DeleteItemAction plugins": no restores; in the second one action is
    registered and [GetBackupContents] fails. *)
Definition tarball_world : World :=
  worldOf [fullDelete_req] [fullDelete_backup] [].
Definition tarball_faults : Faults :=
  mkFaults None None (Some "error downloading tarball") None (fun _ => None)
    (fun _ => None) (fun _ => None) (fun _ => None) None None.
Definition tarball_expected : list Op :=
  [PatchRequest "velero" "foo-abcde"
     (mkPatch [(BackupNameLabel, "foo")]
        (Some DeleteBackupRequestPhaseInProgress) []);
   GetBackup "velero" "foo";
   PatchRequest "velero" "foo-abcde" (mkPatch [(BackupUIDLabel, "uid")] None []);
   PatchBackupPhase "velero" "foo" BackupPhaseDeleting;
   DeleteBackup "velero" "foo";
   PatchRequest "velero" "foo-abcde"
     (mkPatch [] (Some DeleteBackupRequestPhaseProcessed) []);
   DeleteCollectionRequests "velero" "foo" "uid"].

(** The full-delete scenario with one registered item action, in which
    the archive download and the storage deletion of restore-1 fail. *)
Definition twoFailures : Faults :=
  mkFaults None None (Some "error downloading tarball") None (fun _ => None)
    (fun _ => None) (fun _ => None)
    (fun n => if decide (n = "restore-1") then Some "restore-1 not deleted"
              else None)
    None None.

(** "patching to InProgress fails": every patch of a request is answered
    with the error "bad". *)
Definition patchFails : Faults :=
  mkFaults (Some "bad") None None None (fun _ => None) (fun _ => None)
    (fun _ => None) (fun _ => None) None None.

(** "patching backup to Deleting fails": every patch of a backup is
    answered with the error "bad". *)
Definition deletingFails : Faults :=
  mkFaults None (Some "bad") None None (fun _ => None) (fun _ => None)
    (fun _ => None) (fun _ => None) None None.

(** [TestBackupDeletionControllerDeleteExpiredRequests] *)
Definition now : Z := Date 2018 4 4 12 0 0.
Definition unexpired1 : Z := Date 2018 4 4 11 0 0.
Definition unexpired2 : Z := Date 2018 4 3 12 0 1.
Definition expired1 : Z := Date 2018 4 3 12 0 0.
Definition expired2 : Z := Date 2018 4 3 2 0 0.

Definition sweepReq (name : string) (created : Z)
    (phase : DeleteBackupRequestPhase) : DeleteBackupRequest :=
  mkRequest "ns" name ∅ created "" phase [].

Definition sweepWorld (reqs : list DeleteBackupRequest) : World :=
  mkWorld reqs [] [] [] [] [] [].

Definition someExpired : list DeleteBackupRequest :=
  [sweepReq "unexpired-1" unexpired1 DeleteBackupRequestPhaseProcessed;
   sweepReq "expired-1" expired1 DeleteBackupRequestPhaseProcessed;
   sweepReq "unexpired-2" unexpired2 DeleteBackupRequestPhaseProcessed;
   sweepReq "expired-2" expired2 DeleteBackupRequestPhaseProcessed].

Definition someExpired_expected : list Op :=
  [DeleteRequest "ns" "expired-1"; DeleteRequest "ns" "expired-2"].

Definition neverFails : string -> string -> option string := fun _ _ => None.

Definition oldUnprocessed (phase : DeleteBackupRequestPhase)
  : list DeleteBackupRequest :=
  [sweepReq "name" expired1 phase].

End Tests.

(* ===================================================================== *)
(** * The backup deletion controller, as its tests show it                *)
(* ===================================================================== *)
Module Controller.

Import Label Deletion Sweeper Tests.

(** [Deletion.processRequest] follows the processing algorithm of the
    specification step by step.  The controller tests that compare the
    recorded calls in order show four points on which the controller
    itself differs from that algorithm:

    - the other deletion requests for the same backup are deleted before
      the concurrency guard is consulted ("existing deletion requests for
      the backup are deleted");
    - the backup is fetched, and its storage location checked, before the
      request is marked InProgress ("patching to InProgress fails",
      "unable to find backup", "unable to find backup storage location",
      "backup storage location is in read-only mode");
    - the backup-name label and the backup-UID label are sent only when
      the request does not carry them: the request of the test setup has
      both, its InProgress patch is [{"status":{"phase":"InProgress"}}]
      and no patch of the UID label follows ("patching backup to Deleting
      fails"); requests whose labels were cleared get both ("full delete,
      no errors");
    - the error of a failed patch is returned with a prefix ("error
      patching DeleteBackupRequest: bad", "error patching Backup: bad").

    [processRequest] below follows the tests on these points and the
    specification everywhere else; from the patch of the backup to
    Deleting onwards it is [Deletion.cascade]. *)

(** Go's read of a label: the value, the empty string when the key is
    missing. *)
Definition labelOf (req : DeleteBackupRequest) (key : string) : string :=
  default "" (req_Labels req !! key).

(** The other requests for the backup of [req]: those of its namespace
    that carry the backup's name label and are not [req] itself. *)
Definition siblingRequest (req r : DeleteBackupRequest) : bool :=
  bool_decide (req_Namespace r = req_Namespace req)
  && bool_decide (req_Labels r !! BackupNameLabel
                  = Some (GetValidName (req_BackupName req)))
  && negb (bool_decide (req_Name r = req_Name req)).

Definition deleteExistingDeletionRequests (req : DeleteBackupRequest)
  : M unit :=
  dbrs <- gets (fun w => List.filter (siblingRequest req) (requests w)) ;;
  forEach
    (fun dbr =>
       deleteRequest None (req_Namespace dbr) (req_Name dbr) ;;;
       ret [])
    dbrs ;;;
  ret tt.

(** The patch that marks the request InProgress: it carries the
    backup-name label when the request has none. *)
Definition markInProgress (req : DeleteBackupRequest) : RequestPatch :=
  mkPatch
    (if decide (labelOf req BackupNameLabel = "")
     then [(BackupNameLabel, GetValidName (req_BackupName req))] else [])
    (Some DeleteBackupRequestPhaseInProgress) [].

(** The backup-UID label is patched onto a request that has none. *)
Definition setUIDLabel (req : DeleteBackupRequest) (backup : Backup) : M unit :=
  if decide (labelOf req BackupUIDLabel = "") then
    patchRequest None req (uidPatch (bk_UID backup)) ;;;
    ret tt
  else ret tt.

Definition errorPatchingRequest (e : string) : string :=
  "error patching DeleteBackupRequest: " +:+ e.

Definition errorPatchingBackup (e : string) : string :=
  "error patching Backup: " +:+ e.

(** Modelled from the spec, in the order of steps that the controller
    tests record: [processRequest] of the backup deletion controller,
    whose source file is not among the sources.  The calls that can fail are those of
    [Deletion.Faults]: the two patches whose failure ends the run, the
    archive download, and the calls on snapshots, restores and the backup.
    What the controller does when another call fails (a fetch, a label
    patch, a patch to Processed, the listing or the run of item actions,
    the deletion of a request) is told by neither the specification nor
    the tests; [processRequest] describes the runs in which those calls
    succeed.  The test of a request without a backup name has no other
    request in its store, so the tests do not tell on which side of that
    validation the other requests are deleted; here it is after it. *)
Definition processRequest (v : View) (flt : Faults) (req : DeleteBackupRequest)
  : M (option string) :=
  let ns := req_Namespace req in
  let name := req_BackupName req in
  (* the backup name is required *)
  if decide (name = "") then
    patchRequest None req (processedPatch ["spec.backupName is required"]) ;;;
    ret None
  else
    (* only one deletion request per backup *)
    deleteExistingDeletionRequests req ;;;
    (* a backup that is still being made is not deleted *)
    if decide ((ns, name) ∈ tracker v) then
      patchRequest None req (processedPatch ["backup is still in progress"]) ;;;
      ret None
    else
      (* the backup *)
      found <- getBackup ns name ;;
      match found with
      | None =>
          patchRequest None req (processedPatch ["backup not found"]) ;;;
          ret None
      | Some backup =>
          (* its storage location, which must not be read-only *)
          loc <- getLocation v (bk_Namespace backup) (bk_StorageLocation backup) ;;
          match loc with
          | None =>
              patchRequest None req
                (processedPatch [locationNotFound (bk_StorageLocation backup)]) ;;;
              ret None
          | Some location =>
              if decide (bsl_AccessMode location
                         = BackupStorageLocationAccessModeReadOnly) then
                patchRequest None req
                  (processedPatch [locationReadOnly (bsl_Name location)]) ;;;
                ret None
              else
                (* the request is InProgress *)
                e <- patchRequest (failPatchInProgress flt) req
                       (markInProgress req) ;;
                match e with
                | Some err => ret (Some (errorPatchingRequest err))
                | None =>
                    setUIDLabel req backup ;;;
                    (* the backup is Deleting *)
                    e <- patchBackupPhase (failPatchDeleting flt) backup
                           BackupPhaseDeleting ;;
                    match e with
                    | Some err => ret (Some (errorPatchingBackup err))
                    | None => cascade v flt req backup
                    end
                end
          end
      end.

(** ** What a run amounts to *)

Definition siblings (req : DeleteBackupRequest) (w : World)
  : list DeleteBackupRequest :=
  List.filter (siblingRequest req) (requests w).

Definition siblingEvents (req : DeleteBackupRequest) (w : World)
  : list Event :=
  List.map (fun r => Call (DeleteRequest (req_Namespace r) (req_Name r)) None)
    (siblings req w).

Definition uidPatches (req : DeleteBackupRequest) (b : Backup)
  : list RequestPatch :=
  if decide (labelOf req BackupUIDLabel = "") then [uidPatch (bk_UID b)]
  else [].

Definition fetchEvents (req : DeleteBackupRequest) (b : Backup) : list Event :=
  [Call (GetBackup (req_Namespace req) (req_BackupName req)) None;
   Call (GetLocation (bk_Namespace b) (bk_StorageLocation b)) None].

(** The calls up to the patch of the backup to Deleting, when each of
    them goes through. *)
Definition startEvents (req : DeleteBackupRequest) (b : Backup) (w : World)
  : list Event :=
  siblingEvents req w ++ fetchEvents req b ++
  [requestCall req (markInProgress req) None] ++
  List.map (fun p => requestCall req p None) (uidPatches req b) ++
  [Call (PatchBackupPhase (bk_Namespace b) (bk_Name b) BackupPhaseDeleting) None].

Definition startWorld (req : DeleteBackupRequest) (b : Backup) (w : World)
  : World :=
  mkWorld
    (foldl (fun l q => patchedRequests req q l)
       (removeRequests (siblings req w) (requests w))
       (markInProgress req :: uidPatches req b))
    (List.map
       (fun x => if sameBackup (bk_Namespace b) (bk_Name b) x
                 then setBackupPhase BackupPhaseDeleting x else x)
       (backups w))
    (restores w) (storeBackups w) (storeRestores w) (providerSnapshots w)
    (trace w ++ startEvents req b w).

(** The ways through [processRequest]. *)
Inductive Route :=
| RouteMissingName
| RouteStillInProgress
| RouteBackupNotFound
| RouteLocationNotFound (b : Backup)
| RouteReadOnly (b : Backup) (loc : BackupStorageLocation)
| RouteInProgressPatchFailed (b : Backup) (e : string)
| RouteDeletingPatchFailed (b : Backup) (e : string)
| RouteCascade (b : Backup).

Definition routeOf (v : View) (flt : Faults) (req : DeleteBackupRequest)
    (w : World) : Route :=
  let ns := req_Namespace req in
  let name := req_BackupName req in
  if decide (name = "") then RouteMissingName
  else if decide ((ns, name) ∈ tracker v) then RouteStillInProgress
  else
    match List.find (sameBackup ns name) (backups w) with
    | None => RouteBackupNotFound
    | Some b =>
        match List.find
                (sameLocation (bk_Namespace b) (bk_StorageLocation b))
                (locations v) with
        | None => RouteLocationNotFound b
        | Some loc =>
            if decide (bsl_AccessMode loc
                       = BackupStorageLocationAccessModeReadOnly)
            then RouteReadOnly b loc
            else
              match failPatchInProgress flt with
              | Some e => RouteInProgressPatchFailed b e
              | None =>
                  match failPatchDeleting flt with
                  | Some e => RouteDeletingPatchFailed b e
                  | None => RouteCascade b
                  end
              end
        end
    end.

Definition routeResult (p : Route) : option string :=
  match p with
  | RouteInProgressPatchFailed _ e => Some (errorPatchingRequest e)
  | RouteDeletingPatchFailed _ e => Some (errorPatchingBackup e)
  | _ => None
  end.

(** The successful request patches of a route that ends before the
    cascade, in order. *)
Definition routePatches (req : DeleteBackupRequest) (p : Route)
  : list RequestPatch :=
  match p with
  | RouteMissingName => [processedPatch ["spec.backupName is required"]]
  | RouteStillInProgress => [processedPatch ["backup is still in progress"]]
  | RouteBackupNotFound => [processedPatch ["backup not found"]]
  | RouteLocationNotFound b =>
      [processedPatch [locationNotFound (bk_StorageLocation b)]]
  | RouteReadOnly b loc => [processedPatch [locationReadOnly (bsl_Name loc)]]
  | RouteInProgressPatchFailed _ _ => []
  | RouteDeletingPatchFailed b _ => markInProgress req :: uidPatches req b
  | RouteCascade b => markInProgress req :: uidPatches req b
  end.

(** The other requests that a route deletes. *)
Definition routeSiblings (req : DeleteBackupRequest) (w : World) (p : Route)
  : list DeleteBackupRequest :=
  match p with
  | RouteMissingName => []
  | _ => siblings req w
  end.

(** The calls of a run, by route. *)
Definition routeEvents (v : View) (flt : Faults) (req : DeleteBackupRequest)
    (w : World) (p : Route) : list Event :=
  match p with
  | RouteMissingName =>
      [requestCall req (processedPatch ["spec.backupName is required"]) None]
  | RouteStillInProgress =>
      siblingEvents req w ++
      [requestCall req (processedPatch ["backup is still in progress"]) None]
  | RouteBackupNotFound =>
      siblingEvents req w ++
      [Call (GetBackup (req_Namespace req) (req_BackupName req)) None;
       requestCall req (processedPatch ["backup not found"]) None]
  | RouteLocationNotFound b =>
      siblingEvents req w ++ fetchEvents req b ++
      [requestCall req
         (processedPatch [locationNotFound (bk_StorageLocation b)]) None]
  | RouteReadOnly b loc =>
      siblingEvents req w ++ fetchEvents req b ++
      [requestCall req (processedPatch [locationReadOnly (bsl_Name loc)]) None]
  | RouteInProgressPatchFailed b e =>
      siblingEvents req w ++ fetchEvents req b ++
      [requestCall req (markInProgress req) (Some e)]
  | RouteDeletingPatchFailed b e =>
      siblingEvents req w ++ fetchEvents req b ++
      [requestCall req (markInProgress req) None] ++
      List.map (fun p => requestCall req p None) (uidPatches req b) ++
      [Call (PatchBackupPhase (bk_Namespace b) (bk_Name b) BackupPhaseDeleting)
         (Some e)]
  | RouteCascade b =>
      startEvents req b w ++
      cascadeEvents v flt req b (List.filter (correlatedRestore b) (restores w))
  end.

Definition routeWorld (v : View) (flt : Faults) (req : DeleteBackupRequest)
    (w : World) (p : Route) : World :=
  match p with
  | RouteCascade b => cascadeWorld v flt req b (startWorld req b w)
  | _ =>
      mkWorld
        (foldl (fun l q => patchedRequests req q l)
           (removeRequests (routeSiblings req w p) (requests w))
           (routePatches req p))
        (backups w) (restores w) (storeBackups w) (storeRestores w)
        (providerSnapshots w) (trace w ++ routeEvents v flt req w p)
  end.


(** ** The scenarios of the tests that compare the calls in order *)

(** "existing deletion requests for the backup are deleted": the request
    of the setup, another request "bar" for the same backup and a request
    "bar-2" for another backup; the backup is reported active.  The test
    records three calls, the first being its own creation of "bar", and
    checks the second, the deletion of "bar". *)
Definition existing_bar : DeleteBackupRequest :=
  mkRequest "velero" "bar" {[ BackupNameLabel := "foo" ]} 0 "foo" PhaseUnset [].
Definition existing_bar2 : DeleteBackupRequest :=
  mkRequest "velero" "bar-2" {[ BackupNameLabel := "some-other-backup" ]} 0
    "some-other-backup" PhaseUnset [].
Definition existing_world : World :=
  worldOf [inProgress_req; existing_bar; existing_bar2] [] [].
Definition existing_expected : list Op :=
  [DeleteRequest "velero" "bar";
   PatchRequest "velero" "foo-abcde"
     (mkPatch [] (Some DeleteBackupRequestPhaseProcessed)
        ["backup is still in progress"])].

(** "patching to InProgress fails", "patching backup to Deleting fails":
    the request of the setup, which carries both labels; the backup
    "foo", whose UID is not set, in the location "default". *)
Definition default_backup : Backup :=
  mkBackup "velero" "foo" "" "default" BackupPhaseUnset.
Definition default_location : BackupStorageLocation :=
  mkLocation "velero" "default" BackupStorageLocationAccessModeReadWrite.
Definition readOnly_location : BackupStorageLocation :=
  mkLocation "velero" "default" BackupStorageLocationAccessModeReadOnly.
Definition default_view (locs : list BackupStorageLocation) : View :=
  mkView locs [] ∅ (fun _ => []) 0.
Definition default_world : World :=
  worldOf [inProgress_req] [default_backup] [].

Definition patchFails_expected : list Op :=
  [GetBackup "velero" "foo";
   PatchRequest "velero" "foo-abcde"
     (mkPatch [] (Some DeleteBackupRequestPhaseInProgress) [])].

Definition deletingFails_expected : list Op :=
  [GetBackup "velero" "foo";
   PatchRequest "velero" "foo-abcde"
     (mkPatch [] (Some DeleteBackupRequestPhaseInProgress) []);
   PatchBackupPhase "velero" "foo" BackupPhaseDeleting].

(** "unable to find backup storage location", "backup storage location is
    in read-only mode" *)
Definition locationNotFound_expected : list Op :=
  [GetBackup "velero" "foo";
   PatchRequest "velero" "foo-abcde"
     (mkPatch [] (Some DeleteBackupRequestPhaseProcessed)
        ["backup storage location default not found"])].

Definition readOnly_expected : list Op :=
  [GetBackup "velero" "foo";
   PatchRequest "velero" "foo-abcde"
     (mkPatch [] (Some DeleteBackupRequestPhaseProcessed)
        ["cannot delete backup because backup storage location default is currently in read-only mode"])].

(** The calls of a full deletion in the world of these two tests when
    no call fails, and the sequence that goes by the specification's
    order of steps. *)
Definition default_actions : list Op :=
  [GetBackup "velero" "foo";
   PatchRequest "velero" "foo-abcde"
     (mkPatch [] (Some DeleteBackupRequestPhaseInProgress) []);
   PatchBackupPhase "velero" "foo" BackupPhaseDeleting;
   DeleteBackup "velero" "foo";
   PatchRequest "velero" "foo-abcde"
     (mkPatch [] (Some DeleteBackupRequestPhaseProcessed) []);
   DeleteCollectionRequests "velero" "foo" ""].

Definition default_specified : list Op :=
  [PatchRequest "velero" "foo-abcde"
     (mkPatch [(BackupNameLabel, "foo")]
        (Some DeleteBackupRequestPhaseInProgress) []);
   GetBackup "velero" "foo";
   PatchRequest "velero" "foo-abcde" (mkPatch [(BackupUIDLabel, "")] None []);
   PatchBackupPhase "velero" "foo" BackupPhaseDeleting;
   DeleteBackup "velero" "foo";
   PatchRequest "velero" "foo-abcde"
     (mkPatch [] (Some DeleteBackupRequestPhaseProcessed) []);
   DeleteCollectionRequests "velero" "foo" ""].

(** "full delete, no errors" and the tests after it clear the labels of
    the request and compare the recorded calls with
    [velerotest.CompareActions], which is not among the sources; the
    lists they expect name the patch to InProgress before the fetch of
    the backup.  In the order of the tests above the calls are these, a
    permutation of the expected ones. *)
Definition fullDelete_actions (name : string) (label : string)
    (restores : list string) : list Op :=
  [GetBackup "velero" name;
   PatchRequest "velero" "foo-abcde"
     (mkPatch [(BackupNameLabel, label)]
        (Some DeleteBackupRequestPhaseInProgress) []);
   PatchRequest "velero" "foo-abcde" (mkPatch [(BackupUIDLabel, "uid")] None []);
   PatchBackupPhase "velero" name BackupPhaseDeleting] ++
  List.map (DeleteRestore "velero") restores ++
  [DeleteBackup "velero" name;
   PatchRequest "velero" "foo-abcde"
     (mkPatch [] (Some DeleteBackupRequestPhaseProcessed) []);
   DeleteCollectionRequests "velero" name "uid"].

End Controller.

(* ===================================================================== *)
(** * The factory's clients and setters ([pkg/client/factory.go])         *)
(* ===================================================================== *)
Module Clients.

Import Factory.

(** [SetBasename], [SetClientQPS], [SetClientBurst]: each overwrites one
    field of the factory. *)
Definition SetBasename (name : string) (f : factory) : factory :=
  mkFactory (kubeconfig f) (kubecontext f) (srcClusterHost f)
    (destClusterHost f) name (namespace f) (clientQPS f)
    (clientBurst f) (httpsProxy f) (httpProxy f).

Definition SetClientQPS (qps : Z) (f : factory) : factory :=
  mkFactory (kubeconfig f) (kubecontext f) (srcClusterHost f)
    (destClusterHost f) (baseName f) (namespace f) qps
    (clientBurst f) (httpsProxy f) (httpProxy f).

Definition SetClientBurst (burst : Z) (f : factory) : factory :=
  mkFactory (kubeconfig f) (kubecontext f) (srcClusterHost f)
    (destClusterHost f) (baseName f) (namespace f) (clientQPS f)
    burst (httpsProxy f) (httpProxy f).

Definition Namespace (f : factory) : string := namespace f.

Section Builders.

Variable URL : Type.
Variable url_Parse : string -> option URL * option string.
Variable Config : string -> string -> string -> Z -> Z -> result (restConfig URL).
Variable RESTConfigFromKubeConfig : string -> result (restConfig URL).
Variable kubernetes_NewForConfig : restConfig URL -> result unit.

(** The constructors of the other client packages: [clientset.NewForConfig]
    (the Velero client), [dynamic.NewForConfig] and [kbclient.New]. *)
Variable clientset_NewForConfig : restConfig URL -> result unit.
Variable dynamic_NewForConfig : restConfig URL -> result unit.
Variable kbclient_New : restConfig URL -> result unit.

(** [errors.WithStack] attaches a stack trace to an error and keeps its
    message. *)
Definition WithStack (e : string) : string := e.

(** The tail that the client methods share: hand the configuration to the
    package's constructor and wrap its error.  A client that was built is
    represented by the configuration it was built for, which is what tells
    the cluster it talks to. *)
Definition newForConfig (NewForConfig : restConfig URL -> result unit)
    (clientConfig : restConfig URL) : result (restConfig URL) :=
  match NewForConfig clientConfig with
  | Err e => Err (WithStack e)
  | Ok _ => Ok clientConfig
  end.

(** ** Clients of the local cluster *)

Definition Client (f : factory) : result (restConfig URL) :=
  match ClientConfig Config f with
  | Err e => Err e
  | Ok clientConfig => newForConfig clientset_NewForConfig clientConfig
  end.

Definition DynamicClient (f : factory) : result (restConfig URL) :=
  match ClientConfig Config f with
  | Err e => Err e
  | Ok clientConfig => newForConfig dynamic_NewForConfig clientConfig
  end.

(** [KubebuilderClient] returns the error of [kbclient.New] as it is. *)
Definition KubebuilderClient (f : factory) : result (restConfig URL) :=
  match ClientConfig Config f with
  | Err e => Err e
  | Ok clientConfig =>
      match kbclient_New clientConfig with
      | Err e => Err e
      | Ok _ => Ok clientConfig
      end
  end.

(** ** Clients of the source and of the destination cluster *)

Definition SourceClient (f : factory) (c : cluster)
  : factory * result (restConfig URL) :=
  match SourceClientConfig url_Parse Config RESTConfigFromKubeConfig
          kubernetes_NewForConfig f c with
  | (f, Err e) => (f, Err e)
  | (f, Ok clientConfig) => (f, newForConfig clientset_NewForConfig clientConfig)
  end.

Definition DestinationClient (f : factory) (c : cluster)
  : factory * result (restConfig URL) :=
  match DestinationClientConfig url_Parse Config RESTConfigFromKubeConfig
          kubernetes_NewForConfig f c with
  | (f, Err e) => (f, Err e)
  | (f, Ok clientConfig) => (f, newForConfig clientset_NewForConfig clientConfig)
  end.

Definition SourceKubeClient (f : factory) (c : cluster)
  : factory * result (restConfig URL) :=
  match SourceClientConfig url_Parse Config RESTConfigFromKubeConfig
          kubernetes_NewForConfig f c with
  | (f, Err e) => (f, Err e)
  | (f, Ok clientConfig) => (f, newForConfig kubernetes_NewForConfig clientConfig)
  end.

Definition DestinationKubeClient (f : factory) (c : cluster)
  : factory * result (restConfig URL) :=
  match DestinationClientConfig url_Parse Config RESTConfigFromKubeConfig
          kubernetes_NewForConfig f c with
  | (f, Err e) => (f, Err e)
  | (f, Ok clientConfig) => (f, newForConfig kubernetes_NewForConfig clientConfig)
  end.

Definition SourceDynamicClient (f : factory) (c : cluster)
  : factory * result (restConfig URL) :=
  match SourceClientConfig url_Parse Config RESTConfigFromKubeConfig
          kubernetes_NewForConfig f c with
  | (f, Err e) => (f, Err e)
  | (f, Ok clientConfig) => (f, newForConfig dynamic_NewForConfig clientConfig)
  end.

Definition DestinationDynamicClient (f : factory) (c : cluster)
  : factory * result (restConfig URL) :=
  match DestinationClientConfig url_Parse Config RESTConfigFromKubeConfig
          kubernetes_NewForConfig f c with
  | (f, Err e) => (f, Err e)
  | (f, Ok clientConfig) => (f, newForConfig dynamic_NewForConfig clientConfig)
  end.

(** ** The methods by role *)

Definition roleClient (r : role) (f : factory) (c : cluster)
  : factory * result (restConfig URL) :=
  match r with
  | Source => SourceClient f c
  | Destination => DestinationClient f c
  end.

Definition roleKubeClient (r : role) (f : factory) (c : cluster)
  : factory * result (restConfig URL) :=
  match r with
  | Source => SourceKubeClient f c
  | Destination => DestinationKubeClient f c
  end.

Definition roleDynamicClient (r : role) (f : factory) (c : cluster)
  : factory * result (restConfig URL) :=
  match r with
  | Source => SourceDynamicClient f c
  | Destination => DestinationDynamicClient f c
  end.

End Builders.

Arguments newForConfig {URL}.
Arguments Client {URL}.
Arguments DynamicClient {URL}.
Arguments KubebuilderClient {URL}.
Arguments SourceClient {URL}.
Arguments DestinationClient {URL}.
Arguments SourceKubeClient {URL}.
Arguments DestinationKubeClient {URL}.
Arguments SourceDynamicClient {URL}.
Arguments DestinationDynamicClient {URL}.
Arguments roleClient {URL}.
Arguments roleKubeClient {URL}.
Arguments roleDynamicClient {URL}.

(** The host that a role's call records on the factory, and the other
    role. *)
Definition roleHost (r : role) (f : factory) : string :=
  match r with
  | Source => SrcClusterHost f
  | Destination => DestClusterHost f
  end.

Definition otherRole (r : role) : role :=
  match r with
  | Source => Destination
  | Destination => Source
  end.

(** [f.srcClusterHost = h] or [f.destClusterHost = h], by role. *)
Definition setRoleHost (r : role) (h : string) (f : factory) : factory :=
  match r with
  | Source => set_srcClusterHost h f
  | Destination => set_destClusterHost h f
  end.

(** The cluster a call of a run sees, and the role it resolves. *)
Definition callCluster (k : call) : cluster :=
  match k with
  | CallSource c => c
  | CallDestination c => c
  end.

Definition callRole (k : call) : role :=
  match k with
  | CallSource _ => Source
  | CallDestination _ => Destination
  end.

(** A cluster with the secrets a role's call looks for and no others:
    the shared secret and the role's own. *)
Definition lookedFor (r : role) (s : Secret) : bool :=
  bool_decide (secret_Name s = remoteClusterSecretName)
  || bool_decide (secret_Name s = roleSecretName r).

Definition relevantSecrets (r : role) (c : cluster) : cluster :=
  fun ns =>
    match c ns with
    | Ok items => Ok (List.filter (lookedFor r) items)
    | Err e => Err e
    end.

(** ** More of the concrete environment *)

(** A local cluster that cannot be reached. *)
Definition exNoConfig (kc ctx base : string) (qps burst : Z)
  : result (restConfig string) :=
  Err "invalid configuration: no configuration has been provided".

Definition exNewClient (c : restConfig string) : result unit := Ok tt.

End Clients.

(* ===================================================================== *)
(** * The restic server ([pkg/cmd/cli/restic/server.go])                  *)
(* ===================================================================== *)
Module Restic.

Import Factory Clients.

Definition defaultMetricsAddress : string := ":8085".

(** [os.FileInfo], as far as [validatePodVolumesHostPath] looks at it. *)
Record FileInfo := mkFileInfo {
  file_Name : string;
  file_IsDir : bool;
}.

(** A [v1.Pod]: its UID, namespace, name and annotations. *)
Record Pod := mkPod {
  pod_UID : string;
  pod_Namespace : string;
  pod_Name : string;
  pod_Annotations : gmap string string;
}.

(** [v1.MirrorPodAnnotationKey] *)
Definition MirrorPodAnnotationKey : string := "kubernetes.io/config.mirror".

(** A debug line of the logger, with its fields "pod" and "path". *)
Record LogLine := mkLogLine {
  log_pod : string;
  log_path : string;
  log_message : string;
}.

Definition podVolumesHostPath : string := "/host_pods/".

Definition unexpectedStructure : string :=
  "unexpected directory structure for host-pods volume, ensure that the host-pods volume corresponds to the pods subdirectory of the kubelet root directory".

(** [errors.Wrap(err, message)]: the message, a colon, the cause. *)
Definition errors_Wrap (e message : string) : string :=
  message +:+ ": " +:+ e.

Section Server.

Variable URL : Type.
Variable url_Parse : string -> option URL * option string.
Variable Config : string -> string -> string -> Z -> Z -> result (restConfig URL).
Variable RESTConfigFromKubeConfig : string -> result (restConfig URL).
Variable kubernetes_NewForConfig : restConfig URL -> result unit.
Variable clientset_NewForConfig : restConfig URL -> result unit.

(** [ctrl.NewManager]. *)
Variable ctrl_NewManager : restConfig URL -> result unit.

(** The node the server runs on: [s.fileSystem.ReadDir], the environment
    variable [NODE_NAME], and what a kube client answers to
    [CoreV1().Pods(namespace).List] with a field selector. *)
Variable ReadDir : string -> result (list FileInfo).
Variable NODE_NAME : string.
Variable ListPods : restConfig URL -> string -> string -> result (list Pod).

(** [type resticServer struct], with the clients, the manager, the
    metrics address and the namespace; the informers, the logger, the
    context and the metrics, which [newResticServer] derives from these
    without a way to fail, are left out. *)
Record resticServer := mkServer {
  srcKubeClient : restConfig URL;
  destKubeClient : restConfig URL;
  veleroClient : restConfig URL;
  mgr : restConfig URL;
  metricsAddress : string;
  server_namespace : string;
}.

(** The first loop: the set of the names of the directories. *)
Definition dirNames (files : list FileInfo) : gset string :=
  foldl (fun dirs f => if file_IsDir f then {[ file_Name f ]} ∪ dirs else dirs)
    ∅ files.

(** The directory a pod's volumes are looked for in: the hash of the
    mirror annotation when the pod has one, else the pod's UID. *)
Definition podDirName (pod : Pod) : string :=
  match pod_Annotations pod !! MirrorPodAnnotationKey with
  | Some hash => hash
  | None => pod_UID pod
  end.

Definition missingVolumes (pod : Pod) : LogLine :=
  mkLogLine (pod_Namespace pod +:+ "/" +:+ pod_Name pod)
    (podVolumesHostPath +:+ podDirName pod)
    "could not find volumes for pod in host path".

(** The body of the second loop, on the flag [valid] and the log. *)
Definition checkPod (dirs : gset string) (st : bool * list LogLine) (pod : Pod)
  : bool * list LogLine :=
  let dirName := podDirName pod in
  if decide (dirName ∈ dirs) then st
  else (false, snd st ++ [missingVolumes pod]).

Definition runningOnNode : string :=
  "spec.nodeName=" +:+ NODE_NAME +:+ ",status.phase=Running".

(** [validatePodVolumesHostPath]: the lines logged and the error
    returned ([None] is nil). *)
Definition validatePodVolumesHostPath (s : resticServer)
  : list LogLine * option string :=
  match ReadDir podVolumesHostPath with
  | Err e => ([], Some (errors_Wrap e "could not read pod volumes host path"))
  | Ok files =>
      let dirs := dirNames files in
      match ListPods (srcKubeClient s) "" runningOnNode with
      | Err e => ([], Some (WithStack e))
      | Ok pods =>
          let '(valid, log) := foldl (checkPod dirs) (true, []) pods in
          if valid then (log, None) else (log, Some unexpectedStructure)
      end
  end.

(** [newResticServer]: the factory as the calls leave it, the lines
    logged, and the server or the error.  [cs] and [cd] are the local
    cluster at the time of the source and of the destination call. *)
Definition newResticServer (f : factory) (cs cd : cluster)
    (metricAddress : string)
  : factory * list LogLine * result resticServer :=
  match SourceKubeClient url_Parse Config RESTConfigFromKubeConfig
          kubernetes_NewForConfig f cs with
  | (f, Err e) => (f, [], Err e)
  | (f, Ok srcKubeClient) =>
  match DestinationKubeClient url_Parse Config RESTConfigFromKubeConfig
          kubernetes_NewForConfig f cd with
  | (f, Err e) => (f, [], Err e)
  | (f, Ok destKubeClient) =>
  match Client Config clientset_NewForConfig f with
  | Err e => (f, [], Err e)
  | Ok veleroClient =>
  match ClientConfig Config f with
  | Err e => (f, [], Err e)
  | Ok clientConfig =>
  match ctrl_NewManager clientConfig with
  | Err e => (f, [], Err e)
  | Ok _ =>
      let s := mkServer srcKubeClient destKubeClient veleroClient clientConfig
                 metricAddress (Namespace f) in
      match validatePodVolumesHostPath s with
      | (log, Some err) => (f, log, Err err)
      | (log, None) => (f, log, Ok s)
      end
  end end end end end.

(** The [Run] of [NewServerCommand], up to the server's start: the base
    name becomes "<parent>-<command>", the command being "server". *)
Definition NewServerCommand_Run (parentName : string) (f : factory)
    (cs cd : cluster)
  : factory * list LogLine * result resticServer :=
  let f := SetBasename (parentName +:+ "-" +:+ "server") f in
  newResticServer f cs cd defaultMetricsAddress.

(** Whether a pod's directory is among the listed files. *)
Definition hasVolumes (files : list FileInfo) (pod : Pod) : bool :=
  bool_decide (podDirName pod ∈ dirNames files).

End Server.

Arguments mkServer {URL}.
Arguments srcKubeClient {URL}.
Arguments destKubeClient {URL}.
Arguments veleroClient {URL}.
Arguments mgr {URL}.
Arguments metricsAddress {URL}.
Arguments server_namespace {URL}.
Arguments validatePodVolumesHostPath {URL}.
Arguments newResticServer {URL}.
Arguments NewServerCommand_Run {URL}.

(** ** A node, to run the definitions on *)

Definition exFiles : list FileInfo :=
  [mkFileInfo "uid-1" true; mkFileInfo "hash-2" true; mkFileInfo "uid-3" false].

Definition exReadDir (files : list FileInfo) (path : string)
  : result (list FileInfo) :=
  if decide (path = "/host_pods/") then Ok files
  else Err "no such file or directory".

Definition exPod1 : Pod := mkPod "uid-1" "default" "web" ∅.
Definition exPod2 : Pod :=
  mkPod "uid-2" "kube-system" "etcd" {[ MirrorPodAnnotationKey := "hash-2" ]}.
Definition exPod3 : Pod := mkPod "uid-3" "default" "db" ∅.

(** Pods are found on the remote cluster only. *)
Definition exListPods (pods : list Pod) (client : restConfig string)
    (ns selector : string) : result (list Pod) :=
  if decide (Host client = "https://remote.example") then Ok pods
  else Err "connection refused".

Definition exManager (c : restConfig string) : result unit := Ok tt.

(** The server that the source and destination calls give on the
    concrete environment, when both resolve the token secret. *)
Definition exRemote : restConfig string :=
  mkConfig "https://remote.example" "token" true 1000 100
    [proxyWrapper exParse "http://proxy-a"].

Definition exLocal : restConfig string :=
  mkConfig "https://local.example" "" false 0 0 [].

Definition exServer : resticServer string :=
  mkServer exRemote exRemote exLocal exLocal defaultMetricsAddress "velero".

(** The factory after those two calls. *)
Definition exFinal : factory :=
  set_destClusterHost "https://remote.example"
    (set_srcClusterHost "https://remote.example"
       (set_httpsProxy "http://proxy-a" exFactory)).

(** The same when the source resolves the token secret, whose proxy is
    "http://proxy-a", and the destination the kubeconfig secret, whose
    proxy is "http://proxy-b". *)
Definition exFromKubeconfig : restConfig string :=
  mkConfig "https://from-kubeconfig.example" "" false 0 0
    [proxyWrapper exParse "http://proxy-a"].

Definition exTwoClusters : resticServer string :=
  mkServer exRemote exFromKubeconfig exLocal exLocal defaultMetricsAddress
    "velero".

Definition exTwoClustersFinal : factory :=
  set_destClusterHost "https://other.example"
    (set_srcClusterHost "https://remote.example"
       (set_httpsProxy "http://proxy-a" exFactory)).

End Restic.



(* ===================================================================== *)
(** * Properties of the client factory                                    *)
(* ===================================================================== *)
Module FactoryFacts.

Import Factory.

Section Facts.

Context {URL : Type}.
Variable url_Parse : string -> option URL * option string.
Variable Config : string -> string -> string -> Z -> Z -> result (restConfig URL).
Variable RESTConfigFromKubeConfig : string -> result (restConfig URL).
Variable kubernetes_NewForConfig : restConfig URL -> result unit.

Local Abbreviation KubeClient := (KubeClient Config kubernetes_NewForConfig).
Local Abbreviation ClientConfig := (ClientConfig Config).
Local Abbreviation credsFromSecret :=
  (serviceAcctCredsFromSecret Config kubernetes_NewForConfig).
Local Abbreviation SourceClientConfig :=
  (SourceClientConfig url_Parse Config RESTConfigFromKubeConfig
     kubernetes_NewForConfig).
Local Abbreviation DestinationClientConfig :=
  (DestinationClientConfig url_Parse Config RESTConfigFromKubeConfig
     kubernetes_NewForConfig).
Local Abbreviation roleClientConfig :=
  (roleClientConfig url_Parse Config RESTConfigFromKubeConfig
     kubernetes_NewForConfig).
Local Abbreviation configFromCreds :=
  (configFromCreds url_Parse RESTConfigFromKubeConfig).
Local Abbreviation withSAToken := (restConfigWithSAToken url_Parse).
Local Abbreviation withKubeConfig :=
  (restConfigWithKubeConfig url_Parse RESTConfigFromKubeConfig).
Local Abbreviation run :=
  (run url_Parse Config RESTConfigFromKubeConfig kubernetes_NewForConfig).
Local Abbreviation step :=
  (step url_Parse Config RESTConfigFromKubeConfig kubernetes_NewForConfig).

(** *** Settings and the retained proxy *)

Lemma sameSettings_refl f : sameSettings f f.
Proof. by repeat split. Qed.

Lemma sameSettings_trans f g h :
  sameSettings f g -> sameSettings g h -> sameSettings f h.
Proof. unfold sameSettings. intuition congruence. Qed.

Lemma sameSettings_retainProxy p f : sameSettings f (retainProxy p f).
Proof.
  unfold retainProxy. repeat case_decide; by repeat split.
Qed.

Lemma KubeClient_sameSettings f g :
  sameSettings f g -> KubeClient g = KubeClient f.
Proof.
  intros (H1 & H2 & H3 & _ & H5 & H6).
  unfold Factory.KubeClient, Factory.ClientConfig.
  by rewrite H1, H2, H3, H5, H6.
Qed.

Lemma ClientConfig_sameSettings f g :
  sameSettings f g -> ClientConfig g = ClientConfig f.
Proof.
  intros (H1 & H2 & H3 & _ & H5 & H6). unfold Factory.ClientConfig.
  by rewrite H1, H2, H3, H5, H6.
Qed.

Lemma httpsProxy_retainProxy p f :
  httpsProxy f <> "" -> retainProxy p f = f.
Proof. intros H. unfold retainProxy. by case_decide. Qed.

(** *** One secret read *)

Lemma credsFromItems_find f items name :
  credsFromItems f items name =
  match findSecret items name with
  | Some s => (retainProxy (creds_httpsProxy (credsOfSecret s)) f,
               Ok (credsOfSecret s))
  | None => (f, Ok noCreds)
  end.
Proof.
  induction items as [|item rest IH]; simpl; [done|].
  unfold findSecret in *. simpl.
  case_decide as Hn.
  - rewrite bool_decide_eq_true_2 by done. done.
  - rewrite bool_decide_eq_false_2 by done. apply IH.
Qed.

Lemma credsFromSecret_read f c name items :
  KubeClient f = Ok tt -> c (namespace f) = Ok items ->
  credsFromSecret f c name (namespace f) =
  match findSecret items name with
  | Some s => (retainProxy (creds_httpsProxy (credsOfSecret s)) f,
               Ok (credsOfSecret s))
  | None => (f, Ok noCreds)
  end.
Proof.
  intros Hk Hc. unfold serviceAcctCredsFromSecret. rewrite Hk, Hc.
  apply credsFromItems_find.
Qed.

Lemma credsFromItems_settings f items name :
  sameSettings f (fst (credsFromItems f items name)).
Proof.
  rewrite credsFromItems_find. destruct (findSecret items name); simpl.
  - apply sameSettings_retainProxy.
  - apply sameSettings_refl.
Qed.

Lemma credsFromSecret_settings f c name ns :
  sameSettings f (fst (credsFromSecret f c name ns)).
Proof.
  unfold serviceAcctCredsFromSecret.
  destruct (KubeClient f); [|apply sameSettings_refl].
  destruct (c ns); [|apply sameSettings_refl].
  apply credsFromItems_settings.
Qed.

Lemma credsFromItems_sticky f items name :
  httpsProxy f <> "" -> fst (credsFromItems f items name) = f.
Proof.
  intros H. rewrite credsFromItems_find.
  destruct (findSecret items name); simpl; [|done].
  by apply httpsProxy_retainProxy.
Qed.

Lemma credsFromSecret_sticky f c name ns :
  httpsProxy f <> "" -> fst (credsFromSecret f c name ns) = f.
Proof.
  intros H. unfold serviceAcctCredsFromSecret.
  destruct (KubeClient f); [|done]. destruct (c ns); [|done].
  by apply credsFromItems_sticky.
Qed.

(** *** A whole resolution *)

Lemma retainProxy_noCreds s f :
  credsOfSecret s = noCreds ->
  retainProxy (creds_httpsProxy (credsOfSecret s)) f = f.
Proof.
  intros ->. unfold retainProxy. simpl. by repeat case_decide.
Qed.

Lemma namespace_retainProxy p f : namespace (retainProxy p f) = namespace f.
Proof. unfold retainProxy. by repeat case_decide. Qed.

(** The shared script: read the shared secret, then, if it gave nothing,
    the role's own secret. *)
Ltac resolve_tac Hk Hc :=
  let s := fresh "s" in
  let E := fresh "E" in
  unfold resolveCreds, usableCreds;
  rewrite (credsFromSecret_read _ _ _ _ Hk Hc);
  destruct (findSecret _ remoteClusterSecretName) as [s|];
  [ destruct (decide (credsOfSecret s = noCreds)) as [E|E];
    [ rewrite (retainProxy_noCreds _ _ E) | ]
  | ];
  cbv beta iota;
  try rewrite (decide_True (P := noCreds = noCreds)) by done;
  try (rewrite (credsFromSecret_read _ _ _ _ Hk Hc);
       match goal with
       | |- context [findSecret ?i ?n] =>
           let s' := fresh "s" in
           let E' := fresh "E" in
           destruct (findSecret i n) as [s'|];
           [ destruct (decide (credsOfSecret s' = noCreds)) as [E'|E'];
             [ rewrite (retainProxy_noCreds _ _ E') | ]
           | ];
           cbv beta iota;
           try rewrite (decide_True (P := noCreds = noCreds)) by done
       end);
  try done;
  by repeat case_decide.

Lemma SourceClientConfig_resolves f c items :
  KubeClient f = Ok tt -> c (namespace f) = Ok items ->
  snd (SourceClientConfig f c) =
  match resolveCreds items srcClusterSecretName with
  | Some cr => configFromCreds (fst (SourceClientConfig f c)) cr
  | None => ClientConfig f
  end.
Proof.
  intros Hk Hc. unfold Factory.SourceClientConfig, Factory.configFromCreds.
  resolve_tac Hk Hc.
Qed.

Lemma DestinationClientConfig_resolves f c items :
  KubeClient f = Ok tt -> c (namespace f) = Ok items ->
  snd (DestinationClientConfig f c) =
  match resolveCreds items destClusterSecretName with
  | Some cr => configFromCreds (fst (DestinationClientConfig f c)) cr
  | None => ClientConfig f
  end.
Proof.
  intros Hk Hc.
  unfold Factory.DestinationClientConfig, Factory.configFromCreds.
  resolve_tac Hk Hc.
Qed.

(** *** What a call leaves of the factory *)

Lemma keeps_refl f : keeps f f.
Proof. split; [apply sameSettings_refl | done]. Qed.

Lemma keeps_trans f g h : keeps f g -> keeps g h -> keeps f h.
Proof.
  intros [S1 P1] [S2 P2]. split; [by eapply sameSettings_trans|].
  intros Hf. rewrite P2; [by apply P1 | by rewrite P1].
Qed.

Lemma keeps_credsFromSecret f c name ns :
  keeps f (fst (credsFromSecret f c name ns)).
Proof.
  split; [apply credsFromSecret_settings|].
  intros H. by rewrite credsFromSecret_sticky.
Qed.

Lemma keeps_srcClusterHost h f : keeps f (set_srcClusterHost h f).
Proof. split; [by repeat split | done]. Qed.

Lemma keeps_destClusterHost h f : keeps f (set_destClusterHost h f).
Proof. split; [by repeat split | done]. Qed.

Ltac keeps_tac f c secretName :=
  pose proof (keeps_credsFromSecret f c remoteClusterSecretName (namespace f))
    as K1;
  destruct (credsFromSecret f c remoteClusterSecretName (namespace f))
    as [f1 [cr1|e1]]; simpl in K1; [|done];
  case_decide;
  [ pose proof (keeps_credsFromSecret f1 c secretName (namespace f1)) as K2;
    destruct (credsFromSecret f1 c secretName (namespace f1))
      as [f2 [cr2|e2]]; simpl in K2;
    [ repeat case_decide; simpl;
      eauto using keeps_trans, keeps_srcClusterHost, keeps_destClusterHost
    | simpl; eauto using keeps_trans ]
  | repeat case_decide; simpl;
    eauto using keeps_trans, keeps_srcClusterHost, keeps_destClusterHost ].

Lemma keeps_SourceClientConfig f c : keeps f (fst (SourceClientConfig f c)).
Proof.
  unfold Factory.SourceClientConfig. keeps_tac f c srcClusterSecretName.
Qed.

Lemma keeps_DestinationClientConfig f c :
  keeps f (fst (DestinationClientConfig f c)).
Proof.
  unfold Factory.DestinationClientConfig.
  keeps_tac f c destClusterSecretName.
Qed.

Lemma keeps_role r f c : keeps f (fst (roleClientConfig r f c)).
Proof.
  destruct r; [apply keeps_SourceClientConfig
              | apply keeps_DestinationClientConfig].
Qed.

Lemma keeps_run f ks : keeps f (run f ks).
Proof.
  revert f. induction ks as [|k ks IH]; intros f; [apply keeps_refl|].
  simpl. eapply keeps_trans; [|apply IH].
  destruct k; [apply keeps_SourceClientConfig
              | apply keeps_DestinationClientConfig].
Qed.

Lemma role_resolves r f c items :
  KubeClient f = Ok tt -> c (namespace f) = Ok items ->
  snd (roleClientConfig r f c) =
  match resolveCreds items (roleSecretName r) with
  | Some cr => configFromCreds (fst (roleClientConfig r f c)) cr
  | None => ClientConfig f
  end.
Proof.
  destruct r; [apply SourceClientConfig_resolves
              | apply DestinationClientConfig_resolves].
Qed.

(** *** The two shapes of a configuration *)

Lemma withSAToken_fields f cr :
  exists cfg, withSAToken f cr = Ok cfg /\ Host cfg = host cr /\
    BearerToken cfg = saToken cr /\ Insecure cfg = true /\
    WrapTransport cfg =
      if decide (httpsProxy f = "") then []
      else [proxyWrapper url_Parse (httpsProxy f)].
Proof.
  unfold restConfigWithSAToken. case_decide; eexists; by repeat split.
Qed.

Lemma withKubeConfig_fields f cr cfg0 :
  RESTConfigFromKubeConfig (creds_kubeconfig cr) = Ok cfg0 ->
  exists cfg, withKubeConfig f cr = Ok cfg /\ Host cfg = Host cfg0 /\
    BearerToken cfg = BearerToken cfg0 /\ Insecure cfg = Insecure cfg0 /\
    Burst cfg = Burst cfg0 /\ QPS cfg = QPS cfg0 /\
    WrapTransport cfg =
      if decide (httpsProxy f = "") then WrapTransport cfg0
      else WrapTransport cfg0 ++ [proxyWrapper url_Parse (httpsProxy f)].
Proof.
  intros H. unfold restConfigWithKubeConfig. rewrite H.
  case_decide; eexists; by repeat split.
Qed.

Lemma buildTransport_proxy config proxy rt :
  Proxy (buildTransport (setTransportProxy url_Parse config proxy) rt)
  = Some (fst (url_Parse proxy)).
Proof.
  unfold buildTransport, setTransportProxy, Wrap. simpl.
  by rewrite foldl_app.
Qed.

Lemma isOk_configFromCreds f g cr :
  isOk (configFromCreds f cr) = isOk (configFromCreds g cr).
Proof.
  unfold Factory.configFromCreds, restConfigWithSAToken,
    restConfigWithKubeConfig.
  destruct (RESTConfigFromKubeConfig (creds_kubeconfig cr));
    by repeat case_decide.
Qed.

(** *** The claims about the factory *)

(** C5. Resolution order of [SourceClientConfig] and
    [DestinationClientConfig]: whatever calls were made before, a call
    made while the local cluster can be reached and lists [items] in the
    factory's namespace uses the credentials of the shared secret
    "remotecluster" when that secret is listed with a non-empty field,
    else those of the role's own secret ("srccluster", "destcluster")
    when that one is listed with a non-empty field, else returns the
    local cluster configuration.  The credentials come from the secrets
    listed at the time of the call, never from an earlier call. *)
Theorem client_config_resolution (r : role) (f : factory) (ks : list call)
    (c : cluster) (items : list Secret) :
  KubeClient f = Ok tt ->
  c (namespace f) = Ok items ->
  snd (roleClientConfig r (run f ks) c) =
  match usableCreds items remoteClusterSecretName with
  | Some cr => configFromCreds (fst (roleClientConfig r (run f ks) c)) cr
  | None =>
      match usableCreds items (roleSecretName r) with
      | Some cr => configFromCreds (fst (roleClientConfig r (run f ks) c)) cr
      | None => ClientConfig f
      end
  end.
Proof.
  intros Hk Hc.
  destruct (keeps_run f ks) as [S _].
  pose proof S as (_ & _ & _ & Hns & _).
  rewrite (role_resolves r (run f ks) c items).
  - unfold resolveCreds.
    destruct (usableCreds items remoteClusterSecretName); [done|].
    destruct (usableCreds items (roleSecretName r)); [done|].
    by apply ClientConfig_sameSettings.
  - by rewrite (KubeClient_sameSettings _ _ S).
  - by rewrite <- Hns.
Qed.

(** C6. Shapes of secret credentials: when resolution finds credentials
    with a non-empty kubeconfig, the configuration is the one parsed from
    the kubeconfig, its host, bearer token and TLS-insecure setting
    untouched; otherwise it is built from the host and the
    service-account token, with TLS verification turned off. *)
Theorem credential_shapes (r : role) (f : factory) (c : cluster)
    (items : list Secret) (cr : serviceAcctCreds) :
  KubeClient f = Ok tt ->
  c (namespace f) = Ok items ->
  resolveCreds items (roleSecretName r) = Some cr ->
  (creds_kubeconfig cr <> "" ->
   forall cfg0, RESTConfigFromKubeConfig (creds_kubeconfig cr) = Ok cfg0 ->
     exists cfg, snd (roleClientConfig r f c) = Ok cfg /\
       Host cfg = Host cfg0 /\ BearerToken cfg = BearerToken cfg0 /\
       Insecure cfg = Insecure cfg0) /\
  (creds_kubeconfig cr = "" ->
   exists cfg, snd (roleClientConfig r f c) = Ok cfg /\
     Host cfg = host cr /\ BearerToken cfg = saToken cr /\
     Insecure cfg = true).
Proof.
  intros Hk Hc Hr. rewrite (role_resolves r f c items Hk Hc), Hr.
  unfold Factory.configFromCreds. split.
  - intros Hne cfg0 H0. rewrite decide_False by done.
    destruct (withKubeConfig_fields (fst (roleClientConfig r f c)) cr cfg0 H0)
      as (cfg & -> & ? & ? & ? & _).
    by exists cfg.
  - intros He. rewrite decide_True by done.
    destruct (withSAToken_fields (fst (roleClientConfig r f c)) cr)
      as (cfg & -> & ? & ? & ? & _).
    by exists cfg.
Qed.

(** C9. A proxy URL is never a reason for an error: with any proxy
    string, and whatever [url.Parse] makes of it, the token shape is
    always built, the kubeconfig shape fails exactly when the kubeconfig
    does not parse, and the wrapper installed by [setTransportProxy]
    sets the transport's proxy to whatever URL the parser handed back,
    its error dropped. *)
Theorem malformed_proxy_not_rejected (f : factory) (creds : serviceAcctCreds)
    (proxy : string) :
  (exists cfg, withSAToken (set_httpsProxy proxy f) creds = Ok cfg) /\
  (forall e, withKubeConfig (set_httpsProxy proxy f) creds = Err e <->
             RESTConfigFromKubeConfig (creds_kubeconfig creds) = Err e) /\
  (forall g, isOk (configFromCreds (set_httpsProxy proxy f) creds)
             = isOk (configFromCreds g creds)) /\
  (forall config rt,
      Proxy (buildTransport (setTransportProxy url_Parse config proxy) rt)
      = Some (fst (url_Parse proxy))).
Proof.
  repeat split.
  - destruct (withSAToken_fields (set_httpsProxy proxy f) creds)
      as (cfg & H & _). by exists cfg.
  - unfold restConfigWithKubeConfig.
    destruct (RESTConfigFromKubeConfig (creds_kubeconfig creds));
      by repeat case_decide.
  - unfold restConfigWithKubeConfig.
    by destruct (RESTConfigFromKubeConfig (creds_kubeconfig creds)).
  - intros g. apply isOk_configFromCreds.
  - intros config rt. apply buildTransport_proxy.
Qed.

(** C10. The https proxy is sticky: a factory whose proxy is set (by the
    [--httpsproxy] flag or by an earlier secret read) keeps it through
    every later secret read and every later call, whatever proxies the
    secrets carry; and every configuration that a later source or
    destination call builds from secret credentials ends its transport
    wrappers with the wrapper for that retained proxy. *)
Theorem https_proxy_sticky (f : factory) (ks : list call) :
  httpsProxy f <> "" ->
  httpsProxy (run f ks) = httpsProxy f /\
  (forall c name ns,
      httpsProxy (fst (credsFromSecret (run f ks) c name ns)) = httpsProxy f) /\
  (forall r c items cr cfg,
      KubeClient f = Ok tt ->
      c (namespace f) = Ok items ->
      resolveCreds items (roleSecretName r) = Some cr ->
      snd (roleClientConfig r (run f ks) c) = Ok cfg ->
      exists ws,
        WrapTransport cfg = ws ++ [proxyWrapper url_Parse (httpsProxy f)] /\
        forall rt, Proxy (buildTransport cfg rt)
                   = Some (fst (url_Parse (httpsProxy f)))).
Proof.
  intros Hp.
  destruct (keeps_run f ks) as [S P]. specialize (P Hp).
  split; [done|]. split.
  - intros c name ns.
    destruct (keeps_credsFromSecret (run f ks) c name ns) as [_ P'].
    rewrite P'; [done | by rewrite P].
  - intros r c items cr cfg Hk Hc Hr Hcfg.
    pose proof S as (_ & _ & _ & Hns & _).
    rewrite (role_resolves r (run f ks) c items) in Hcfg;
      [ | by rewrite (KubeClient_sameSettings _ _ S) | by rewrite <- Hns ].
    rewrite Hr in Hcfg.
    destruct (keeps_role r (run f ks) c) as [_ P2].
    assert (Hf : httpsProxy (fst (roleClientConfig r (run f ks) c))
                 = httpsProxy f) by (rewrite P2; [done | by rewrite P]).
    set (f' := fst (roleClientConfig r (run f ks) c)) in *.
    unfold Factory.configFromCreds in Hcfg.
    assert (Hw : exists ws,
               WrapTransport cfg = ws ++ [proxyWrapper url_Parse (httpsProxy f)]).
    { case_decide.
      - destruct (withSAToken_fields f' cr) as (cfg' & E & _ & _ & _ & W).
        rewrite E in Hcfg. injection Hcfg as <-.
        rewrite Hf, decide_False in W by done. by exists [].
      - destruct (RESTConfigFromKubeConfig (creds_kubeconfig cr))
          as [cfg0|e] eqn:E0.
        + destruct (withKubeConfig_fields f' cr cfg0 E0)
            as (cfg' & E & _ & _ & _ & _ & _ & W).
          rewrite E in Hcfg. injection Hcfg as <-.
          rewrite Hf, decide_False in W by done. by eexists.
        + unfold restConfigWithKubeConfig in Hcfg. by rewrite E0 in Hcfg. }
    destruct Hw as [ws Hw]. exists ws. split; [done|].
    intros rt. unfold buildTransport. rewrite Hw, foldl_app. done.
Qed.

Lemma first_read_sets_proxy f c name items s :
  httpsProxy f = "" ->
  KubeClient f = Ok tt -> c (namespace f) = Ok items ->
  findSecret items name = Some s ->
  dataField s "https_proxy" <> "" ->
  httpsProxy (fst (credsFromSecret f c name (namespace f)))
  = dataField s "https_proxy".
Proof.
  intros Hp Hk Hc Hs Hne.
  rewrite (credsFromSecret_read f c name items Hk Hc), Hs. simpl.
  unfold retainProxy. by rewrite !decide_True, decide_False by done.
Qed.

End Facts.

(** *** The theorems at work on the concrete environment *)

(** An earlier destination call read a kubeconfig secret carrying
    "http://proxy-b"; the source call that follows sees a cluster whose
    shared secret holds a host and a token. *)
Lemma client_config_resolution_witness :
  KubeClient exConfig exNewForConfig exFactory = Ok tt /\
  exCluster [exTokenSecret "remotecluster"] (namespace exFactory)
  = Ok [exTokenSecret "remotecluster"] /\
  snd (roleClientConfig exParse exConfig exFromKubeConfig exNewForConfig Source
         (run exParse exConfig exFromKubeConfig exNewForConfig exFactory
            [CallDestination (exCluster [exKubeconfigSecret "destcluster"])])
         (exCluster [exTokenSecret "remotecluster"]))
  = Ok (mkConfig "https://remote.example" "token" true 1000 100
          [proxyWrapper exParse "http://proxy-b"]).
Proof.
  split; [reflexivity|]. split; [reflexivity|].
  exact (client_config_resolution exParse exConfig exFromKubeConfig
           exNewForConfig Source exFactory
           [CallDestination (exCluster [exKubeconfigSecret "destcluster"])]
           (exCluster [exTokenSecret "remotecluster"])
           [exTokenSecret "remotecluster"] eq_refl eq_refl).
Defined.

Lemma credential_shapes_witness :
  KubeClient exConfig exNewForConfig exFactory = Ok tt /\
  exCluster [exKubeconfigSecret "destcluster"] (namespace exFactory)
  = Ok [exKubeconfigSecret "destcluster"] /\
  resolveCreds [exKubeconfigSecret "destcluster"] (roleSecretName Destination)
  = Some (credsOfSecret (exKubeconfigSecret "destcluster")) /\
  exists cfg,
    snd (roleClientConfig exParse exConfig exFromKubeConfig exNewForConfig
           Destination exFactory (exCluster [exKubeconfigSecret "destcluster"]))
    = Ok cfg /\
    Host cfg = "https://from-kubeconfig.example" /\ BearerToken cfg = "" /\
    Insecure cfg = false.
Proof.
  split; [reflexivity|]. split; [reflexivity|]. split; [reflexivity|].
  refine (proj1 (credential_shapes exParse exConfig exFromKubeConfig
                   exNewForConfig Destination exFactory
                   (exCluster [exKubeconfigSecret "destcluster"])
                   [exKubeconfigSecret "destcluster"]
                   (credsOfSecret (exKubeconfigSecret "destcluster"))
                   eq_refl eq_refl eq_refl) _ _ eq_refl).
  discriminate.
Defined.

Lemma https_proxy_sticky_witness :
  httpsProxy (flag_httpsproxy "http://flag-proxy" exFactory) <> "" /\
  httpsProxy
    (run exParse exConfig exFromKubeConfig exNewForConfig
       (flag_httpsproxy "http://flag-proxy" exFactory)
       [CallSource (exCluster [exTokenSecret "srccluster"]);
        CallDestination (exCluster [exKubeconfigSecret "remotecluster"])])
  = "http://flag-proxy".
Proof.
  split; [discriminate|].
  refine (proj1 (https_proxy_sticky exParse exConfig exFromKubeConfig
                   exNewForConfig
                   (flag_httpsproxy "http://flag-proxy" exFactory) _ _)).
  discriminate.
Defined.

End FactoryFacts.

(* ===================================================================== *)
(** * Properties of label values                                          *)
(* ===================================================================== *)
Module LabelFacts.

Import Label.















(** The one-block test vector of FIPS 180-4 and the empty message. *)
Lemma Sum256_abc :
  EncodeToString (Sum256 (bytes_of_string "abc"))
  = "ba7816bf8f01cfea414140de5dae2223b00361a396177a9cb410ff61f20015ad".
Proof. vm_compute. reflexivity. Qed.

Lemma Sum256_empty :
  EncodeToString (Sum256 [])
  = "e3b0c44298fc1c149afbf4c8996fb92427ae41e4649b934ca495991b7852b855".
Proof. vm_compute. reflexivity. Qed.



End LabelFacts.

(* ===================================================================== *)
(** * Properties of the deletion reconciler                               *)
(* ===================================================================== *)
Module DeletionFacts.

Import Label Deletion Tests.

#[local] Opaque GetValidName.

(** ** The monadic code computes the summaries *)

Lemma world_eta (w : World) :
  mkWorld (requests w) (backups w) (restores w) (storeBackups w)
    (storeRestores w) (providerSnapshots w) (trace w) = w.
Proof. by destruct w. Qed.

Lemma forEach_executeActions (l : list nat) (w : World) :
  forEach
    (fun i => attempt (ExecuteDeleteItemAction i) None (fun w => w) ;;; ret [])
    l w
  = ([], set_trace
           (trace w ++ List.map (fun i => Call (ExecuteDeleteItemAction i) None) l)
           w).
Proof.
  revert w. induction l as [|i l IH]; intros w; simpl.
  - unfold ret, set_trace. by rewrite app_nil_r, world_eta.
  - unfold bind, attempt, ret. simpl. rewrite IH. unfold set_trace. simpl.
    by rewrite <- app_assoc.
Qed.

Lemma itemActionCleanup_run v flt b w :
  itemActionCleanup v flt b w
  = (tt, set_trace (trace w ++ itemActionEvents v flt b) w).
Proof.
  unfold itemActionCleanup, itemActionEvents, bind, attempt. simpl.
  case_decide; [done|].
  destruct (failGetBackupContents flt) as [e|]; simpl.
  - unfold ret, set_trace. simpl. by rewrite <- app_assoc.
  - unfold bind. rewrite forEach_executeActions. unfold ret, set_trace. simpl.
    by rewrite <- !app_assoc.
Qed.

Lemma deleteOneSnapshot_run v flt b s w :
  deleteOneSnapshot v flt b s w
  = (oneSnapshotErrors v flt b s,
     afterSnapshots (oneSnapshotDeleted v flt b s) (oneSnapshotEvents v flt b s) w).
Proof.
  unfold deleteOneSnapshot, oneSnapshotErrors, oneSnapshotDeleted,
    oneSnapshotEvents, snapshotProvider, afterSnapshots.
  destruct (List.find _ (snapshotLocations v)) as [loc|]; simpl.
  - unfold bind, attempt, deleteSnapshot, attempt, ret.
    destruct (failGetVolumeSnapshotter flt (vsl_Provider loc)); simpl; [done|].
    destruct (failDeleteSnapshot flt (snap_ProviderSnapshotID s)); simpl;
      by rewrite <- app_assoc.
  - unfold ret. by rewrite app_nil_r, world_eta.
Qed.

Lemma removeSnapshots_app d1 d2 l :
  removeSnapshots (d1 ++ d2) l = removeSnapshots d2 (removeSnapshots d1 l).
Proof. unfold removeSnapshots. by rewrite foldl_app. Qed.

Lemma forEach_deleteOneSnapshot v flt b l w :
  forEach (deleteOneSnapshot v flt b) l w
  = (flat_map (oneSnapshotErrors v flt b) l,
     afterSnapshots (flat_map (oneSnapshotDeleted v flt b) l)
       (flat_map (oneSnapshotEvents v flt b) l) w).
Proof.
  revert w. induction l as [|s l IH]; intros w; simpl.
  - unfold ret, afterSnapshots. simpl. by rewrite app_nil_r, world_eta.
  - unfold bind. rewrite deleteOneSnapshot_run, IH. unfold ret, afterSnapshots.
    simpl. by rewrite removeSnapshots_app, <- app_assoc.
Qed.

Lemma snapshotCleanup_run v flt b w :
  snapshotCleanup v flt b w
  = (snapshotErrors v flt b,
     afterSnapshots
       (flat_map (oneSnapshotDeleted v flt b) (listedSnapshots v flt b))
       (snapshotEvents v flt b) w).
Proof.
  unfold snapshotCleanup, snapshotErrors, snapshotEvents, listedSnapshots,
    bind, attempt.
  destruct (failGetBackupVolumeSnapshots flt) as [e|]; simpl.
  - unfold ret, afterSnapshots. simpl. done.
  - rewrite forEach_deleteOneSnapshot. unfold afterSnapshots. simpl.
    by rewrite <- app_assoc.
Qed.

Lemma deleteOneRestore_run flt r w :
  deleteOneRestore flt r w = (oneRestoreErrors flt r, afterRestores flt [r] w).
Proof.
  unfold deleteOneRestore, oneRestoreErrors, afterRestores, clusterDeleted,
    storeDeleted, bind, deleteRestore, storeDeleteRestore, attempt, ret.
  simpl.
  destruct (failDeleteRestore flt (rs_Name r));
    destruct (failStoreDeleteRestore flt (rs_Name r)); simpl;
    by rewrite <- app_assoc.
Qed.

Lemma afterRestores_cons flt r rs w :
  afterRestores flt rs (afterRestores flt [r] w) = afterRestores flt (r :: rs) w.
Proof.
  unfold afterRestores, clusterDeleted, storeDeleted. simpl.
  rewrite <- app_assoc. simpl.
  destruct (failDeleteRestore flt (rs_Name r));
    destruct (failStoreDeleteRestore flt (rs_Name r)); simpl; done.
Qed.

Lemma forEach_deleteOneRestore flt rs w :
  forEach (deleteOneRestore flt) rs w
  = (flat_map (oneRestoreErrors flt) rs, afterRestores flt rs w).
Proof.
  revert w. induction rs as [|r rs IH]; intros w; simpl.
  - unfold ret, afterRestores. simpl. by rewrite app_nil_r, world_eta.
  - unfold bind. rewrite deleteOneRestore_run, IH. unfold ret.
    by rewrite afterRestores_cons.
Qed.

Lemma restoreCleanup_run flt b w :
  restoreCleanup flt b w
  = (flat_map (oneRestoreErrors flt)
       (List.filter (correlatedRestore b) (restores w)),
     afterRestores flt (List.filter (correlatedRestore b) (restores w)) w).
Proof.
  unfold restoreCleanup, bind, gets. apply forEach_deleteOneRestore.
Qed.

Ltac wsimpl :=
  cbn [requests backups restores storeBackups storeRestores providerSnapshots
       trace set_requests set_backups set_restores set_storeBackups
       set_storeRestores set_providerSnapshots set_trace fst snd].

Ltac wsimpl_in H :=
  cbn [requests backups restores storeBackups storeRestores providerSnapshots
       trace set_requests set_backups set_restores set_storeBackups
       set_storeRestores set_providerSnapshots set_trace fst snd isNone
       failDeleteBackup failStoreDeleteBackup noFaults] in H.

Lemma cascade_run v flt req b w :
  cascade v flt req b w = (None, cascadeWorld v flt req b w).
Proof.
  destruct w as [rq bk rs sb sr ps tr].
  unfold cascade, bind.
  rewrite itemActionCleanup_run. wsimpl.
  rewrite snapshotCleanup_run. unfold afterSnapshots. wsimpl.
  rewrite restoreCleanup_run. unfold afterRestores. wsimpl.
  unfold deleteBackupAndRecord, bind, deleteBackup, storeDeleteBackup,
    patchRequest, deleteCollectionRequests, attempt, ret.
  unfold cascadeWorld, cascadeEvents, cascadeErrors, backupErrors, backupEvents,
    patchedRequests.
  destruct (failDeleteBackup flt); destruct (failStoreDeleteBackup flt);
    wsimpl; cbn [isNone errList]; rewrite <- ?app_assoc; reflexivity.
Qed.

Lemma find_sameBackup ns name l b :
  List.find (sameBackup ns name) l = Some b ->
  bk_Namespace b = ns /\ bk_Name b = name.
Proof.
  intros H. apply find_some in H as [_ H]. unfold sameBackup in H.
  apply andb_prop in H as [H1 H2].
  by apply bool_decide_eq_true in H1, H2.
Qed.

Lemma processRequest_run v flt req w :
  processRequest v flt req w
  = (pathResult (pathOf v flt req w), pathWorld v flt req w (pathOf v flt req w)).
Proof.
  destruct w as [rq bk rs sb sr ps tr].
  unfold processRequest, pathOf.
  case_decide as Hname; [reflexivity|].
  case_decide as Htr; [reflexivity|].
  unfold bind at 1. unfold patchRequest at 1. unfold attempt at 1.
  destruct (failPatchInProgress flt) as [e|]; [reflexivity|].
  wsimpl.
  unfold bind at 1. unfold getBackup, bind, gets, attempt, ret. wsimpl.
  destruct (List.find (sameBackup (req_Namespace req) (req_BackupName req)) bk)
    as [b|] eqn:Hb.
  2:{ unfold patchRequest, attempt. wsimpl. unfold pathWorld, pathPatches,
        pathEvents, requestCall, patchedRequests. cbn [foldl pathResult].
      wsimpl. rewrite <- !app_assoc. reflexivity. }
  destruct (find_sameBackup _ _ _ _ Hb) as [Hns Hnm].
  unfold patchRequest at 1. unfold attempt at 1. wsimpl.
  unfold getLocation, bind, attempt, ret. wsimpl.
  destruct (List.find (sameLocation (bk_Namespace b) (bk_StorageLocation b))
              (locations v)) as [loc|].
  2:{ unfold patchRequest, attempt. wsimpl. unfold pathWorld, pathPatches,
        pathEvents, requestCall, patchedRequests. cbn [foldl pathResult].
      wsimpl. rewrite <- !app_assoc. reflexivity. }
  case_decide as Hro.
  { unfold patchRequest, attempt. wsimpl. unfold pathWorld, pathPatches,
      pathEvents, requestCall, patchedRequests. cbn [foldl pathResult].
    wsimpl. rewrite <- !app_assoc. reflexivity. }
  unfold patchBackupPhase, attempt. wsimpl.
  destruct (failPatchDeleting flt) as [e|].
  { unfold pathWorld, pathPatches, pathEvents, requestCall, patchedRequests.
    cbn [foldl pathResult]. wsimpl. rewrite <- !app_assoc. reflexivity. }
  rewrite cascade_run. unfold pathWorld, pathResult. do 2 f_equal.
  unfold prefixWorld, prefixEvents, patchedRequests. wsimpl.
  rewrite <- !app_assoc. rewrite Hns. reflexivity.
Qed.

Lemma trace_pathWorld v flt req w :
  trace (pathWorld v flt req w (pathOf v flt req w))
  = trace w ++ pathEvents v flt req w (pathOf v flt req w).
Proof.
  destruct (pathOf v flt req w); try reflexivity.
  unfold pathWorld, cascadeWorld, prefixWorld, pathEvents. wsimpl.
  by rewrite app_assoc.
Qed.

Lemma eventsOf_processRequest v flt req w :
  eventsOf (processRequest v flt req) w
  = pathEvents v flt req w (pathOf v flt req w).
Proof.
  unfold eventsOf. rewrite processRequest_run. wsimpl.
  rewrite trace_pathWorld. by rewrite drop_app_length.
Qed.

(** ** Lists of objects and their keys *)

Lemma In_removeRestores del l r :
  In r (removeRestores del l) <->
  In r l /\ forall x, In x del -> sameRestore (rs_Namespace x) (rs_Name x) r = false.
Proof.
  unfold removeRestores. revert l.
  induction del as [|d del IH]; intros l; simpl.
  - split; [intros H; split; [done | by intros x []] | by intros [H _]].
  - rewrite IH, filter_In, negb_true_iff. split.
    + intros [[Hl Hd] Hdel]. split; [done|]. intros x [<-|Hx]; auto.
    + intros [Hl H]. split; [split|]; auto.
Qed.

Lemma In_removeNames del l n :
  In n (removeNames del l) <-> In n l /\ ~ In n del.
Proof.
  unfold removeNames. revert l.
  induction del as [|d del IH]; intros l; simpl.
  - tauto.
  - rewrite IH, filter_In, negb_true_iff, bool_decide_eq_false. split.
    + intros [[Hl Hd] Hdel]. split; [done|]. intros [->|Hx]; auto.
    + intros [Hl H]. split; [split|]; auto.
Qed.

Lemma sameRestore_true ns name r :
  sameRestore ns name r = true <-> rs_Namespace r = ns /\ rs_Name r = name.
Proof.
  unfold sameRestore. rewrite andb_true_iff, !bool_decide_eq_true. done.
Qed.

Lemma In_keys_inj {A B} (f : A -> B) (l : list A) x y :
  NoDup (List.map f l) -> In x l -> In y l -> f x = f y -> x = y.
Proof.
  induction l as [|a l IH]; simpl; [done|].
  intros Hnd. apply NoDup_cons in Hnd as [Ha Hnd].
  rewrite list_elem_of_In in Ha.
  intros [->|Hx] [->|Hy] E; auto.
  - exfalso. apply Ha. rewrite E. by apply in_map.
  - exfalso. apply Ha. rewrite <- E. by apply in_map.
Qed.

Lemma correlatedRestore_true b r :
  correlatedRestore b r = true <->
  rs_Namespace r = bk_Namespace b /\ rs_BackupName r = bk_Name b.
Proof.
  unfold correlatedRestore. rewrite andb_true_iff, !bool_decide_eq_true. done.
Qed.

(** ** Calls through the cluster client *)

Lemma clientActions_app t1 t2 :
  clientActions (t1 ++ t2) = clientActions t1 ++ clientActions t2.
Proof. unfold clientActions. by rewrite List.map_app, List.filter_app. Qed.

Lemma clientActions_flat_map_nil {A} (f : A -> list Event) l :
  (forall x, clientActions (f x) = []) -> clientActions (flat_map f l) = [].
Proof.
  intros H. induction l as [|x l IH]; simpl; [done|].
  by rewrite clientActions_app, H, IH.
Qed.

Lemma clientActions_itemActionEvents v flt b :
  clientActions (itemActionEvents v flt b) = [].
Proof.
  unfold itemActionEvents. case_decide; [done|].
  destruct (failGetBackupContents flt); [done|].
  unfold clientActions. simpl.
  induction (seq 0 (deleteItemActions v)) as [|i l IH]; simpl; done.
Qed.

Lemma clientActions_snapshotEvents v flt b :
  clientActions (snapshotEvents v flt b) = [].
Proof.
  unfold snapshotEvents.
  change (Call ?op ?e :: ?l) with ([Call op e] ++ l).
  rewrite clientActions_app. simpl.
  apply clientActions_flat_map_nil. intros s. unfold oneSnapshotEvents.
  destruct (snapshotProvider v b s); [|done].
  by destruct (failGetVolumeSnapshotter flt s0).
Qed.

Lemma clientActions_restoreEvents flt rs :
  clientActions (flat_map (oneRestoreEvents flt) rs)
  = List.map (fun r => DeleteRestore (rs_Namespace r) (rs_Name r)) rs.
Proof.
  induction rs as [|r rs IH]; simpl; [done|].
  unfold clientActions in *. simpl. by rewrite IH.
Qed.

(** ** Failures of the cascade *)

Lemma In_errList (e : option string) msg : In msg (errList e) <-> e = Some msg.
Proof.
  destruct e as [m|]; simpl; [|by split].
  split; [by intros [->|[]] | intros [= ->]; by left].
Qed.

Lemma failures_itemActionEvents v flt b op msg :
  In (Call op (Some msg)) (itemActionEvents v flt b) ->
  op = StoreGetBackupContents (bk_Name b) /\ failGetBackupContents flt = Some msg.
Proof.
  unfold itemActionEvents. intros [H|H]; [done|].
  case_decide; [done|]. destruct H as [H|H]; [by injection H as <- <-|].
  destruct (failGetBackupContents flt); [done|].
  apply in_map_iff in H as (i & H & _). done.
Qed.

Lemma failures_oneSnapshotEvents v flt b s op msg :
  In (Call op (Some msg)) (oneSnapshotEvents v flt b s) ->
  isFatal op = false /\ isDownload op = false /\
  In msg (oneSnapshotErrors v flt b s).
Proof.
  unfold oneSnapshotEvents, oneSnapshotErrors.
  destruct (snapshotProvider v b s) as [p|]; [|done].
  intros [H|H].
  - injection H as <- H. rewrite H. repeat split. by left.
  - destruct (failGetVolumeSnapshotter flt p); [done|].
    destruct H as [H|[]]. injection H as <- H. rewrite H.
    repeat split. by left.
Qed.

Lemma failures_snapshotEvents v flt b op msg :
  In (Call op (Some msg)) (snapshotEvents v flt b) ->
  isFatal op = false /\ isDownload op = false /\ In msg (snapshotErrors v flt b).
Proof.
  unfold snapshotEvents, snapshotErrors. intros [H|H].
  - injection H as <- H. rewrite H. repeat split. by left.
  - apply in_flat_map in H as (s & Hs & H).
    destruct (failures_oneSnapshotEvents _ _ _ _ _ _ H) as (? & ? & ?).
    repeat split; try done. apply in_or_app. right.
    apply in_flat_map. eauto.
Qed.

Lemma failures_restoreEvents flt rs op msg :
  In (Call op (Some msg)) (flat_map (oneRestoreEvents flt) rs) ->
  isFatal op = false /\ isDownload op = false /\
  In msg (flat_map (oneRestoreErrors flt) rs).
Proof.
  intros H. apply in_flat_map in H as (r & Hr & H).
  assert (isFatal op = false /\ isDownload op = false /\
          In msg (oneRestoreErrors flt r)) as (? & ? & ?).
  { unfold oneRestoreEvents, oneRestoreErrors in *.
    destruct H as [H|[H|[]]]; injection H as <- H; rewrite H;
      repeat split; apply in_or_app; [left|right]; by left. }
  repeat split; try done. apply in_flat_map. eauto.
Qed.

Lemma failures_backupEvents flt b op msg :
  In (Call op (Some msg)) (backupEvents flt b) ->
  isFatal op = false /\ isDownload op = false /\ In msg (backupErrors flt).
Proof.
  unfold backupEvents, backupErrors.
  intros [H|[H|[]]]; injection H as <- H; rewrite H;
    repeat split; apply in_or_app; [left|right]; by left.
Qed.

Lemma failures_cascadeEvents v flt req b rs op msg :
  In (Call op (Some msg)) (cascadeEvents v flt req b rs) ->
  isFatal op = false /\
  (isDownload op = true /\ failGetBackupContents flt = Some msg \/
   In msg (cascadeErrors v flt b rs)).
Proof.
  unfold cascadeEvents, cascadeErrors. rewrite !in_app_iff.
  intros [H|[H|[H|[H|H]]]].
  - apply failures_itemActionEvents in H as [-> H]. split; [done | by left].
  - apply failures_snapshotEvents in H as (? & ? & ?). auto.
  - apply failures_restoreEvents in H as (? & ? & ?). auto.
  - apply failures_backupEvents in H as (? & ? & ?). auto.
  - simpl in H. destruct H as [H|[H|[H|[]]]]; discriminate.
Qed.

(** ** Which path a run takes *)

Lemma pathOf_cascade v flt req w b loc :
  req_BackupName req <> "" ->
  (req_Namespace req, req_BackupName req) ∉ tracker v ->
  failPatchInProgress flt = None ->
  List.find (sameBackup (req_Namespace req) (req_BackupName req)) (backups w)
  = Some b ->
  List.find (sameLocation (bk_Namespace b) (bk_StorageLocation b)) (locations v)
  = Some loc ->
  bsl_AccessMode loc <> BackupStorageLocationAccessModeReadOnly ->
  failPatchDeleting flt = None ->
  pathOf v flt req w = PathCascade b.
Proof.
  intros Hn Ht H3 Hb Hl Hro H8. unfold pathOf.
  rewrite !decide_False by done. rewrite H3, Hb, Hl.
  rewrite decide_False by done. by rewrite H8.
Qed.

Lemma pathOf_cascade_inv v flt req w b :
  pathOf v flt req w = PathCascade b ->
  req_BackupName req <> "" /\
  ((req_Namespace req, req_BackupName req) ∉ tracker v) /\
  failPatchInProgress flt = None /\ failPatchDeleting flt = None /\
  List.find (sameBackup (req_Namespace req) (req_BackupName req)) (backups w)
  = Some b.
Proof.
  unfold pathOf. case_decide; [done|]. case_decide; [done|].
  destruct (failPatchInProgress flt); [done|].
  destruct (List.find _ (backups w)) as [b'|]; [|done].
  destruct (List.find _ (locations v)); [|done].
  case_decide; [done|]. destruct (failPatchDeleting flt); [done|].
  intros [= ->]. done.
Qed.

Lemma restores_pathWorld v flt req w p :
  restores (pathWorld v flt req w p)
  = match p with
    | PathCascade b =>
        removeRestores
          (clusterDeleted flt (List.filter (correlatedRestore b) (restores w)))
          (restores w)
    | _ => restores w
    end.
Proof. by destruct p. Qed.

Lemma In_clusterDeleted flt rs x : In x (clusterDeleted flt rs) -> In x rs.
Proof. unfold clusterDeleted. rewrite filter_In. tauto. Qed.

Lemma other_restores_kept v flt req w r :
  NoDup (restoreKeys w) ->
  In r (restores w) ->
  rs_BackupName r <> req_BackupName req ->
  In r (restores (snd (processRequest v flt req w))).
Proof.
  intros Hnd Hr Hne. rewrite processRequest_run. cbn [snd].
  rewrite restores_pathWorld.
  destruct (pathOf v flt req w) as [| | | | | | |b] eqn:Hp; try done.
  apply pathOf_cascade_inv in Hp as (_ & _ & _ & _ & Hb).
  apply find_sameBackup in Hb as [_ Hname].
  apply In_removeRestores. split; [done|].
  intros x Hx. apply In_clusterDeleted, filter_In in Hx as [Hx Hc].
  apply correlatedRestore_true in Hc as [_ Hc].
  apply not_true_iff_false. intros Hs. apply sameRestore_true in Hs as [H1 H2].
  assert (x = r) as ->.
  { apply (In_keys_inj (fun r => (rs_Namespace r, rs_Name r)) (restores w));
      try done. by rewrite H1, H2. }
  congruence.
Qed.

(** ** Patched requests *)

Lemma sameRequest_applyPatch ns name p r :
  sameRequest ns name (applyPatch p r) = sameRequest ns name r.
Proof. done. Qed.



(** ** A run in which nothing fails *)

Lemma clusterDeleted_noFaults rs : clusterDeleted noFaults rs = rs.
Proof.
  unfold clusterDeleted. induction rs as [|r rs IH]; simpl in *; [done|].
  by f_equal.
Qed.

Lemma storeDeleted_noFaults rs : storeDeleted noFaults rs = List.map rs_Name rs.
Proof.
  unfold storeDeleted. induction rs as [|r rs IH]; simpl in *; [done|].
  by f_equal.
Qed.

Lemma restoreErrors_noFaults rs : flat_map (oneRestoreErrors noFaults) rs = [].
Proof. induction rs as [|r rs IH]; simpl; done. Qed.

Lemma snapshotErrors_noFaults v b :
  Forall (fun s => is_Some (snapshotProvider v b s)) (volumeSnapshots v (bk_Name b)) ->
  snapshotErrors v noFaults b = [].
Proof.
  intros H. unfold snapshotErrors, listedSnapshots. simpl.
  induction H as [|s l [p Hp] _ IH]; simpl; [done|].
  unfold oneSnapshotErrors at 1. by rewrite Hp.
Qed.

Lemma cascadeErrors_noFaults v b rs :
  Forall (fun s => is_Some (snapshotProvider v b s)) (volumeSnapshots v (bk_Name b)) ->
  cascadeErrors v noFaults b rs = [].
Proof.
  intros H. unfold cascadeErrors.
  by rewrite snapshotErrors_noFaults, restoreErrors_noFaults.
Qed.

Lemma clientActions_cascadeEvents v flt req b rs :
  clientActions (cascadeEvents v flt req b rs)
  = List.map (fun r => DeleteRestore (rs_Namespace r) (rs_Name r)) rs ++
    [DeleteBackup (bk_Namespace b) (bk_Name b);
     PatchRequest (req_Namespace req) (req_Name req)
       (processedPatch (cascadeErrors v flt b rs));
     DeleteCollectionRequests (req_Namespace req) (bk_Name b) (bk_UID b)].
Proof.
  unfold cascadeEvents. rewrite !clientActions_app.
  rewrite clientActions_itemActionEvents, clientActions_snapshotEvents,
    clientActions_restoreEvents.
  done.
Qed.

(** ** Fatal and recoverable failures *)

Lemma attempted_app_l op t1 t2 : attempted op t1 -> attempted op (t1 ++ t2).
Proof.
  intros [err H]. exists err. apply list_elem_of_In, in_or_app. left.
  by apply list_elem_of_In.
Qed.

Lemma attempted_app_r op t1 t2 : attempted op t2 -> attempted op (t1 ++ t2).
Proof.
  intros [err H]. exists err. apply list_elem_of_In, in_or_app. right.
  by apply list_elem_of_In.
Qed.

Lemma attempted_In op err t : In (Call op err) t -> attempted op t.
Proof. intros H. exists err. by apply list_elem_of_In. Qed.

Lemma attempted_cascade v flt req b rs :
  let t := cascadeEvents v flt req b rs in
  attempted GetDeleteItemActions t /\
  attempted (StoreGetBackupVolumeSnapshots (bk_Name b)) t /\
  (forall x, In x rs ->
     attempted (DeleteRestore (rs_Namespace x) (rs_Name x)) t /\
     attempted (StoreDeleteRestore (rs_Name x)) t) /\
  attempted (DeleteBackup (bk_Namespace b) (bk_Name b)) t /\
  attempted (StoreDeleteBackup (bk_Name b)) t /\
  In (requestCall req (processedPatch (cascadeErrors v flt b rs)) None) t /\
  attempted (DeleteCollectionRequests (req_Namespace req) (bk_Name b) (bk_UID b)) t /\
  attempted CleanupClients t.
Proof.
  intros t. unfold t, cascadeEvents. repeat split.
  - apply attempted_app_l. eapply attempted_In. by left.
  - apply attempted_app_r, attempted_app_l. eapply attempted_In. by left.
  - do 2 apply attempted_app_r. apply attempted_app_l.
    eapply attempted_In. apply in_flat_map. exists x. split; [done|]. by left.
  - do 2 apply attempted_app_r. apply attempted_app_l.
    eapply attempted_In. apply in_flat_map. exists x. split; [done|].
    right. by left.
  - do 3 apply attempted_app_r. apply attempted_app_l.
    eapply attempted_In. by left.
  - do 3 apply attempted_app_r. apply attempted_app_l.
    eapply attempted_In. right. by left.
  - rewrite !in_app_iff. do 4 right. by left.
  - do 4 apply attempted_app_r. eapply attempted_In. right. by left.
  - do 4 apply attempted_app_r. eapply attempted_In. right. right. by left.
Qed.

Lemma prefixEvents_succeed req b op msg :
  ~ In (Call op (Some msg)) (prefixEvents req b).
Proof.
  unfold prefixEvents. simpl. intros [H|[H|[H|[H|[H|[]]]]]]; discriminate.
Qed.

(** The failures of a run: either the one fatal failure that ends it, or
    failures inside the cascade. *)
Lemma failures_pathEvents v flt req w op msg :
  In (Call op (Some msg)) (pathEvents v flt req w (pathOf v flt req w)) ->
  (isFatal op = true /\ pathResult (pathOf v flt req w) = Some msg) \/
  (exists b, pathOf v flt req w = PathCascade b /\ isFatal op = false /\
     (isDownload op = true /\ failGetBackupContents flt = Some msg \/
      In msg (cascadeErrors v flt b
                (List.filter (correlatedRestore b) (restores w))))).
Proof.
  destruct (pathOf v flt req w) as [| |e| |b|b loc|b e|b] eqn:Hp;
    unfold pathEvents, requestCall; intros H;
    [simpl in H | simpl in H | simpl in H | simpl in H | simpl in H
     | simpl in H | simpl in H | ].
  - destruct H as [H|[]]; discriminate.
  - destruct H as [H|[]]; discriminate.
  - destruct H as [H|[]]. injection H as <- <-. left. done.
  - destruct H as [H|[H|[H|[]]]]; discriminate.
  - destruct H as [H|[H|[H|[H|[H|[]]]]]]; discriminate.
  - destruct H as [H|[H|[H|[H|[H|[]]]]]]; discriminate.
  - destruct H as [H|[H|[H|[H|[H|[]]]]]]; try discriminate.
    injection H as <- <-. left. done.
  - right. exists b. split; [done|].
    apply in_app_or in H as [H|H]; [by apply prefixEvents_succeed in H|].
    by apply failures_cascadeEvents in H.
Qed.

(** ** A failed archive download *)

Lemma no_execute_snapshotEvents v flt b i err :
  ~ In (Call (ExecuteDeleteItemAction i) err) (snapshotEvents v flt b).
Proof.
  unfold snapshotEvents. intros [H|H]; [done|].
  apply in_flat_map in H as (s & _ & H). unfold oneSnapshotEvents in H.
  destruct (snapshotProvider v b s) as [p|]; [|done].
  destruct H as [H|H]; [done|].
  destruct (failGetVolumeSnapshotter flt p); [done|].
  by destruct H as [H|[]].
Qed.

Lemma no_execute_restoreEvents flt rs i err :
  ~ In (Call (ExecuteDeleteItemAction i) err) (flat_map (oneRestoreEvents flt) rs).
Proof.
  intros H. apply in_flat_map in H as (r & _ & H).
  by destruct H as [H|[H|[]]].
Qed.

(** C4, as amended. With delete-time item actions registered and the
    download of the content archive failing, a run that reaches the
    cascade goes on to the end: no item action is invoked, no error is
    returned, the request is patched to Processed, and when the two
    deletions of the backup succeed the backup object and its stored
    record are gone.  The error list of that patch holds the errors of the
    snapshot and restore steps only: the failed download adds nothing to
    it. *)
Theorem download_failure_is_not_fatal (v : View) (flt : Faults)
    (req : DeleteBackupRequest) (w : World) (b : Backup)
    (loc : BackupStorageLocation) (msg : string) :
  req_BackupName req <> "" ->
  (req_Namespace req, req_BackupName req) ∉ tracker v ->
  failPatchInProgress flt = None ->
  List.find (sameBackup (req_Namespace req) (req_BackupName req)) (backups w)
  = Some b ->
  List.find (sameLocation (bk_Namespace b) (bk_StorageLocation b)) (locations v)
  = Some loc ->
  bsl_AccessMode loc <> BackupStorageLocationAccessModeReadOnly ->
  failPatchDeleting flt = None ->
  deleteItemActions v <> 0%nat ->
  failGetBackupContents flt = Some msg ->
  failDeleteBackup flt = None ->
  failStoreDeleteBackup flt = None ->
  let rs := List.filter (correlatedRestore b) (restores w) in
  let t := eventsOf (processRequest v flt req) w in
  let w' := snd (processRequest v flt req w) in
  fst (processRequest v flt req w) = None /\
  In (Call (StoreGetBackupContents (bk_Name b)) (Some msg)) t /\
  (forall i err, ~ In (Call (ExecuteDeleteItemAction i) err) t) /\
  (forall x, In x (backups w') ->
             sameBackup (bk_Namespace b) (bk_Name b) x = false) /\
  ~ In (bk_Name b) (storeBackups w') /\
  In (requestCall req
        (processedPatch
           (snapshotErrors v flt b ++ flat_map (oneRestoreErrors flt) rs))
        None) t /\
  (forall errs err,
      In (requestCall req (processedPatch errs) err) t ->
      errs = snapshotErrors v flt b ++ flat_map (oneRestoreErrors flt) rs).
Proof.
  intros Hn Ht H3 Hb Hl Hro H8 Ha Hd Hdb Hsb rs t w'.
  assert (Hp : pathOf v flt req w = PathCascade b)
    by (by eapply pathOf_cascade).
  assert (He : cascadeErrors v flt b rs
               = snapshotErrors v flt b ++ flat_map (oneRestoreErrors flt) rs).
  { unfold cascadeErrors, backupErrors. rewrite Hdb, Hsb. simpl.
    by rewrite app_nil_r. }
  assert (Ht' : t = prefixEvents req b ++ cascadeEvents v flt req b rs).
  { unfold t. by rewrite eventsOf_processRequest, Hp. }
  assert (Hw' : w' = cascadeWorld v flt req b (prefixWorld req b w)).
  { unfold w'. by rewrite processRequest_run, Hp. }
  assert (Hi : itemActionEvents v flt b
               = [Call GetDeleteItemActions None;
                  Call (StoreGetBackupContents (bk_Name b)) (Some msg)]).
  { unfold itemActionEvents. by rewrite decide_False, Hd by done. }
  split; [by rewrite processRequest_run, Hp|].
  split.
  { rewrite Ht'. unfold cascadeEvents. rewrite Hi, !in_app_iff.
    right. left. right. by left. }
  split.
  { intros i err H. rewrite Ht' in H. unfold cascadeEvents in H.
    rewrite Hi, !in_app_iff in H.
    destruct H as [H|[H|[H|[H|[H|H]]]]].
    - unfold prefixEvents in H. simpl in H.
      by destruct H as [H|[H|[H|[H|[H|[]]]]]].
    - by destruct H as [H|[H|[]]].
    - by apply no_execute_snapshotEvents in H.
    - by apply no_execute_restoreEvents in H.
    - by destruct H as [H|[H|[]]].
    - by destruct H as [H|[H|[H|[]]]]. }
  split.
  { intros x Hx. rewrite Hw' in Hx. unfold cascadeWorld, prefixWorld in Hx.
    wsimpl_in Hx. rewrite Hdb in Hx. cbn [isNone] in Hx.
    apply filter_In in Hx as [_ Hx]. by apply negb_true_iff in Hx. }
  split.
  { intros Hx. rewrite Hw' in Hx. unfold cascadeWorld, prefixWorld in Hx.
    wsimpl_in Hx. rewrite Hsb in Hx. cbn [isNone] in Hx.
    apply filter_In in Hx as [_ Hx]. apply negb_true_iff in Hx.
    by apply bool_decide_eq_false in Hx. }
  split.
  { rewrite <- He, Ht'. apply in_or_app. right.
    apply (attempted_cascade v flt req b rs). }
  intros errs err H. rewrite <- He. rewrite Ht' in H.
  unfold cascadeEvents in H. rewrite Hi, !in_app_iff in H.
  unfold requestCall in H.
  destruct H as [H|[H|[H|[H|[H|H]]]]].
  - unfold prefixEvents in H. simpl in H.
    by destruct H as [H|[H|[H|[H|[H|[]]]]]].
  - by destruct H as [H|[H|[]]].
  - exfalso. unfold snapshotEvents in H. destruct H as [H|H]; [done|].
    apply in_flat_map in H as (s & _ & H). unfold oneSnapshotEvents in H.
    destruct (snapshotProvider v b s) as [p|]; [|done].
    destruct H as [H|H]; [done|].
    destruct (failGetVolumeSnapshotter flt p); [done|].
    by destruct H as [H|[]].
  - exfalso. apply in_flat_map in H as (x & _ & H).
    by destruct H as [H|[H|[]]].
  - by destruct H as [H|[H|[]]].
  - destruct H as [H|[H|[H|[]]]]; try done. by injection H as ->.
Qed.

(** ** The scenarios of the controller tests, run *)

(** "missing spec.backupName" *)
Lemma test_missing_backup_name :
  clientActions
    (eventsOf (processRequest emptyView noFaults missingName_req)
       (worldOf [missingName_req] [] []))
  = missingName_expected.
Proof. vm_compute. reflexivity. Qed.

(** "full delete, no errors, with backup name greater than 63 chars" *)
Lemma test_full_delete_long_name :
  clientActions
    (eventsOf (processRequest (fullDelete_view longName 0) noFaults longDelete_req)
       longDelete_world)
  = longDelete_expected.
Proof. vm_compute. reflexivity. Qed.

(** "backup is not downloaded when there are no DeleteItemAction plugins" *)
Lemma test_no_item_actions :
  clientActions
    (eventsOf (processRequest (fullDelete_view "foo" 0) noFaults fullDelete_req)
       tarball_world)
  = tarball_expected /\
  ~ attempted (StoreGetBackupContents "foo")
      (eventsOf (processRequest (fullDelete_view "foo" 0) noFaults fullDelete_req)
         tarball_world).
Proof.
  split; [vm_compute; reflexivity|].
  intros [err H]. apply list_elem_of_In in H. vm_compute in H.
  repeat (destruct H as [H|H]; [discriminate|]). done.
Qed.

(** "backup is still deleted if downloading tarball fails for
    DeleteItemAction plugins": the whole run. *)
Lemma tarball_trace :
  eventsOf (processRequest (fullDelete_view "foo" 1) tarball_faults fullDelete_req)
    tarball_world
  = [Call (PatchRequest "velero" "foo-abcde"
             (mkPatch [(BackupNameLabel, "foo")]
                (Some DeleteBackupRequestPhaseInProgress) [])) None;
     Call (GetBackup "velero" "foo") None;
     Call (PatchRequest "velero" "foo-abcde"
             (mkPatch [(BackupUIDLabel, "uid")] None [])) None;
     Call (GetLocation "velero" "primary") None;
     Call (PatchBackupPhase "velero" "foo" BackupPhaseDeleting) None;
     Call GetDeleteItemActions None;
     Call (StoreGetBackupContents "foo") (Some "error downloading tarball");
     Call (StoreGetBackupVolumeSnapshots "foo") None;
     Call (GetVolumeSnapshotter "provider-1") None;
     Call (DeleteSnapshot "provider-1" "snap-1") None;
     Call (DeleteBackup "velero" "foo") None;
     Call (StoreDeleteBackup "foo") None;
     Call (PatchRequest "velero" "foo-abcde"
             (mkPatch [] (Some DeleteBackupRequestPhaseProcessed) [])) None;
     Call (DeleteCollectionRequests "velero" "foo" "uid") None;
     Call CleanupClients None].
Proof. vm_compute. reflexivity. Qed.

(** The full-delete scenario in which the download and the storage
    deletion of restore-1 fail: the whole run. *)
Lemma twoFailures_trace :
  eventsOf (processRequest (fullDelete_view "foo" 1) twoFailures fullDelete_req)
    fullDelete_world
  = [Call (PatchRequest "velero" "foo-abcde"
             (mkPatch [(BackupNameLabel, "foo")]
                (Some DeleteBackupRequestPhaseInProgress) [])) None;
     Call (GetBackup "velero" "foo") None;
     Call (PatchRequest "velero" "foo-abcde"
             (mkPatch [(BackupUIDLabel, "uid")] None [])) None;
     Call (GetLocation "velero" "primary") None;
     Call (PatchBackupPhase "velero" "foo" BackupPhaseDeleting) None;
     Call GetDeleteItemActions None;
     Call (StoreGetBackupContents "foo") (Some "error downloading tarball");
     Call (StoreGetBackupVolumeSnapshots "foo") None;
     Call (GetVolumeSnapshotter "provider-1") None;
     Call (DeleteSnapshot "provider-1" "snap-1") None;
     Call (DeleteRestore "velero" "restore-1") None;
     Call (StoreDeleteRestore "restore-1") (Some "restore-1 not deleted");
     Call (DeleteRestore "velero" "restore-2") None;
     Call (StoreDeleteRestore "restore-2") None;
     Call (DeleteBackup "velero" "foo") None;
     Call (StoreDeleteBackup "foo") None;
     Call (PatchRequest "velero" "foo-abcde"
             (mkPatch [] (Some DeleteBackupRequestPhaseProcessed)
                ["restore-1 not deleted"])) None;
     Call (DeleteCollectionRequests "velero" "foo" "uid") None;
     Call CleanupClients None].
Proof. vm_compute. reflexivity. Qed.

Ltac no_download_error H :=
  simpl in H;
  repeat (destruct H as [H|H];
          [try discriminate; injection H as <- <-; simpl;
           try tauto; intros [?|[]]; discriminate|]);
  done.

(** C4, the claim as stated, fails on the test "backup is still deleted if
    downloading tarball fails for DeleteItemAction plugins": the download
    fails, the request is patched to Processed with an empty error list, no
    patch of the request carries the error of the download, and the calls
    through the cluster client are the ones the test expects. *)
Lemma download_failure_not_accumulated :
  In (Call (StoreGetBackupContents "foo") (Some "error downloading tarball"))
    (eventsOf (processRequest (fullDelete_view "foo" 1) tarball_faults
                 fullDelete_req) tarball_world) /\
  In (Call (PatchRequest "velero" "foo-abcde"
              (mkPatch [] (Some DeleteBackupRequestPhaseProcessed) [])) None)
    (eventsOf (processRequest (fullDelete_view "foo" 1) tarball_faults
                 fullDelete_req) tarball_world) /\
  (forall p err,
      In (Call (PatchRequest "velero" "foo-abcde" p) err)
        (eventsOf (processRequest (fullDelete_view "foo" 1) tarball_faults
                     fullDelete_req) tarball_world) ->
      ~ In "error downloading tarball" (patch_Errors p)) /\
  clientActions
    (eventsOf (processRequest (fullDelete_view "foo" 1) tarball_faults
                 fullDelete_req) tarball_world)
  = tarball_expected.
Proof.
  rewrite tarball_trace. split; [simpl; tauto|]. split; [simpl; tauto|].
  split; [|reflexivity].
  intros p err H. no_download_error H.
Qed.

(** "full delete, no errors": the test's last check, that the provider's
    snapshot is gone. *)
Lemma test_full_delete_snapshot_deleted :
  providerSnapshots
    (snd (processRequest (fullDelete_view "foo" 0) noFaults fullDelete_req
            fullDelete_world)) = [] /\
  restores
    (snd (processRequest (fullDelete_view "foo" 0) noFaults fullDelete_req
            fullDelete_world)) = [restore3].
Proof. split; vm_compute; reflexivity. Qed.

(** Where the specification and the order-sensitive tests part: the tests
    that compare the recorded actions in order ("unable to find backup",
    and likewise "patching to InProgress fails", "patching backup to
    Deleting fails", "unable to find backup storage location", "backup
    storage location is in read-only mode") expect the backup to be fetched
    before the request is patched to InProgress; the processing algorithm
    of the specification, which [processRequest] follows, patches first. *)
Lemma test_unable_to_find_backup_order :
  clientActions
    (eventsOf (processRequest emptyView noFaults inProgress_req)
       (worldOf [inProgress_req] [] []))
  = [PatchRequest "velero" "foo-abcde"
       (mkPatch [(BackupNameLabel, "foo")]
          (Some DeleteBackupRequestPhaseInProgress) []);
     GetBackup "velero" "foo";
     PatchRequest "velero" "foo-abcde"
       (mkPatch [] (Some DeleteBackupRequestPhaseProcessed) ["backup not found"])]
  /\
  backupNotFound_expected
  = [GetBackup "velero" "foo";
     PatchRequest "velero" "foo-abcde"
       (mkPatch [] (Some DeleteBackupRequestPhaseProcessed) ["backup not found"])].
Proof. split; vm_compute; reflexivity. Qed.

(** ** The backup-name label *)




(** ** The theorems at work on the test scenarios *)


(** "backup is still deleted if downloading tarball fails for
    DeleteItemAction plugins" *)
Lemma download_failure_is_not_fatal_witness :
  req_BackupName fullDelete_req <> "" /\
  ((req_Namespace fullDelete_req, req_BackupName fullDelete_req)
     ∉ tracker (fullDelete_view "foo" 1)) /\
  failPatchInProgress tarball_faults = None /\
  List.find (sameBackup "velero" "foo") (backups tarball_world)
  = Some fullDelete_backup /\
  List.find (sameLocation "velero" "primary")
    (locations (fullDelete_view "foo" 1)) = Some primaryLocation /\
  bsl_AccessMode primaryLocation <> BackupStorageLocationAccessModeReadOnly /\
  failPatchDeleting tarball_faults = None /\
  deleteItemActions (fullDelete_view "foo" 1) <> 0%nat /\
  failGetBackupContents tarball_faults = Some "error downloading tarball" /\
  failDeleteBackup tarball_faults = None /\
  failStoreDeleteBackup tarball_faults = None /\
  fst (processRequest (fullDelete_view "foo" 1) tarball_faults fullDelete_req
         tarball_world) = None /\
  In (Call (StoreGetBackupContents "foo") (Some "error downloading tarball"))
    (eventsOf (processRequest (fullDelete_view "foo" 1) tarball_faults
                 fullDelete_req) tarball_world).
Proof.
  assert (H1 : req_BackupName fullDelete_req <> "") by discriminate.
  assert (H2 : (req_Namespace fullDelete_req, req_BackupName fullDelete_req)
                 ∉ tracker (fullDelete_view "foo" 1))
    by apply not_elem_of_empty.
  assert (H5 : bsl_AccessMode primaryLocation
               <> BackupStorageLocationAccessModeReadOnly) by discriminate.
  assert (H8 : deleteItemActions (fullDelete_view "foo" 1) <> 0%nat)
    by discriminate.
  pose proof (download_failure_is_not_fatal (fullDelete_view "foo" 1)
                tarball_faults fullDelete_req tarball_world fullDelete_backup
                primaryLocation "error downloading tarball"
                H1 H2 eq_refl eq_refl eq_refl H5 eq_refl H8 eq_refl eq_refl
                eq_refl) as R.
  refine (conj H1 (conj H2 (conj eq_refl (conj eq_refl (conj eq_refl
            (conj H5 (conj eq_refl (conj H8 (conj eq_refl (conj eq_refl
            (conj eq_refl (conj (proj1 R) (proj1 (proj2 R)))))))))))))).
Defined.

End DeletionFacts.

(* ===================================================================== *)
(** * Properties of the expiry sweeper                                    *)
(* ===================================================================== *)
Module SweeperFacts.

Import Deletion Sweeper Tests.

Lemma removeRequests_cons x del l :
  removeRequests (x :: del) l
  = removeRequests del
      (List.filter
         (fun r => negb (sameRequest (req_Namespace x) (req_Name x) r)) l).
Proof. done. Qed.

Lemma afterSweep_cons failDelete now r l w :
  afterSweep failDelete now l (afterSweep failDelete now [r] w)
  = afterSweep failDelete now (r :: l) w.
Proof.
  unfold afterSweep, sweepEvents, swept. cbn [List.filter].
  destruct (isExpired now r);
    [destruct (failDelete (req_Namespace r) (req_Name r))|];
    cbn; rewrite <- ?app_assoc, ?app_nil_r; reflexivity.
Qed.

Lemma forEach_sweep failDelete now l w :
  forEach
    (fun r =>
       if isExpired now r then
         deleteRequest (failDelete (req_Namespace r) (req_Name r))
           (req_Namespace r) (req_Name r) ;;;
         ret []
       else ret [])
    l w
  = ([], afterSweep failDelete now l w).
Proof.
  set (f := fun r => _).
  assert (Hf : forall r w, f r w = ([], afterSweep failDelete now [r] w)).
  { intros r [rq bk rs sb sr ps tr]. unfold f, afterSweep, sweepEvents, swept.
    cbn [List.filter].
    destruct (isExpired now r); [|unfold ret; cbn; by rewrite app_nil_r].
    unfold bind, deleteRequest, attempt, ret.
    destruct (failDelete (req_Namespace r) (req_Name r)) eqn:F;
      cbn; rewrite ?F; reflexivity. }
  revert w. induction l as [|r l IH]; intros w.
  - destruct w. unfold afterSweep, sweepEvents. simpl. unfold ret.
    by rewrite app_nil_r.
  - cbn [forEach]. unfold bind. rewrite Hf, IH. unfold ret.
    by rewrite afterSweep_cons.
Qed.

Lemma deleteExpiredRequests_run failDelete now w :
  deleteExpiredRequests failDelete now w
  = (tt, afterSweep failDelete now (requests w) w).
Proof.
  unfold deleteExpiredRequests. unfold bind at 1. unfold gets.
  unfold bind at 1. by rewrite forEach_sweep.
Qed.

Lemma eventsOf_deleteExpiredRequests failDelete now w :
  eventsOf (deleteExpiredRequests failDelete now) w
  = sweepEvents failDelete now (requests w).
Proof.
  unfold eventsOf. rewrite deleteExpiredRequests_run. cbn.
  by rewrite drop_app_length.
Qed.

Lemma isExpired_true now r :
  isExpired now r = true <->
  req_Phase r = DeleteBackupRequestPhaseProcessed /\
  (req_CreationTimestamp r <= now - 24 * 3600)%Z.
Proof.
  unfold isExpired, deleteBackupRequestMaxAge, Hour.
  rewrite andb_true_iff, bool_decide_eq_true, Z.leb_le. done.
Qed.

Lemma sameRequest_true ns name r :
  sameRequest ns name r = true <-> req_Namespace r = ns /\ req_Name r = name.
Proof.
  unfold sameRequest. rewrite andb_true_iff, !bool_decide_eq_true. done.
Qed.

Lemma In_removeRequests del l r :
  In r (removeRequests del l) <->
  In r l /\
  forall x, In x del -> sameRequest (req_Namespace x) (req_Name x) r = false.
Proof.
  unfold removeRequests. revert l.
  induction del as [|d del IH]; intros l; simpl.
  - split; [intros H; split; [done | by intros x []] | by intros [H _]].
  - rewrite IH, filter_In, negb_true_iff. split.
    + intros [[Hl Hd] Hdel]. split; [done|]. intros x [<-|Hx]; auto.
    + intros [Hl H]. split; [split|]; auto.
Qed.

(** C7. A sweep at time [now] attempts the deletion of a request exactly
    when the request is listed, is Processed and was created at or before
    [now] minus 24 hours; it makes no other call.  Each attempt has the
    outcome of its own deletion, so a deletion that fails stops none of the
    others.  A request that is not expired (in particular one that is not
    Processed, whatever its age) stays in the cluster, requests being keyed
    by namespace and name; an expired request whose deletion succeeds is
    gone; nothing is added. *)
Theorem sweeper_deletes_expired_processed
    (failDelete : string -> string -> option string) (now : Z) (w : World) :
  let t := eventsOf (deleteExpiredRequests failDelete now) w in
  let w' := snd (deleteExpiredRequests failDelete now w) in
  (forall ns name,
      attempted (DeleteRequest ns name) t <->
      exists r, In r (requests w) /\ req_Namespace r = ns /\ req_Name r = name /\
                req_Phase r = DeleteBackupRequestPhaseProcessed /\
                (req_CreationTimestamp r <= now - 24 * 3600)%Z) /\
  (forall e, In e t ->
      exists r, In r (requests w) /\ isExpired now r = true /\
                e = Call (DeleteRequest (req_Namespace r) (req_Name r))
                      (failDelete (req_Namespace r) (req_Name r))) /\
  (forall r, In r (requests w) -> NoDup (requestKeys w) ->
      req_Phase r <> DeleteBackupRequestPhaseProcessed \/
      (now - 24 * 3600 < req_CreationTimestamp r)%Z ->
      In r (requests w')) /\
  (forall r, In r (requests w) -> isExpired now r = true ->
      failDelete (req_Namespace r) (req_Name r) = None ->
      ~ In r (requests w')) /\
  (forall r, In r (requests w') -> In r (requests w)).
Proof.
  intros t w'. unfold t, w'. clear t w'.
  rewrite eventsOf_deleteExpiredRequests, deleteExpiredRequests_run.
  cbn [snd]. unfold afterSweep. cbn [requests].
  split; [|split; [|split; [|split]]].
  - intros ns name. split.
    + intros [err H]. apply list_elem_of_In in H. unfold sweepEvents in H.
      apply in_map_iff in H as (r & H & Hr). injection H as <- <- _.
      apply filter_In in Hr as [Hr He]. apply isExpired_true in He as [? ?].
      by exists r.
    + intros (r & Hr & <- & <- & Hp & Hc).
      exists (failDelete (req_Namespace r) (req_Name r)).
      apply list_elem_of_In. unfold sweepEvents.
      apply in_map_iff. exists r. split; [done|].
      apply filter_In. split; [done|]. by apply isExpired_true.
  - intros e H. unfold sweepEvents in H.
    apply in_map_iff in H as (r & <- & Hr).
    apply filter_In in Hr as [Hr He]. by exists r.
  - intros r Hr Hnd Hne. apply In_removeRequests. split; [done|].
    intros x Hx. unfold swept in Hx. apply filter_In in Hx as [Hx He].
    apply andb_prop in He as [He _]. apply isExpired_true in He as [Hp Hc].
    apply not_true_iff_false. intros Hs. apply sameRequest_true in Hs as [H1 H2].
    assert (x = r) as ->.
    { apply (DeletionFacts.In_keys_inj
               (fun r => (req_Namespace r, req_Name r)) (requests w));
        try done. by rewrite H1, H2. }
    destruct Hne as [Hne|Hne]; [done | lia].
  - intros r Hr He Hf H. apply In_removeRequests in H as [_ H].
    specialize (H r).
    rewrite (proj2 (sameRequest_true _ _ r)) in H by done.
    assert (true = false); [|done]. apply H. unfold swept.
    apply filter_In. split; [done|]. by rewrite He, Hf.
  - intros r H. by apply In_removeRequests in H as [H _].
Qed.

(** "some expired, some not": the request created exactly 24 hours before
    [now] is deleted. *)
Lemma sweeper_deletes_expired_processed_witness :
  attempted (DeleteRequest "ns" "expired-1")
    (eventsOf (deleteExpiredRequests neverFails now) (sweepWorld someExpired)).
Proof.
  apply (proj2 (proj1 (sweeper_deletes_expired_processed neverFails now
                         (sweepWorld someExpired)) "ns" "expired-1")).
  exists (sweepReq "expired-1" expired1 DeleteBackupRequestPhaseProcessed).
  split; [simpl; tauto|]. repeat split. by vm_compute.
Defined.

(** ** The cases of [TestBackupDeletionControllerDeleteExpiredRequests] *)

Lemma test_sweep_no_requests :
  clientActions (eventsOf (deleteExpiredRequests neverFails now) (sweepWorld []))
  = [].
Proof. vm_compute. reflexivity. Qed.

Lemma test_sweep_old_unprocessed :
  Forall
    (fun phase =>
       clientActions
         (eventsOf (deleteExpiredRequests neverFails now)
            (sweepWorld (oldUnprocessed phase))) = [])
    [PhaseUnset; DeleteBackupRequestPhaseNew; DeleteBackupRequestPhaseInProgress].
Proof. repeat constructor. Qed.

Lemma test_sweep_some_expired :
  clientActions
    (eventsOf (deleteExpiredRequests neverFails now) (sweepWorld someExpired))
  = someExpired_expected /\
  List.map req_Name
    (requests (snd (deleteExpiredRequests neverFails now (sweepWorld someExpired))))
  = ["unexpired-1"; "unexpired-2"].
Proof. split; vm_compute; reflexivity. Qed.

(** The boundary: created exactly 24 hours before [now] is expired, one
    second later is not. *)
Lemma test_sweep_boundary :
  expired1 = (now - 24 * 3600)%Z /\ unexpired2 = (now - 24 * 3600 + 1)%Z /\
  isExpired now (sweepReq "expired-1" expired1 DeleteBackupRequestPhaseProcessed)
  = true /\
  isExpired now (sweepReq "unexpired-2" unexpired2 DeleteBackupRequestPhaseProcessed)
  = false.
Proof. repeat split; vm_compute; reflexivity. Qed.

End SweeperFacts.

(* ===================================================================== *)
(** * Properties of the factory's clients                                 *)
(* ===================================================================== *)
Module ClientFacts.

Import Factory Clients.

Section Facts.

Context {URL : Type}.
Variable url_Parse : string -> option URL * option string.
Variable Config : string -> string -> string -> Z -> Z -> result (restConfig URL).
Variable RESTConfigFromKubeConfig : string -> result (restConfig URL).
Variable kubernetes_NewForConfig : restConfig URL -> result unit.
Variable clientset_NewForConfig : restConfig URL -> result unit.
Variable dynamic_NewForConfig : restConfig URL -> result unit.
Variable kbclient_New : restConfig URL -> result unit.

Local Abbreviation KubeClient := (KubeClient Config kubernetes_NewForConfig).
Local Abbreviation ClientConfig := (ClientConfig Config).
Local Abbreviation credsFromSecret :=
  (serviceAcctCredsFromSecret Config kubernetes_NewForConfig).
Local Abbreviation roleClientConfig :=
  (roleClientConfig url_Parse Config RESTConfigFromKubeConfig
     kubernetes_NewForConfig).
Local Abbreviation configFromCreds :=
  (configFromCreds url_Parse RESTConfigFromKubeConfig).
Local Abbreviation run :=
  (run url_Parse Config RESTConfigFromKubeConfig kubernetes_NewForConfig).

(** *** A call, in one equation *)

Lemma role_call r f c items :
  KubeClient f = Ok tt -> c (namespace f) = Ok items ->
  roleClientConfig r f c =
  match resolveCreds items (roleSecretName r) with
  | Some cr =>
      (setRoleHost r (host cr) (retainProxy (creds_httpsProxy cr) f),
       configFromCreds
         (setRoleHost r (host cr) (retainProxy (creds_httpsProxy cr) f)) cr)
  | None => (f, ClientConfig f)
  end.
Proof.
  intros Hk Hc.
  pose proof (FactoryFacts.credsFromSecret_read Config kubernetes_NewForConfig
                f c) as Hread.
  unfold resolveCreds, usableCreds.
  destruct r; simpl;
    unfold Factory.SourceClientConfig, Factory.DestinationClientConfig;
    rewrite (Hread remoteClusterSecretName items Hk Hc);
    (destruct (findSecret items remoteClusterSecretName) as [s|];
     [ destruct (decide (credsOfSecret s = noCreds)) as [E|E];
       [ rewrite (FactoryFacts.retainProxy_noCreds _ _ E) | ]
     | ]);
    cbv beta iota;
    try rewrite (decide_True (P := noCreds = noCreds)) by done;
    try (rewrite (Hread _ items Hk Hc);
         match goal with
         | |- context [findSecret ?i ?n] =>
             let s' := fresh "s" in
             let E' := fresh "E" in
             destruct (findSecret i n) as [s'|];
             [ destruct (decide (credsOfSecret s' = noCreds)) as [E'|E'];
               [ rewrite (FactoryFacts.retainProxy_noCreds _ _ E') | ]
             | ];
             cbv beta iota;
             try rewrite (decide_True (P := noCreds = noCreds)) by done
         end);
    try done;
    unfold Factory.configFromCreds;
    by repeat case_decide.
Qed.


Lemma role_call_unreachable r f c e :
  KubeClient f = Err e -> roleClientConfig r f c = (f, Err e).
Proof.
  intros H.
  destruct r; simpl;
    unfold Factory.SourceClientConfig, Factory.DestinationClientConfig,
      serviceAcctCredsFromSecret;
    by rewrite H.
Qed.

Lemma role_call_unlisted r f c e :
  KubeClient f = Ok tt -> c (namespace f) = Err e ->
  roleClientConfig r f c = (f, Err e).
Proof.
  intros Hk Hc.
  destruct r; simpl;
    unfold Factory.SourceClientConfig, Factory.DestinationClientConfig,
      serviceAcctCredsFromSecret;
    by rewrite Hk, Hc.
Qed.

(** *** What a call changes of the factory *)

Lemma sameSettings_setRoleHost r h f : sameSettings f (setRoleHost r h f).
Proof. destruct r; by repeat split. Qed.

Lemma httpsProxy_setRoleHost r h f :
  httpsProxy (setRoleHost r h f) = httpsProxy f.
Proof. by destruct r. Qed.

Lemma sameSettings_recorded r h p f :
  sameSettings f (setRoleHost r h (retainProxy p f)).
Proof.
  eapply FactoryFacts.sameSettings_trans;
    [apply FactoryFacts.sameSettings_retainProxy
    |apply sameSettings_setRoleHost].
Qed.

Lemma httpsProxy_retained p f :
  httpsProxy (retainProxy p f) = httpsProxy f \/
  (httpsProxy f = "" /\ p <> "" /\ httpsProxy (retainProxy p f) = p).
Proof. unfold retainProxy. repeat case_decide; auto. Qed.

Lemma recorded_twice r h p f :
  setRoleHost r h (retainProxy p (setRoleHost r h (retainProxy p f)))
  = setRoleHost r h (retainProxy p f).
Proof.
  destruct f as [kc kx sh dh bn ns q b hp pp], r;
    unfold retainProxy, set_httpsProxy, set_srcClusterHost,
      set_destClusterHost; simpl;
    (destruct (decide (hp = "")) as [E|E]; simpl;
     [destruct (decide (p = "")) as [Ep|Ep]; simpl|]);
    rewrite ?decide_True, ?decide_False by done; done.
Qed.

Lemma configFromCreds_proxy f g cr :
  httpsProxy f = httpsProxy g -> configFromCreds f cr = configFromCreds g cr.
Proof.
  intros H.
  unfold Factory.configFromCreds, restConfigWithSAToken,
    restConfigWithKubeConfig.
  by rewrite H.
Qed.

Lemma local_clients_sameSettings f g :
  sameSettings f g ->
  Client Config clientset_NewForConfig g = Client Config clientset_NewForConfig f /\
  DynamicClient Config dynamic_NewForConfig g
  = DynamicClient Config dynamic_NewForConfig f /\
  KubebuilderClient Config kbclient_New g = KubebuilderClient Config kbclient_New f.
Proof.
  intros S. unfold Client, DynamicClient, KubebuilderClient.
  by rewrite (FactoryFacts.ClientConfig_sameSettings Config f g S).
Qed.

(** *** Where resolved credentials come from *)

Lemma In_findSecret items name s :
  findSecret items name = Some s -> In s items /\ secret_Name s = name.
Proof.
  unfold findSecret. intros H. apply List.find_some in H as [Hi Hn].
  split; [done|]. by apply bool_decide_eq_true_1 in Hn.
Qed.

Lemma usableCreds_Some items name cr :
  usableCreds items name = Some cr ->
  exists s, In s items /\ secret_Name s = name /\ cr = credsOfSecret s.
Proof.
  unfold usableCreds. destruct (findSecret items name) as [s|] eqn:E; [|done].
  case_decide; [done|]. intros [= <-]. exists s.
  destruct (In_findSecret _ _ _ E). by repeat split.
Qed.

Lemma resolveCreds_Some items name cr :
  resolveCreds items name = Some cr ->
  exists s, In s items /\ In (secret_Name s) [remoteClusterSecretName; name] /\
    cr = credsOfSecret s.
Proof.
  unfold resolveCreds.
  destruct (usableCreds items remoteClusterSecretName) as [cr'|] eqn:E.
  - intros [= <-]. destruct (usableCreds_Some _ _ _ E) as (s & ? & <- & ?).
    exists s. repeat split; [done | by left | done].
  - intros H. destruct (usableCreds_Some _ _ _ H) as (s & ? & <- & ?).
    exists s. repeat split; [done | by right; left | done].
Qed.

Lemma proxy_after_call r f c :
  httpsProxy (fst (roleClientConfig r f c)) = httpsProxy f \/
  exists items s,
    c (namespace f) = Ok items /\ In s items /\
    In (secret_Name s) [remoteClusterSecretName; roleSecretName r] /\
    dataField s "https_proxy" = httpsProxy (fst (roleClientConfig r f c)).
Proof.
  destruct (KubeClient f) as [[]|e] eqn:Hk;
    [|left; by rewrite (role_call_unreachable r f c e Hk)].
  destruct (c (namespace f)) as [items|e] eqn:Hc;
    [|left; by rewrite (role_call_unlisted r f c e Hk Hc)].
  rewrite (role_call r f c items Hk Hc).
  destruct (resolveCreds items (roleSecretName r)) as [cr|] eqn:Hr;
    [|by left].
  simpl. rewrite httpsProxy_setRoleHost.
  destruct (httpsProxy_retained (creds_httpsProxy cr) f) as [H|(_ & _ & H)];
    [by left|].
  right. destruct (resolveCreds_Some _ _ _ Hr) as (s & Hi & Hn & ->).
  exists items, s. by rewrite H.
Qed.

(** *** The properties *)

(** X1. The namespace of a new factory: the configuration file's
    namespace when it names one, else the environment variable
    [VELERO_NAMESPACE] when it is set, else "velero"; it is never empty,
    and no sequence of source and destination calls changes it. *)
Theorem new_factory_namespace (baseName env cfg : string) (ks : list call) :
  namespace (NewFactory baseName env cfg) =
    (if decide (cfg = "") then
       if decide (env = "") then DefaultNamespace else env
     else cfg) /\
  Namespace (run (NewFactory baseName env cfg) ks)
  = namespace (NewFactory baseName env cfg) /\
  Namespace (run (NewFactory baseName env cfg) ks) <> "".
Proof.
  assert (E : namespace (NewFactory baseName env cfg) =
              (if decide (cfg = "") then
                 if decide (env = "") then DefaultNamespace else env
               else cfg))
    by (unfold NewFactory; simpl; by repeat case_decide).
  destruct (FactoryFacts.keeps_run url_Parse Config RESTConfigFromKubeConfig
              kubernetes_NewForConfig (NewFactory baseName env cfg) ks)
    as [(_ & _ & _ & Hns & _) _].
  split; [done|]. unfold Namespace. rewrite <- Hns. split; [done|].
  rewrite E. by repeat case_decide.
Qed.

(** X2. Source and destination calls never change how the local cluster
    is reached: after any sequence of them [ClientConfig], [KubeClient],
    [Client], [DynamicClient] and [KubebuilderClient] answer what they
    answered before. *)
Theorem local_clients_unaffected (f : factory) (ks : list call) :
  ClientConfig (run f ks) = ClientConfig f /\
  KubeClient (run f ks) = KubeClient f /\
  Client Config clientset_NewForConfig (run f ks)
  = Client Config clientset_NewForConfig f /\
  DynamicClient Config dynamic_NewForConfig (run f ks)
  = DynamicClient Config dynamic_NewForConfig f /\
  KubebuilderClient Config kbclient_New (run f ks)
  = KubebuilderClient Config kbclient_New f.
Proof.
  destruct (FactoryFacts.keeps_run url_Parse Config RESTConfigFromKubeConfig
              kubernetes_NewForConfig f ks) as [S _].
  split; [by apply FactoryFacts.ClientConfig_sameSettings|].
  split; [by apply FactoryFacts.KubeClient_sameSettings|].
  by apply local_clients_sameSettings.
Qed.

(** X3. The hosts a factory reports.  A source (destination) call made
    while the local cluster answers records the "host" field of the
    secret it resolved as [SrcClusterHost] ([DestClusterHost]), whichever
    shape the configuration takes and whether or not it could be built;
    when no secret is resolved the host recorded by an earlier call
    stays.  The host of the other role is never touched. *)
Theorem cluster_host_bookkeeping (r : role) (f : factory) (c : cluster)
    (items : list Secret) :
  KubeClient f = Ok tt ->
  c (namespace f) = Ok items ->
  roleHost r (fst (roleClientConfig r f c)) =
    match resolveCreds items (roleSecretName r) with
    | Some cr => host cr
    | None => roleHost r f
    end /\
  roleHost (otherRole r) (fst (roleClientConfig r f c))
  = roleHost (otherRole r) f.
Proof.
  intros Hk Hc. rewrite (role_call r f c items Hk Hc).
  destruct (resolveCreds items (roleSecretName r)) as [cr|]; [|done].
  simpl. unfold retainProxy.
  destruct r; simpl; by repeat case_decide.
Qed.

(** X4. Nothing remote is tried when the local cluster fails.  When the
    local kube client cannot be built, or the secrets of the factory's
    namespace cannot be listed, the source and destination configuration
    and all six remote clients fail with that very error, and the
    factory is left as it was: no host recorded, no proxy taken. *)
Theorem local_failure_blocks_remote (r : role) (f : factory) (c : cluster)
    (e : string) :
  KubeClient f = Err e \/ (KubeClient f = Ok tt /\ c (namespace f) = Err e) ->
  roleClientConfig r f c = (f, Err e) /\
  roleClient url_Parse Config RESTConfigFromKubeConfig kubernetes_NewForConfig
    clientset_NewForConfig r f c = (f, Err e) /\
  roleKubeClient url_Parse Config RESTConfigFromKubeConfig
    kubernetes_NewForConfig r f c = (f, Err e) /\
  roleDynamicClient url_Parse Config RESTConfigFromKubeConfig
    kubernetes_NewForConfig dynamic_NewForConfig r f c = (f, Err e).
Proof.
  intros H.
  assert (E : roleClientConfig r f c = (f, Err e)).
  { destruct H as [H|[Hk Hc]];
      [by apply role_call_unreachable | by apply role_call_unlisted]. }
  split; [done|].
  destruct r; simpl in *;
    unfold SourceClient, DestinationClient, SourceKubeClient,
      DestinationKubeClient, SourceDynamicClient, DestinationDynamicClient;
    by rewrite E.
Qed.

(** X5. Resolution is idempotent: a source (destination) call repeated
    against the same cluster returns the same configuration or error and
    leaves the factory exactly as the first call left it. *)
Theorem resolution_idempotent (r : role) (f : factory) (c : cluster) :
  roleClientConfig r (fst (roleClientConfig r f c)) c = roleClientConfig r f c.
Proof.
  destruct (KubeClient f) as [[]|e] eqn:Hk.
  - destruct (c (namespace f)) as [items|e] eqn:Hc.
    + rewrite (role_call r f c items Hk Hc).
      destruct (resolveCreds items (roleSecretName r)) as [cr|] eqn:Hr; simpl.
      * pose proof (sameSettings_recorded r (host cr) (creds_httpsProxy cr) f)
          as S.
        pose proof S as (_ & _ & _ & Hns & _).
        rewrite (role_call r _ c items), Hr.
        -- by rewrite recorded_twice.
        -- by rewrite (FactoryFacts.KubeClient_sameSettings _ _ _ _ S).
        -- by rewrite <- Hns.
      * by rewrite (role_call r f c items Hk Hc), Hr.
    + rewrite (role_call_unlisted r f c e Hk Hc). simpl.
      by apply role_call_unlisted.
  - rewrite (role_call_unreachable r f c e Hk). simpl.
    by apply role_call_unreachable.
Qed.

(** X6. [SetBasename], [SetClientQPS] and [SetClientBurst] do not reach
    a remote cluster: a configuration built from secret credentials is
    the same whatever these setters were given, and in the token shape
    its QPS is 100 and its burst 1000. *)
Theorem client_settings_ignored_for_remote (r : role) (f : factory)
    (c : cluster) (items : list Secret) (cr : serviceAcctCreds)
    (name : string) (qps burst : Z) :
  KubeClient f = Ok tt ->
  KubeClient (SetClientBurst burst (SetClientQPS qps (SetBasename name f)))
  = Ok tt ->
  c (namespace f) = Ok items ->
  resolveCreds items (roleSecretName r) = Some cr ->
  snd (roleClientConfig r
         (SetClientBurst burst (SetClientQPS qps (SetBasename name f))) c)
  = snd (roleClientConfig r f c) /\
  (creds_kubeconfig cr = "" ->
   exists cfg,
     snd (roleClientConfig r
            (SetClientBurst burst (SetClientQPS qps (SetBasename name f))) c)
     = Ok cfg /\ QPS cfg = 100%Z /\ Burst cfg = 1000%Z).
Proof.
  intros Hk Hk' Hc Hr.
  set (g := SetClientBurst burst (SetClientQPS qps (SetBasename name f))) in *.
  assert (Hns : namespace g = namespace f) by done.
  assert (Hp : httpsProxy g = httpsProxy f) by done.
  rewrite (role_call r f c items Hk Hc), Hr.
  rewrite (role_call r g c items Hk') by (by rewrite Hns).
  rewrite Hr. simpl.
  assert (Hp' : httpsProxy
                  (setRoleHost r (host cr) (retainProxy (creds_httpsProxy cr) g))
                = httpsProxy
                    (setRoleHost r (host cr)
                       (retainProxy (creds_httpsProxy cr) f))).
  { rewrite !httpsProxy_setRoleHost. unfold retainProxy. rewrite Hp.
    by repeat case_decide. }
  split; [by apply configFromCreds_proxy|].
  intros Hkc. unfold Factory.configFromCreds, restConfigWithSAToken.
  rewrite decide_True by done. case_decide; eexists; by repeat split.
Qed.

(** X7. The shared secret serves both roles: when "remotecluster" is
    listed with a non-empty field, the source call and the destination
    call made on the same factory return the same configuration and
    record the same host. *)
Theorem shared_secret_serves_both_roles (f : factory) (c : cluster)
    (items : list Secret) (cr : serviceAcctCreds) :
  KubeClient f = Ok tt ->
  c (namespace f) = Ok items ->
  usableCreds items remoteClusterSecretName = Some cr ->
  snd (roleClientConfig Source f c) = snd (roleClientConfig Destination f c) /\
  SrcClusterHost (fst (roleClientConfig Source f c))
  = DestClusterHost (fst (roleClientConfig Destination f c)).
Proof.
  intros Hk Hc Hu.
  rewrite (role_call Source f c items Hk Hc),
    (role_call Destination f c items Hk Hc).
  unfold resolveCreds. rewrite Hu. simpl. split.
  - by apply configFromCreds_proxy.
  - unfold retainProxy. by repeat case_decide.
Qed.

(** X8. Where a factory's https proxy comes from: after any sequence of
    source and destination calls it is either the proxy the factory
    started with or the "https_proxy" field of a secret named
    "remotecluster" or after the call's role, listed in the factory's
    namespace at one of the calls.  It is never made up. *)
Theorem https_proxy_provenance (f : factory) (ks : list call) :
  httpsProxy (run f ks) = httpsProxy f \/
  exists k items s,
    In k ks /\ callCluster k (namespace f) = Ok items /\ In s items /\
    In (secret_Name s) [remoteClusterSecretName; roleSecretName (callRole k)] /\
    dataField s "https_proxy" = httpsProxy (run f ks).
Proof.
  revert f. induction ks as [|k ks IH]; intros f; [by left|].
  simpl.
  set (f1 := step url_Parse Config RESTConfigFromKubeConfig
               kubernetes_NewForConfig f k).
  assert (Hstep : f1 = fst (roleClientConfig (callRole k) f (callCluster k)))
    by (by destruct k).
  assert (Hns : namespace f1 = namespace f).
  { rewrite Hstep.
    destruct (FactoryFacts.keeps_role url_Parse Config RESTConfigFromKubeConfig
                kubernetes_NewForConfig (callRole k) f (callCluster k))
      as [(_ & _ & _ & H & _) _].
    done. }
  destruct (IH f1) as [H|(k' & items & s & Hi & Hc & Hs & Hn & Hd)].
  - rewrite H.
    destruct (proxy_after_call (callRole k) f (callCluster k))
      as [H1|(items & s & Hc & Hs & Hn & Hd)].
    + left. by rewrite Hstep.
    + right. exists k, items, s. rewrite Hstep.
      repeat split; [by left | done..].
  - right. exists k', items, s. rewrite <- Hns.
    repeat split; [by right | done..].
Qed.

(** *** Secrets of other names *)

Lemma findSecret_filter (p : Secret -> bool) items name :
  (forall s, secret_Name s = name -> p s = true) ->
  findSecret (List.filter p items) name = findSecret items name.
Proof.
  intros Hp. unfold findSecret.
  induction items as [|s items IH]; simpl; [done|].
  destruct (p s) eqn:E; simpl.
  - by rewrite IH.
  - rewrite IH. case_bool_decide as Hn; [|done].
    rewrite (Hp s Hn) in E. done.
Qed.

Lemma resolveCreds_relevant r items :
  resolveCreds (List.filter (lookedFor r) items) (roleSecretName r)
  = resolveCreds items (roleSecretName r).
Proof.
  unfold resolveCreds, usableCreds.
  rewrite !findSecret_filter; [done|..];
    intros s Hs; unfold lookedFor; rewrite Hs;
    apply orb_true_iff;
    first [left; by apply bool_decide_eq_true_2
          |right; by apply bool_decide_eq_true_2].
Qed.

(** *** A call on a factory that has a proxy *)

Lemma call_with_proxy r f c :
  httpsProxy f <> "" ->
  exists (o : option string) (res : result (restConfig URL)),
    forall g, sameSettings f g -> httpsProxy g = httpsProxy f ->
      roleClientConfig r g c =
      (match o with Some h => setRoleHost r h g | None => g end, res).
Proof.
  intros Hp.
  destruct (KubeClient f) as [[]|e] eqn:Hk.
  - destruct (c (namespace f)) as [items|e] eqn:Hc.
    + destruct (resolveCreds items (roleSecretName r)) as [cr|] eqn:Hr.
      * exists (Some (host cr)), (configFromCreds f cr). intros g S Hg.
        pose proof S as (_ & _ & _ & Hns & _).
        rewrite (role_call r g c items), Hr.
        -- rewrite (FactoryFacts.httpsProxy_retainProxy _ g)
             by (by rewrite Hg).
           f_equal. apply configFromCreds_proxy.
           by rewrite httpsProxy_setRoleHost.
        -- by rewrite (FactoryFacts.KubeClient_sameSettings _ _ _ _ S).
        -- by rewrite <- Hns.
      * exists None, (ClientConfig f). intros g S Hg.
        pose proof S as (_ & _ & _ & Hns & _).
        rewrite (role_call r g c items), Hr.
        -- by rewrite (FactoryFacts.ClientConfig_sameSettings _ _ _ S).
        -- by rewrite (FactoryFacts.KubeClient_sameSettings _ _ _ _ S).
        -- by rewrite <- Hns.
    + exists None, (Err e). intros g S Hg.
      pose proof S as (_ & _ & _ & Hns & _).
      apply role_call_unlisted.
      * by rewrite (FactoryFacts.KubeClient_sameSettings _ _ _ _ S).
      * by rewrite <- Hns.
  - exists None, (Err e). intros g S Hg.
    apply role_call_unreachable.
    by rewrite (FactoryFacts.KubeClient_sameSettings _ _ _ _ S).
Qed.

Lemma sameSettings_recordedHost r (o : option string) f :
  sameSettings f (match o with Some h => setRoleHost r h f | None => f end) /\
  httpsProxy (match o with Some h => setRoleHost r h f | None => f end)
  = httpsProxy f.
Proof.
  destruct o; [|split; [apply FactoryFacts.sameSettings_refl | done]].
  split; [apply sameSettings_setRoleHost | apply httpsProxy_setRoleHost].
Qed.

(** X9. A call looks at two secrets only: the source call at
    "remotecluster" and "srccluster", the destination call at
    "remotecluster" and "destcluster".  Whatever else the namespace
    holds, the other role's secret included, changes neither the
    configuration or error returned nor the factory. *)
Theorem other_secrets_ignored (r : role) (f : factory) (c : cluster) :
  roleClientConfig r f (relevantSecrets r c) = roleClientConfig r f c.
Proof.
  destruct (KubeClient f) as [[]|e] eqn:Hk.
  - destruct (c (namespace f)) as [items|e] eqn:Hc.
    + rewrite (role_call r f c items Hk Hc).
      rewrite (role_call r f (relevantSecrets r c)
                 (List.filter (lookedFor r) items) Hk)
        by (unfold relevantSecrets; by rewrite Hc).
      by rewrite resolveCreds_relevant.
    + rewrite (role_call_unlisted r f c e Hk Hc).
      apply role_call_unlisted; [done|].
      unfold relevantSecrets. by rewrite Hc.
  - rewrite (role_call_unreachable r f c e Hk).
    by apply role_call_unreachable.
Qed.

(** X10. On a factory that already has an https proxy, the source call
    and the destination call do not influence each other: made in either
    order they return the same configurations and leave the same
    factory. *)
Theorem calls_commute_under_a_proxy (f : factory) (cs cd : cluster) :
  httpsProxy f <> "" ->
  run f [CallSource cs; CallDestination cd]
  = run f [CallDestination cd; CallSource cs] /\
  snd (roleClientConfig Source (fst (roleClientConfig Destination f cd)) cs)
  = snd (roleClientConfig Source f cs) /\
  snd (roleClientConfig Destination (fst (roleClientConfig Source f cs)) cd)
  = snd (roleClientConfig Destination f cd).
Proof.
  intros Hp.
  destruct (call_with_proxy Source f cs Hp) as (oS & resS & HS).
  destruct (call_with_proxy Destination f cd Hp) as (oD & resD & HD).
  pose proof (HS f (FactoryFacts.sameSettings_refl f) eq_refl) as S0.
  pose proof (HD f (FactoryFacts.sameSettings_refl f) eq_refl) as D0.
  destruct (sameSettings_recordedHost Source oS f) as [SS PS].
  destruct (sameSettings_recordedHost Destination oD f) as [SD PD].
  pose proof (HD _ SS PS) as D1. pose proof (HS _ SD PD) as S1.
  simpl in S0, D0, S1, D1 |- *.
  unfold step. rewrite S0, D0. simpl. rewrite S1, D1. simpl.
  repeat split. by destruct oS, oD, f.
Qed.

End Facts.

(** *** The properties at work on the concrete environment *)

Lemma cluster_host_bookkeeping_witness :
  KubeClient exConfig exNewForConfig exFactory = Ok tt /\
  exCluster [exTokenSecret "srccluster"] (namespace exFactory)
  = Ok [exTokenSecret "srccluster"] /\
  SrcClusterHost
    (fst (roleClientConfig exParse exConfig exFromKubeConfig exNewForConfig
            Source exFactory (exCluster [exTokenSecret "srccluster"])))
  = "https://remote.example" /\
  DestClusterHost
    (fst (roleClientConfig exParse exConfig exFromKubeConfig exNewForConfig
            Source exFactory (exCluster [exTokenSecret "srccluster"])))
  = "".
Proof.
  split; [reflexivity|]. split; [reflexivity|].
  exact (cluster_host_bookkeeping exParse exConfig exFromKubeConfig
           exNewForConfig Source exFactory
           (exCluster [exTokenSecret "srccluster"])
           [exTokenSecret "srccluster"] eq_refl eq_refl).
Defined.

Lemma local_failure_blocks_remote_witness :
  KubeClient exNoConfig exNewForConfig exFactory
  = Err "invalid configuration: no configuration has been provided" /\
  roleKubeClient exParse exNoConfig exFromKubeConfig exNewForConfig Destination
    exFactory (exCluster [exKubeconfigSecret "destcluster"])
  = (exFactory,
     Err "invalid configuration: no configuration has been provided").
Proof.
  split; [reflexivity|].
  exact (proj1 (proj2 (proj2
           (local_failure_blocks_remote exParse exNoConfig exFromKubeConfig
              exNewForConfig exNewClient exNewClient Destination exFactory
              (exCluster [exKubeconfigSecret "destcluster"])
              "invalid configuration: no configuration has been provided"
              (or_introl eq_refl))))).
Defined.

Lemma client_settings_ignored_for_remote_witness :
  KubeClient exConfig exNewForConfig exFactory = Ok tt /\
  exCluster [exTokenSecret "remotecluster"] (namespace exFactory)
  = Ok [exTokenSecret "remotecluster"] /\
  snd (roleClientConfig exParse exConfig exFromKubeConfig exNewForConfig Source
         (SetClientBurst 30 (SetClientQPS 20 (SetBasename "restic-server"
            exFactory)))
         (exCluster [exTokenSecret "remotecluster"]))
  = snd (roleClientConfig exParse exConfig exFromKubeConfig exNewForConfig
           Source exFactory (exCluster [exTokenSecret "remotecluster"])).
Proof.
  split; [reflexivity|]. split; [reflexivity|].
  exact (proj1
           (client_settings_ignored_for_remote exParse exConfig exFromKubeConfig
              exNewForConfig Source exFactory
              (exCluster [exTokenSecret "remotecluster"])
              [exTokenSecret "remotecluster"]
              (credsOfSecret (exTokenSecret "remotecluster"))
              "restic-server" 20 30 eq_refl eq_refl eq_refl eq_refl)).
Defined.

Lemma shared_secret_serves_both_roles_witness :
  usableCreds [exKubeconfigSecret "remotecluster"; exTokenSecret "srccluster"]
    remoteClusterSecretName
  = Some (credsOfSecret (exKubeconfigSecret "remotecluster")) /\
  snd (roleClientConfig exParse exConfig exFromKubeConfig exNewForConfig Source
         exFactory
         (exCluster [exKubeconfigSecret "remotecluster";
                     exTokenSecret "srccluster"]))
  = snd (roleClientConfig exParse exConfig exFromKubeConfig exNewForConfig
           Destination exFactory
           (exCluster [exKubeconfigSecret "remotecluster";
                       exTokenSecret "srccluster"])).
Proof.
  split; [reflexivity|].
  exact (proj1
           (shared_secret_serves_both_roles exParse exConfig exFromKubeConfig
              exNewForConfig exFactory
              (exCluster [exKubeconfigSecret "remotecluster";
                          exTokenSecret "srccluster"])
              [exKubeconfigSecret "remotecluster"; exTokenSecret "srccluster"]
              (credsOfSecret (exKubeconfigSecret "remotecluster"))
              eq_refl eq_refl eq_refl)).
Defined.

Lemma calls_commute_under_a_proxy_witness :
  httpsProxy (flag_httpsproxy "http://flag-proxy" exFactory) <> "" /\
  run exParse exConfig exFromKubeConfig exNewForConfig
    (flag_httpsproxy "http://flag-proxy" exFactory)
    [CallSource (exCluster [exTokenSecret "srccluster"]);
     CallDestination (exCluster [exKubeconfigSecret "destcluster"])]
  = run exParse exConfig exFromKubeConfig exNewForConfig
      (flag_httpsproxy "http://flag-proxy" exFactory)
      [CallDestination (exCluster [exKubeconfigSecret "destcluster"]);
       CallSource (exCluster [exTokenSecret "srccluster"])].
Proof.
  assert (H : httpsProxy (flag_httpsproxy "http://flag-proxy" exFactory) <> "")
    by discriminate.
  exact (conj H
           (proj1 (calls_commute_under_a_proxy exParse exConfig exFromKubeConfig
                     exNewForConfig
                     (flag_httpsproxy "http://flag-proxy" exFactory)
                     (exCluster [exTokenSecret "srccluster"])
                     (exCluster [exKubeconfigSecret "destcluster"]) H))).
Defined.

End ClientFacts.

(* ===================================================================== *)
(** * Properties of the restic server                                     *)
(* ===================================================================== *)
Module ResticFacts.

Import Factory Clients Restic.

(** *** The two loops of the validation *)

Lemma elem_of_foldl_dirs (files : list FileInfo) (acc : gset string)
    (n : string) :
  n ∈ foldl (fun dirs f => if file_IsDir f then {[ file_Name f ]} ∪ dirs
                           else dirs) acc files <->
  n ∈ acc \/
  exists file, In file files /\ file_IsDir file = true /\ file_Name file = n.
Proof.
  revert acc. induction files as [|f files IH]; intros acc; simpl.
  - split; [by left | intros [H|(? & [] & _)]; done].
  - rewrite IH. split.
    + intros [H|(file & Hi & Hd & Hn)].
      * destruct (file_IsDir f) eqn:Ef; [|by left].
        apply elem_of_union in H as [H|H]; [|by left].
        apply elem_of_singleton in H. right. exists f. by repeat split; [left|..].
      * right. exists file. by repeat split; [right|..].
    + intros [H|(file & [->|Hi] & Hd & Hn)].
      * left. destruct (file_IsDir f); [|done]. apply elem_of_union. by right.
      * left. rewrite Hd. apply elem_of_union. left.
        by apply elem_of_singleton.
      * right. by exists file.
Qed.

Lemma elem_of_dirNames (files : list FileInfo) (n : string) :
  n ∈ dirNames files <->
  exists file, In file files /\ file_IsDir file = true /\ file_Name file = n.
Proof.
  unfold dirNames. rewrite elem_of_foldl_dirs. split; [|by right].
  intros [H|H]; [|done]. by apply not_elem_of_empty in H.
Qed.

Lemma foldl_checkPod (dirs : gset string) (pods : list Pod) (valid : bool)
    (log : list LogLine) :
  foldl (checkPod dirs) (valid, log) pods =
  (valid && forallb (fun pod => bool_decide (podDirName pod ∈ dirs)) pods,
   log ++ List.map missingVolumes
            (List.filter (fun pod => negb (bool_decide (podDirName pod ∈ dirs)))
               pods)).
Proof.
  revert valid log. induction pods as [|pod pods IH]; intros valid log; simpl.
  - by rewrite andb_true_r, app_nil_r.
  - unfold checkPod at 2. simpl. case_decide as Hd.
    + rewrite IH, (bool_decide_eq_true_2 _ Hd). done.
    + rewrite IH, (bool_decide_eq_false_2 _ Hd). simpl.
      by rewrite andb_false_r, <- app_assoc.
Qed.

Lemma hasVolumes_true (files : list FileInfo) (pod : Pod) :
  hasVolumes files pod = true <->
  exists file,
    In file files /\ file_IsDir file = true /\ file_Name file = podDirName pod.
Proof.
  unfold hasVolumes. rewrite bool_decide_eq_true. apply elem_of_dirNames.
Qed.

Section Validation.

Context {URL : Type}.
Variable ReadDir : string -> result (list FileInfo).
Variable NODE_NAME : string.
Variable ListPods : restConfig URL -> string -> string -> result (list Pod).

Local Abbreviation validate :=
  (validatePodVolumesHostPath ReadDir NODE_NAME ListPods).

Lemma validate_run (s : resticServer URL) files pods :
  ReadDir podVolumesHostPath = Ok files ->
  ListPods (srcKubeClient s) "" (runningOnNode NODE_NAME) = Ok pods ->
  validate s =
  (List.map missingVolumes
     (List.filter (fun pod => negb (hasVolumes files pod)) pods),
   if forallb (hasVolumes files) pods then None else Some unexpectedStructure).
Proof.
  intros Hf Hp. unfold validatePodVolumesHostPath. rewrite Hf, Hp.
  rewrite foldl_checkPod. simpl. unfold hasVolumes.
  by destruct (forallb _ pods).
Qed.

(** X11. [validatePodVolumesHostPath], when the host path can be read and
    the pods can be listed, returns nil exactly when every listed pod
    has a directory in /host_pods/: an entry that is a directory and is
    named by the pod's mirror annotation when the pod has one, by the
    pod's UID otherwise.  A plain file of that name does not count, and
    neither does a directory named by the UID of a mirror pod.  Any other
    outcome is the one fixed error about the directory structure. *)
Theorem pod_volumes_validation (s : resticServer URL)
    (files : list FileInfo) (pods : list Pod) :
  ReadDir podVolumesHostPath = Ok files ->
  ListPods (srcKubeClient s) "" (runningOnNode NODE_NAME) = Ok pods ->
  (snd (validate s) = None <->
   forall pod, In pod pods ->
     exists file, In file files /\ file_IsDir file = true /\
                  file_Name file = podDirName pod) /\
  (snd (validate s) = None \/ snd (validate s) = Some unexpectedStructure).
Proof.
  intros Hf Hp. rewrite (validate_run s files pods Hf Hp). simpl.
  destruct (forallb (hasVolumes files) pods) eqn:E.
  - split; [|by left]. split; [|done]. intros _ pod Hi.
    rewrite List.forallb_forall in E. by apply hasVolumes_true, E.
  - split; [|by right]. split; [done|]. intros H.
    assert (forallb (hasVolumes files) pods = true); [|congruence].
    apply List.forallb_forall. intros pod Hi. by apply hasVolumes_true, H.
Qed.

(** X12. The validation reports every pod without a directory, not only
    the first: it logs one debug line for each such pod, in the order of
    the listing, naming the pod as namespace/name and the path as
    /host_pods/ followed by the directory looked for; and it fails
    exactly when it logged a line. *)
Theorem missing_volumes_logged (s : resticServer URL)
    (files : list FileInfo) (pods : list Pod) :
  ReadDir podVolumesHostPath = Ok files ->
  ListPods (srcKubeClient s) "" (runningOnNode NODE_NAME) = Ok pods ->
  fst (validate s) =
    List.map
      (fun pod =>
         mkLogLine (pod_Namespace pod +:+ "/" +:+ pod_Name pod)
           ("/host_pods/" +:+ podDirName pod)
           "could not find volumes for pod in host path")
      (List.filter (fun pod => negb (hasVolumes files pod)) pods) /\
  (snd (validate s) = None <-> fst (validate s) = []).
Proof.
  intros Hf Hp. rewrite (validate_run s files pods Hf Hp). simpl.
  split; [done|]. clear Hf Hp.
  induction pods as [|pod pods IH]; simpl; [done|].
  by destruct (hasVolumes files pod).
Qed.

End Validation.


Lemma forallb_incl {A} (p : A -> bool) (l l' : list A) :
  incl l' l -> forallb p l = true -> forallb p l' = true.
Proof.
  intros Hi H. rewrite List.forallb_forall in *. intros x Hx. by apply H, Hi.
Qed.

(** X13. More directories and fewer pods never hurt: a host path that
    passes the validation still passes after entries are added to
    /host_pods/ and after pods leave the node. *)
Theorem more_directories_never_hurt {URL : Type}
    (ReadDir ReadDir' : string -> result (list FileInfo)) (NODE_NAME : string)
    (ListPods ListPods' : restConfig URL -> string -> string
                          -> result (list Pod))
    (s : resticServer URL) (files files' : list FileInfo)
    (pods pods' : list Pod) :
  ReadDir podVolumesHostPath = Ok files ->
  ReadDir' podVolumesHostPath = Ok files' ->
  ListPods (srcKubeClient s) "" (runningOnNode NODE_NAME) = Ok pods ->
  ListPods' (srcKubeClient s) "" (runningOnNode NODE_NAME) = Ok pods' ->
  incl files files' ->
  incl pods' pods ->
  validatePodVolumesHostPath ReadDir NODE_NAME ListPods s = ([], None) ->
  validatePodVolumesHostPath ReadDir' NODE_NAME ListPods' s = ([], None).
Proof.
  intros Hf Hf' Hp Hp' Hfi Hpi.
  rewrite (validate_run ReadDir NODE_NAME ListPods s files pods Hf Hp).
  rewrite (validate_run ReadDir' NODE_NAME ListPods' s files' pods' Hf' Hp').
  destruct (forallb (hasVolumes files) pods) eqn:E; [|done]. intros _.
  assert (E' : forallb (hasVolumes files') pods' = true).
  { apply List.forallb_forall. intros pod Hi. apply hasVolumes_true.
    rewrite List.forallb_forall in E.
    destruct (proj1 (hasVolumes_true files pod) (E pod (Hpi pod Hi)))
      as (file & ? & ? & ?).
    exists file. repeat split; [by apply Hfi | done..]. }
  rewrite E'. f_equal.
  clear Hp'. induction pods' as [|pod pods' IH]; simpl; [done|].
  simpl in E'. apply andb_prop in E' as [E1 E2]. rewrite E1. simpl.
  apply IH; [|done]. intros x Hx. apply Hpi. by right.
Qed.

Section Server.

Context {URL : Type}.
Variable url_Parse : string -> option URL * option string.
Variable Config : string -> string -> string -> Z -> Z -> result (restConfig URL).
Variable RESTConfigFromKubeConfig : string -> result (restConfig URL).
Variable kubernetes_NewForConfig : restConfig URL -> result unit.
Variable clientset_NewForConfig : restConfig URL -> result unit.
Variable ctrl_NewManager : restConfig URL -> result unit.
Variable ReadDir : string -> result (list FileInfo).
Variable NODE_NAME : string.
Variable ListPods : restConfig URL -> string -> string -> result (list Pod).

Local Abbreviation KubeClient := (KubeClient Config kubernetes_NewForConfig).
Local Abbreviation ClientConfig := (ClientConfig Config).
Local Abbreviation SourceClientConfig :=
  (SourceClientConfig url_Parse Config RESTConfigFromKubeConfig
     kubernetes_NewForConfig).
Local Abbreviation DestinationClientConfig :=
  (DestinationClientConfig url_Parse Config RESTConfigFromKubeConfig
     kubernetes_NewForConfig).
Local Abbreviation SourceKubeClient :=
  (SourceKubeClient url_Parse Config RESTConfigFromKubeConfig
     kubernetes_NewForConfig).
Local Abbreviation DestinationKubeClient :=
  (DestinationKubeClient url_Parse Config RESTConfigFromKubeConfig
     kubernetes_NewForConfig).
Local Abbreviation configFromCreds :=
  (configFromCreds url_Parse RESTConfigFromKubeConfig).
Local Abbreviation validate :=
  (validatePodVolumesHostPath ReadDir NODE_NAME ListPods).
Local Abbreviation newResticServer :=
  (newResticServer url_Parse Config RESTConfigFromKubeConfig
     kubernetes_NewForConfig clientset_NewForConfig ctrl_NewManager ReadDir
     NODE_NAME ListPods).
Local Abbreviation serverCommand :=
  (NewServerCommand_Run url_Parse Config RESTConfigFromKubeConfig
     kubernetes_NewForConfig clientset_NewForConfig ctrl_NewManager ReadDir
     NODE_NAME ListPods).

(** *** What a server that was built tells of the calls that built it *)

Lemma SourceKubeClient_Ok f c f1 cfg :
  SourceKubeClient f c = (f1, Ok cfg) -> SourceClientConfig f c = (f1, Ok cfg).
Proof.
  unfold Clients.SourceKubeClient, newForConfig.
  destruct (SourceClientConfig f c) as [g [x|e]]; [|done].
  destruct (kubernetes_NewForConfig x); [|done]. by intros [= <- <-].
Qed.

Lemma DestinationKubeClient_Ok f c f1 cfg :
  DestinationKubeClient f c = (f1, Ok cfg) ->
  DestinationClientConfig f c = (f1, Ok cfg).
Proof.
  unfold Clients.DestinationKubeClient, newForConfig.
  destruct (DestinationClientConfig f c) as [g [x|e]]; [|done].
  destruct (kubernetes_NewForConfig x); [|done]. by intros [= <- <-].
Qed.

Lemma Client_Ok f cfg :
  Client Config clientset_NewForConfig f = Ok cfg -> ClientConfig f = Ok cfg.
Proof.
  unfold Client, newForConfig. destruct (ClientConfig f) as [x|e]; [|done].
  destruct (clientset_NewForConfig x); [|done]. by intros [= <-].
Qed.

Lemma newResticServer_Ok f cs cd addr f' log s :
  newResticServer f cs cd addr = (f', log, Ok s) ->
  exists f1,
    SourceClientConfig f cs = (f1, Ok (srcKubeClient s)) /\
    DestinationClientConfig f1 cd = (f', Ok (destKubeClient s)) /\
    ClientConfig f' = Ok (veleroClient s) /\
    ClientConfig f' = Ok (mgr s) /\
    metricsAddress s = addr /\
    server_namespace s = namespace f' /\
    validate s = (log, None).
Proof.
  unfold Restic.newResticServer.
  destruct (SourceKubeClient f cs) as [f1 [src|e]] eqn:E1; [|done].
  destruct (DestinationKubeClient f1 cd) as [f2 [dst|e]] eqn:E2; [|done].
  destruct (Client Config clientset_NewForConfig f2) as [vc|e] eqn:E3; [|done].
  destruct (ClientConfig f2) as [cc|e] eqn:E4; [|done].
  destruct (ctrl_NewManager cc) as [[]|e] eqn:E5; [|done].
  destruct (validate (mkServer src dst vc cc addr (Namespace f2)))
    as [log' [err|]] eqn:E6; [done|].
  intros [= <- <- <-]. simpl. exists f1.
  apply SourceKubeClient_Ok in E1. apply DestinationKubeClient_Ok in E2.
  apply Client_Ok in E3. rewrite E4 in E3. injection E3 as <-.
  by repeat split.
Qed.

Lemma keeps_two_calls f cs cd :
  keeps f (fst (DestinationClientConfig (fst (SourceClientConfig f cs)) cd)).
Proof.
  exact (FactoryFacts.keeps_trans _ _ _
           (FactoryFacts.keeps_SourceClientConfig url_Parse Config
              RESTConfigFromKubeConfig kubernetes_NewForConfig f cs)
           (FactoryFacts.keeps_DestinationClientConfig url_Parse Config
              RESTConfigFromKubeConfig kubernetes_NewForConfig _ cd)).
Qed.

Lemma validate_None s log :
  validate s = (log, None) ->
  log = [] /\
  exists files pods,
    ReadDir podVolumesHostPath = Ok files /\
    ListPods (srcKubeClient s) "" (runningOnNode NODE_NAME) = Ok pods /\
    forallb (hasVolumes files) pods = true.
Proof.
  destruct (ReadDir podVolumesHostPath) as [files|e] eqn:Hf;
    [|unfold validatePodVolumesHostPath; by rewrite Hf].
  destruct (ListPods (srcKubeClient s) "" (runningOnNode NODE_NAME))
    as [pods|e] eqn:Hp;
    [|unfold validatePodVolumesHostPath; by rewrite Hf, Hp].
  rewrite (validate_run ReadDir NODE_NAME ListPods s files pods Hf Hp).
  destruct (forallb (hasVolumes files) pods) eqn:E; [|done].
  intros [= <-]. split; [|by exists files, pods].
  clear Hp. induction pods as [|pod pods IH]; simpl; [done|].
  simpl in E. apply andb_prop in E as [E1 E2]. rewrite E1. simpl. by apply IH.
Qed.

Lemma proxy_of_built f cr cfg :
  httpsProxy f <> "" ->
  configFromCreds f cr = Ok cfg ->
  forall rt,
    Proxy (buildTransport cfg rt) = Some (fst (url_Parse (httpsProxy f))).
Proof.
  intros Hp Hcfg rt. unfold Factory.configFromCreds in Hcfg.
  assert (Hw : exists ws,
             WrapTransport cfg = ws ++ [proxyWrapper url_Parse (httpsProxy f)]).
  { case_decide.
    - destruct (FactoryFacts.withSAToken_fields url_Parse f cr)
        as (cfg' & E & _ & _ & _ & W).
      rewrite E in Hcfg. injection Hcfg as <-.
      rewrite decide_False in W by done. by exists [].
    - destruct (RESTConfigFromKubeConfig (creds_kubeconfig cr))
        as [cfg0|e] eqn:E0.
      + destruct (FactoryFacts.withKubeConfig_fields url_Parse
                    RESTConfigFromKubeConfig f cr cfg0 E0)
          as (cfg' & E & _ & _ & _ & _ & _ & W).
        rewrite E in Hcfg. injection Hcfg as <-.
        rewrite decide_False in W by done. by eexists.
      + unfold restConfigWithKubeConfig in Hcfg. by rewrite E0 in Hcfg. }
  destruct Hw as [ws Hw]. unfold buildTransport. by rewrite Hw, foldl_app.
Qed.

(** X14. What a restic server that was built stands on: its source
    client is for the configuration the source call resolved, its
    destination client for the one the destination call resolved on the
    factory the source call left, its Velero client and its manager are
    for the local cluster, its namespace is the factory's; and the
    validation logged nothing, because every pod that the source cluster
    lists as running on this node has its directory in /host_pods/. *)
Theorem restic_server_built (f : factory) (cs cd : cluster) (addr : string)
    (f' : factory) (log : list LogLine) (s : resticServer URL) :
  newResticServer f cs cd addr = (f', log, Ok s) ->
  snd (SourceClientConfig f cs) = Ok (srcKubeClient s) /\
  DestinationClientConfig (fst (SourceClientConfig f cs)) cd
  = (f', Ok (destKubeClient s)) /\
  ClientConfig f = Ok (veleroClient s) /\
  ClientConfig f = Ok (mgr s) /\
  metricsAddress s = addr /\
  server_namespace s = namespace f /\
  log = [] /\
  exists files pods,
    ReadDir podVolumesHostPath = Ok files /\
    ListPods (srcKubeClient s) "" (runningOnNode NODE_NAME) = Ok pods /\
    forall pod, In pod pods ->
      exists file, In file files /\ file_IsDir file = true /\
                   file_Name file = podDirName pod.
Proof.
  intros H.
  destruct (newResticServer_Ok _ _ _ _ _ _ _ H)
    as (f1 & E1 & E2 & E3 & E4 & Ea & En & Ev).
  pose proof (keeps_two_calls f cs cd) as [S _].
  rewrite E1 in S |- *. simpl in S |- *. rewrite E2 in S. simpl in S.
  pose proof S as (_ & _ & _ & Hns & _).
  rewrite <- (FactoryFacts.ClientConfig_sameSettings Config f f' S).
  destruct (validate_None s log Ev) as (-> & files & pods & Hf & Hp & Hall).
  repeat split; try done; [congruence|].
  exists files, pods. repeat split; [done..|].
  intros pod Hi. rewrite List.forallb_forall in Hall.
  by apply hasVolumes_true, Hall.
Qed.

(** X15. The order of the calls in [newResticServer] decides the proxy
    of both clusters.  When the factory starts without a proxy and the
    secret resolved for the source cluster carries one, that proxy is the
    factory's from then on, and the transports of the source client and
    of the destination client both go through it, whatever proxy the
    destination's own secret names. *)
Theorem restic_server_proxy_order (f : factory) (cs cd : cluster)
    (addr : string) (f' : factory) (log : list LogLine)
    (s : resticServer URL) (itemsS itemsD : list Secret)
    (crS crD : serviceAcctCreds) :
  httpsProxy f = "" ->
  cs (namespace f) = Ok itemsS ->
  cd (namespace f) = Ok itemsD ->
  resolveCreds itemsS srcClusterSecretName = Some crS ->
  resolveCreds itemsD destClusterSecretName = Some crD ->
  creds_httpsProxy crS <> "" ->
  newResticServer f cs cd addr = (f', log, Ok s) ->
  HttpsProxy f' = creds_httpsProxy crS /\
  forall rt,
    Proxy (buildTransport (srcKubeClient s) rt)
    = Some (fst (url_Parse (creds_httpsProxy crS))) /\
    Proxy (buildTransport (destKubeClient s) rt)
    = Some (fst (url_Parse (creds_httpsProxy crS))).
Proof.
  intros Hp Hcs Hcd HrS HrD Hne H.
  destruct (newResticServer_Ok _ _ _ _ _ _ _ H)
    as (f1 & E1 & E2 & _).
  assert (Hk : KubeClient f = Ok tt).
  { destruct (KubeClient f) as [[]|e] eqn:Hk; [done|].
    pose proof (ClientFacts.role_call_unreachable url_Parse Config
                  RESTConfigFromKubeConfig kubernetes_NewForConfig
                  Source f cs e Hk) as E.
    simpl in E. rewrite E in E1. by injection E1. }
  pose proof (ClientFacts.role_call url_Parse Config RESTConfigFromKubeConfig
                kubernetes_NewForConfig Source f cs itemsS Hk Hcs) as R1.
  simpl in R1. rewrite HrS, E1 in R1. injection R1 as Hf1 Hsrc.
  assert (P1 : httpsProxy f1 = creds_httpsProxy crS).
  { rewrite Hf1. simpl. unfold retainProxy.
    by rewrite decide_True, decide_False by done. }
  assert (S1 : sameSettings f f1).
  { rewrite Hf1.
    apply (ClientFacts.sameSettings_recorded Source). }
  pose proof S1 as (_ & _ & _ & Hns & _).
  assert (Hk1 : KubeClient f1 = Ok tt)
    by (by rewrite (FactoryFacts.KubeClient_sameSettings _ _ _ _ S1)).
  assert (Hcd1 : cd (namespace f1) = Ok itemsD) by (by rewrite <- Hns).
  pose proof (ClientFacts.role_call url_Parse Config RESTConfigFromKubeConfig
                kubernetes_NewForConfig Destination f1 cd itemsD Hk1 Hcd1)
    as R2.
  simpl in R2. rewrite HrD, E2 in R2. injection R2 as Hf' Hdst.
  assert (P2 : httpsProxy f' = creds_httpsProxy crS).
  { rewrite Hf'. simpl. unfold retainProxy.
    rewrite decide_False by (by rewrite P1). done. }
  split; [done|]. intros rt. split.
  - rewrite <- P1.
    apply (proxy_of_built f1 crS); [by rewrite P1 | by rewrite Hf1].
  - rewrite <- P2.
    apply (proxy_of_built f' crD); [by rewrite P2 | by rewrite Hf'].
Qed.

(** X16. The server command runs the restic server under its own base
    name: the local cluster's configuration is asked for with the base
    name "<parent>-server", whatever base name the factory had, with the
    factory's other settings; the metrics address is ":8085" and the
    namespace is the factory's. *)
Theorem server_command_base_name (parentName : string) (f : factory)
    (cs cd : cluster) (f' : factory) (log : list LogLine)
    (s : resticServer URL) :
  serverCommand parentName f cs cd = (f', log, Ok s) ->
  Config (kubeconfig f) (kubecontext f) (parentName +:+ "-" +:+ "server")
    (clientQPS f) (clientBurst f) = Ok (mgr s) /\
  baseName f' = parentName +:+ "-" +:+ "server" /\
  metricsAddress s = ":8085" /\
  server_namespace s = namespace f.
Proof.
  unfold Restic.NewServerCommand_Run. intros H.
  set (g := SetBasename (parentName +:+ "-" +:+ "server") f) in *.
  destruct (newResticServer_Ok _ _ _ _ _ _ _ H)
    as (f1 & E1 & E2 & _ & E4 & Ea & En & _).
  pose proof (keeps_two_calls g cs cd) as [S _].
  rewrite E1 in S. simpl in S. rewrite E2 in S. simpl in S.
  pose proof S as (_ & _ & Hb & Hns & _).
  rewrite (FactoryFacts.ClientConfig_sameSettings Config g f' S) in E4.
  repeat split; try done.
  by rewrite En, <- Hns.
Qed.

End Server.

(** *** The properties at work on the concrete node *)

Lemma pod_volumes_validation_witness :
  exReadDir exFiles podVolumesHostPath = Ok exFiles /\
  exListPods [exPod1; exPod2] (srcKubeClient exServer) ""
    (runningOnNode "node-1") = Ok [exPod1; exPod2] /\
  snd (validatePodVolumesHostPath (exReadDir exFiles) "node-1"
         (exListPods [exPod1; exPod2]) exServer) = None.
Proof.
  refine (conj eq_refl (conj eq_refl _)).
  apply (proj1 (pod_volumes_validation (exReadDir exFiles) "node-1"
                  (exListPods [exPod1; exPod2]) exServer exFiles
                  [exPod1; exPod2] eq_refl eq_refl)).
  intros pod [<-|[<-|[]]].
  - exists (mkFileInfo "uid-1" true). repeat split. by left.
  - exists (mkFileInfo "hash-2" true). repeat split. right. by left.
Defined.

Lemma missing_volumes_logged_witness :
  exReadDir exFiles podVolumesHostPath = Ok exFiles /\
  exListPods [exPod1; exPod3] (srcKubeClient exServer) ""
    (runningOnNode "node-1") = Ok [exPod1; exPod3] /\
  fst (validatePodVolumesHostPath (exReadDir exFiles) "node-1"
         (exListPods [exPod1; exPod3]) exServer)
  = [mkLogLine "default/db" "/host_pods/uid-3"
       "could not find volumes for pod in host path"].
Proof.
  refine (conj eq_refl (conj eq_refl _)).
  refine (eq_trans
            (proj1 (missing_volumes_logged (exReadDir exFiles) "node-1"
                      (exListPods [exPod1; exPod3]) exServer exFiles
                      [exPod1; exPod3] eq_refl eq_refl)) _).
  vm_compute. reflexivity.
Defined.

Lemma more_directories_never_hurt_witness :
  validatePodVolumesHostPath
    (exReadDir (mkFileInfo "lost+found" true :: exFiles)) "node-1"
    (exListPods [exPod2]) exServer
  = ([], None).
Proof.
  apply (more_directories_never_hurt (exReadDir exFiles)
           (exReadDir (mkFileInfo "lost+found" true :: exFiles)) "node-1"
           (exListPods [exPod1; exPod2]) (exListPods [exPod2]) exServer
           exFiles (mkFileInfo "lost+found" true :: exFiles)
           [exPod1; exPod2] [exPod2] eq_refl eq_refl eq_refl eq_refl).
  - intros x Hx. by right.
  - intros x [<-|[]]. right. by left.
  - vm_compute. reflexivity.
Defined.

Lemma restic_server_built_witness :
  newResticServer exParse exConfig exFromKubeConfig exNewForConfig exNewClient
    exManager (exReadDir exFiles) "node-1" (exListPods [exPod1; exPod2])
    exFactory (exCluster [exTokenSecret "remotecluster"])
    (exCluster [exTokenSecret "remotecluster"]) ":8085"
  = (exFinal, [], Ok exServer) /\
  snd (SourceClientConfig exParse exConfig exFromKubeConfig exNewForConfig
         exFactory (exCluster [exTokenSecret "remotecluster"]))
  = Ok exRemote.
Proof.
  refine ((fun H => conj H
             (proj1 (restic_server_built exParse exConfig exFromKubeConfig
                       exNewForConfig exNewClient exManager
                       (exReadDir exFiles) "node-1"
                       (exListPods [exPod1; exPod2]) exFactory
                       (exCluster [exTokenSecret "remotecluster"])
                       (exCluster [exTokenSecret "remotecluster"]) ":8085"
                       exFinal [] exServer H))) _).
  vm_compute. reflexivity.
Defined.

Lemma restic_server_proxy_order_witness :
  newResticServer exParse exConfig exFromKubeConfig exNewForConfig exNewClient
    exManager (exReadDir exFiles) "node-1" (exListPods [exPod1; exPod2])
    exFactory (exCluster [exTokenSecret "srccluster"])
    (exCluster [exKubeconfigSecret "destcluster"]) ":8085"
  = (exTwoClustersFinal, [], Ok exTwoClusters) /\
  creds_httpsProxy (credsOfSecret (exKubeconfigSecret "destcluster"))
  = "http://proxy-b" /\
  HttpsProxy exTwoClustersFinal = "http://proxy-a".
Proof.
  assert (H : newResticServer exParse exConfig exFromKubeConfig exNewForConfig
                exNewClient exManager (exReadDir exFiles) "node-1"
                (exListPods [exPod1; exPod2]) exFactory
                (exCluster [exTokenSecret "srccluster"])
                (exCluster [exKubeconfigSecret "destcluster"]) ":8085"
              = (exTwoClustersFinal, [], Ok exTwoClusters))
    by (vm_compute; reflexivity).
  assert (Hne : creds_httpsProxy (credsOfSecret (exTokenSecret "srccluster"))
                <> "") by discriminate.
  refine (conj H (conj eq_refl _)).
  exact (proj1 (restic_server_proxy_order exParse exConfig exFromKubeConfig
                  exNewForConfig exNewClient exManager (exReadDir exFiles)
                  "node-1" (exListPods [exPod1; exPod2]) exFactory
                  (exCluster [exTokenSecret "srccluster"])
                  (exCluster [exKubeconfigSecret "destcluster"]) ":8085"
                  exTwoClustersFinal [] exTwoClusters
                  [exTokenSecret "srccluster"]
                  [exKubeconfigSecret "destcluster"]
                  (credsOfSecret (exTokenSecret "srccluster"))
                  (credsOfSecret (exKubeconfigSecret "destcluster"))
                  eq_refl eq_refl eq_refl eq_refl eq_refl Hne H)).
Defined.

Lemma server_command_base_name_witness :
  NewServerCommand_Run exParse exConfig exFromKubeConfig exNewForConfig
    exNewClient exManager (exReadDir exFiles) "node-1" (exListPods [exPod1; exPod2])
    "restic" exFactory (exCluster [exTokenSecret "remotecluster"])
    (exCluster [exTokenSecret "remotecluster"])
  = (SetBasename "restic-server" exFinal, [], Ok exServer) /\
  baseName (SetBasename "restic-server" exFinal) = "restic-server".
Proof.
  refine ((fun H => conj H
             (proj1 (proj2
                (server_command_base_name exParse exConfig exFromKubeConfig
                   exNewForConfig exNewClient exManager (exReadDir exFiles)
                   "node-1" (exListPods [exPod1; exPod2]) "restic" exFactory
                   (exCluster [exTokenSecret "remotecluster"])
                   (exCluster [exTokenSecret "remotecluster"])
                   (SetBasename "restic-server" exFinal) [] exServer H)))) _).
  vm_compute. reflexivity.
Defined.

End ResticFacts.

(* ===================================================================== *)
(** * Properties of the controller, in the order of its tests             *)
(* ===================================================================== *)
Module ControllerFacts.

Import Label Deletion Sweeper Tests Controller.

#[local] Opaque GetValidName.

Ltac wcbn :=
  cbn [requests backups restores storeBackups storeRestores providerSnapshots
       trace set_requests set_backups set_restores set_storeBackups
       set_storeRestores set_providerSnapshots set_trace fst snd].

Ltac wcbn_in H :=
  cbn [requests backups restores storeBackups storeRestores providerSnapshots
       trace set_requests set_backups set_restores set_storeBackups
       set_storeRestores set_providerSnapshots set_trace fst snd isNone
       failDeleteBackup failStoreDeleteBackup noFaults] in H.

(** ** The monadic code computes the summaries *)

Lemma forEach_deleteSiblings (l : list DeleteBackupRequest) (w : World) :
  forEach
    (fun dbr =>
       deleteRequest None (req_Namespace dbr) (req_Name dbr) ;;; ret [])
    l w
  = ([], mkWorld (removeRequests l (requests w)) (backups w) (restores w)
           (storeBackups w) (storeRestores w) (providerSnapshots w)
           (trace w ++
            List.map
              (fun r => Call (DeleteRequest (req_Namespace r) (req_Name r)) None)
              l)).
Proof.
  revert w. induction l as [|r l IH]; intros [rq bk rs sb sr ps tr].
  - simpl. unfold ret. by rewrite app_nil_r.
  - cbn [forEach]. unfold bind at 1. unfold bind at 1.
    unfold deleteRequest, attempt, ret. wcbn. unfold bind at 1.
    rewrite IH. wcbn. cbn [List.map removeRequests foldl].
    by rewrite <- app_assoc.
Qed.

Lemma deleteExistingDeletionRequests_run req w :
  deleteExistingDeletionRequests req w
  = (tt, mkWorld (removeRequests (siblings req w) (requests w)) (backups w)
           (restores w) (storeBackups w) (storeRestores w)
           (providerSnapshots w) (trace w ++ siblingEvents req w)).
Proof.
  unfold deleteExistingDeletionRequests. unfold bind at 1. unfold gets.
  unfold bind at 1. by rewrite forEach_deleteSiblings.
Qed.

Ltac wred :=
  cbv beta iota delta [requests backups restores storeBackups storeRestores
                       providerSnapshots trace fst snd].

Lemma patchRequest_run err req p w :
  patchRequest err req p w
  = (err,
     mkWorld
       (if isNone err then patchedRequests req p (requests w) else requests w)
       (backups w) (restores w) (storeBackups w) (storeRestores w)
       (providerSnapshots w) (trace w ++ [requestCall req p err])).
Proof. by destruct w, err. Qed.

Lemma getBackup_run ns name w :
  getBackup ns name w
  = (List.find (sameBackup ns name) (backups w),
     mkWorld (requests w) (backups w) (restores w) (storeBackups w)
       (storeRestores w) (providerSnapshots w)
       (trace w ++ [Call (GetBackup ns name) None])).
Proof. by destruct w. Qed.

Lemma getLocation_run v ns name w :
  getLocation v ns name w
  = (List.find (sameLocation ns name) (locations v),
     mkWorld (requests w) (backups w) (restores w) (storeBackups w)
       (storeRestores w) (providerSnapshots w)
       (trace w ++ [Call (GetLocation ns name) None])).
Proof. by destruct w. Qed.

Lemma patchBackupPhase_run err b ph w :
  patchBackupPhase err b ph w
  = (err,
     mkWorld (requests w)
       (if isNone err
        then List.map
               (fun x => if sameBackup (bk_Namespace b) (bk_Name b) x
                         then setBackupPhase ph x else x) (backups w)
        else backups w)
       (restores w) (storeBackups w) (storeRestores w) (providerSnapshots w)
       (trace w ++ [Call (PatchBackupPhase (bk_Namespace b) (bk_Name b) ph) err])).
Proof. by destruct w, err. Qed.

Lemma setUIDLabel_run req b w :
  setUIDLabel req b w
  = (tt,
     mkWorld
       (foldl (fun l q => patchedRequests req q l) (requests w)
          (uidPatches req b))
       (backups w) (restores w) (storeBackups w) (storeRestores w)
       (providerSnapshots w)
       (trace w ++ List.map (fun p => requestCall req p None) (uidPatches req b))).
Proof.
  unfold setUIDLabel, uidPatches. case_decide.
  - unfold bind. rewrite patchRequest_run. by destruct w.
  - destruct w. unfold ret. simpl. by rewrite app_nil_r.
Qed.

Lemma processRequest_route v flt req w :
  processRequest v flt req w
  = (routeResult (routeOf v flt req w), routeWorld v flt req w (routeOf v flt req w)).
Proof.
  destruct w as [rq bk rs sb sr ps tr].
  unfold processRequest, routeOf.
  case_decide as Hname.
  { unfold bind. rewrite patchRequest_run. reflexivity. }
  unfold bind at 1. rewrite deleteExistingDeletionRequests_run.
  case_decide as Htr.
  { unfold bind. rewrite patchRequest_run. unfold ret, routeWorld. wred.
    cbn [isNone routeResult routePatches routeSiblings routeEvents foldl].
    by rewrite <- app_assoc. }
  unfold bind at 1. rewrite getBackup_run. wred.
  destruct (List.find (sameBackup (req_Namespace req) (req_BackupName req)) bk)
    as [b|] eqn:Hb.
  2:{ wred. unfold bind. rewrite patchRequest_run. unfold ret, routeWorld. wred.
      cbn [isNone routeResult routePatches routeSiblings routeEvents foldl].
      by rewrite <- !app_assoc. }
  wred. unfold bind at 1. rewrite getLocation_run. wred.
  destruct (List.find (sameLocation (bk_Namespace b) (bk_StorageLocation b))
              (locations v)) as [loc|].
  2:{ wred. unfold bind. rewrite patchRequest_run. unfold ret, routeWorld. wred.
      cbn [isNone routeResult routePatches routeSiblings routeEvents foldl].
      unfold fetchEvents. by rewrite <- !app_assoc. }
  wred. case_decide as Hro.
  { unfold bind. rewrite patchRequest_run. unfold ret, routeWorld. wred.
    cbn [isNone routeResult routePatches routeSiblings routeEvents foldl].
    unfold fetchEvents. by rewrite <- !app_assoc. }
  unfold bind at 1. rewrite patchRequest_run. wred.
  destruct (failPatchInProgress flt) as [e|].
  { unfold ret, routeWorld. wred.
    cbn [isNone routeResult routePatches routeSiblings routeEvents foldl].
    unfold fetchEvents. by rewrite <- !app_assoc. }
  cbn [isNone].
  unfold bind at 1. rewrite setUIDLabel_run. wred.
  unfold bind at 1. rewrite patchBackupPhase_run. wred.
  destruct (failPatchDeleting flt) as [e|].
  { unfold ret, routeWorld. wred.
    cbn [isNone routeResult routePatches routeSiblings routeEvents foldl].
    unfold fetchEvents. by rewrite <- !app_assoc. }
  cbn [isNone].
  rewrite DeletionFacts.cascade_run. cbn [routeResult]. unfold routeWorld.
  do 2 f_equal. unfold startWorld, startEvents, fetchEvents. wred.
  cbn [foldl]. by rewrite <- !app_assoc.
Qed.

Lemma trace_routeWorld v flt req w :
  trace (routeWorld v flt req w (routeOf v flt req w))
  = trace w ++ routeEvents v flt req w (routeOf v flt req w).
Proof.
  destruct (routeOf v flt req w); try reflexivity.
  unfold routeWorld, cascadeWorld, startWorld, routeEvents. wcbn.
  by rewrite app_assoc.
Qed.

Lemma eventsOf_route v flt req w :
  eventsOf (processRequest v flt req) w
  = routeEvents v flt req w (routeOf v flt req w).
Proof.
  unfold eventsOf. rewrite processRequest_route. wcbn.
  rewrite trace_routeWorld. by rewrite drop_app_length.
Qed.

(** ** Which route a run takes *)

Lemma routeOf_cascade v flt req w b loc :
  req_BackupName req <> "" ->
  (req_Namespace req, req_BackupName req) ∉ tracker v ->
  List.find (sameBackup (req_Namespace req) (req_BackupName req)) (backups w)
  = Some b ->
  List.find (sameLocation (bk_Namespace b) (bk_StorageLocation b)) (locations v)
  = Some loc ->
  bsl_AccessMode loc <> BackupStorageLocationAccessModeReadOnly ->
  failPatchInProgress flt = None ->
  failPatchDeleting flt = None ->
  routeOf v flt req w = RouteCascade b.
Proof.
  intros Hn Ht Hb Hl Hro H3 H8. unfold routeOf.
  rewrite !decide_False by done. rewrite Hb, Hl.
  rewrite decide_False by done. by rewrite H3, H8.
Qed.

Lemma routeOf_cascade_inv v flt req w b :
  routeOf v flt req w = RouteCascade b ->
  req_BackupName req <> "" /\
  ((req_Namespace req, req_BackupName req) ∉ tracker v) /\
  failPatchInProgress flt = None /\ failPatchDeleting flt = None /\
  List.find (sameBackup (req_Namespace req) (req_BackupName req)) (backups w)
  = Some b.
Proof.
  unfold routeOf. case_decide; [done|]. case_decide; [done|].
  destruct (List.find _ (backups w)) as [b'|]; [|done].
  destruct (List.find _ (locations v)); [|done].
  case_decide; [done|].
  destruct (failPatchInProgress flt); [done|].
  destruct (failPatchDeleting flt); [done|].
  intros [= ->]. done.
Qed.

(** ** Calls through the cluster client *)

Lemma clientActions_siblingEvents req w :
  clientActions (siblingEvents req w)
  = List.map (fun r => DeleteRequest (req_Namespace r) (req_Name r))
      (siblings req w).
Proof.
  unfold siblingEvents. induction (siblings req w) as [|r l IH]; [done|].
  unfold clientActions in *. simpl. by rewrite IH.
Qed.

Lemma clientActions_uidEvents req b :
  clientActions (List.map (fun p => requestCall req p None) (uidPatches req b))
  = List.map (PatchRequest (req_Namespace req) (req_Name req)) (uidPatches req b).
Proof. unfold uidPatches. by case_decide. Qed.

Lemma clientActions_startEvents req b w :
  clientActions (startEvents req b w)
  = List.map (fun r => DeleteRequest (req_Namespace r) (req_Name r))
      (siblings req w) ++
    [GetBackup (req_Namespace req) (req_BackupName req);
     PatchRequest (req_Namespace req) (req_Name req) (markInProgress req)] ++
    List.map (PatchRequest (req_Namespace req) (req_Name req))
      (uidPatches req b) ++
    [PatchBackupPhase (bk_Namespace b) (bk_Name b) BackupPhaseDeleting].
Proof.
  unfold startEvents.
  rewrite !DeletionFacts.clientActions_app, clientActions_siblingEvents,
    clientActions_uidEvents.
  done.
Qed.

(** ** Failures *)

Lemma siblingEvents_succeed req w op msg :
  ~ In (Call op (Some msg)) (siblingEvents req w).
Proof.
  unfold siblingEvents. intros H. apply in_map_iff in H as (r & H & _).
  discriminate.
Qed.

Lemma uidEvents_succeed req b op msg :
  ~ In (Call op (Some msg))
      (List.map (fun p => requestCall req p None) (uidPatches req b)).
Proof. intros H. apply in_map_iff in H as (r & H & _). discriminate. Qed.

Lemma fetchEvents_succeed req b op msg :
  ~ In (Call op (Some msg)) (fetchEvents req b).
Proof. unfold fetchEvents. intros [H|[H|[]]]; discriminate. Qed.

Lemma startEvents_succeed req b w op msg :
  ~ In (Call op (Some msg)) (startEvents req b w).
Proof.
  unfold startEvents. rewrite !in_app_iff.
  intros [H|[H|[H|[H|H]]]].
  - by apply siblingEvents_succeed in H.
  - by apply fetchEvents_succeed in H.
  - destruct H as [H|[]]. discriminate.
  - by apply uidEvents_succeed in H.
  - destruct H as [H|[]]. discriminate.
Qed.



(** ** The world a run leaves *)

Lemma restores_routeWorld v flt req w p :
  restores (routeWorld v flt req w p)
  = match p with
    | RouteCascade b =>
        removeRestores
          (clusterDeleted flt (List.filter (correlatedRestore b) (restores w)))
          (restores w)
    | _ => restores w
    end.
Proof. by destruct p. Qed.

Lemma unrelated_restores_kept v flt req w r :
  NoDup (restoreKeys w) ->
  In r (restores w) ->
  rs_BackupName r <> req_BackupName req ->
  In r (restores (snd (processRequest v flt req w))).
Proof.
  intros Hnd Hr Hne. rewrite processRequest_route. cbn [snd].
  rewrite restores_routeWorld.
  destruct (routeOf v flt req w) as [| | | | | | |b] eqn:Hp; try done.
  apply routeOf_cascade_inv in Hp as (_ & _ & _ & _ & Hb).
  apply DeletionFacts.find_sameBackup in Hb as [_ Hname].
  apply DeletionFacts.In_removeRestores. split; [done|].
  intros x Hx.
  apply DeletionFacts.In_clusterDeleted, filter_In in Hx as [Hx Hc].
  apply DeletionFacts.correlatedRestore_true in Hc as [_ Hc].
  apply not_true_iff_false. intros Hs.
  apply DeletionFacts.sameRestore_true in Hs as [H1 H2].
  assert (x = r) as ->.
  { apply (DeletionFacts.In_keys_inj
             (fun r => (rs_Namespace r, rs_Name r)) (restores w));
      try done. by rewrite H1, H2. }
  congruence.
Qed.

(** ** A backup that is still being made *)

(** The run on a request whose backup is reported active: the other
    requests for the backup are deleted, the request is patched to
    Processed with the one error, and nothing else is touched. *)
Lemma active_backup_calls v flt req w :
  req_BackupName req <> "" ->
  (req_Namespace req, req_BackupName req) ∈ tracker v ->
  fst (processRequest v flt req w) = None /\
  eventsOf (processRequest v flt req) w
  = siblingEvents req w ++
    [requestCall req (processedPatch ["backup is still in progress"]) None] /\
  backups (snd (processRequest v flt req w)) = backups w /\
  restores (snd (processRequest v flt req w)) = restores w /\
  storeBackups (snd (processRequest v flt req w)) = storeBackups w.
Proof.
  intros Hn Ht.
  assert (Hp : routeOf v flt req w = RouteStillInProgress).
  { unfold routeOf. rewrite decide_False by done. by rewrite decide_True. }
  rewrite eventsOf_route, processRequest_route, Hp. done.
Qed.

(** ** The other requests for the backup *)

Lemma siblingRequest_removed req w q :
  In q (removeRequests (siblings req w) (requests w)) ->
  siblingRequest req q = false.
Proof.
  intros H. apply SweeperFacts.In_removeRequests in H as [Hq Hs].
  apply not_true_iff_false. intros Hsib.
  assert (Hin : In q (siblings req w)) by (by apply filter_In).
  specialize (Hs q Hin).
  by rewrite (proj2 (SweeperFacts.sameRequest_true _ _ q)) in Hs.
Qed.

Lemma siblingRequest_patched req p l q :
  (forall x, In x l -> siblingRequest req x = false) ->
  In q (patchedRequests req p l) ->
  siblingRequest req q = false.
Proof.
  intros Hl H. unfold patchedRequests in H.
  apply in_map_iff in H as (x & <- & Hx).
  destruct (sameRequest (req_Namespace req) (req_Name req) x) eqn:E; [|auto].
  apply SweeperFacts.sameRequest_true in E as [_ E].
  unfold siblingRequest, applyPatch. cbn [req_Name].
  rewrite (bool_decide_eq_true_2 _ E). cbn [negb]. apply andb_false_r.
Qed.

Lemma siblingRequest_startWorld req b w q :
  In q (requests (startWorld req b w)) -> siblingRequest req q = false.
Proof.
  unfold startWorld. wcbn. unfold uidPatches.
  case_decide; cbn [foldl]; intros Hq.
  - eapply siblingRequest_patched; [|exact Hq].
    intros x Hx. eapply siblingRequest_patched; [|exact Hx].
    intros y. apply siblingRequest_removed.
  - eapply siblingRequest_patched; [|exact Hq].
    intros y. apply siblingRequest_removed.
Qed.

(** ** The full deletion *)

(** C1, as amended. Full successful deletion.  For a request with a backup
    name, whose backup is not reported active, exists and has an existing
    writable storage location, in a run where no call fails: no error is
    returned; the calls through the cluster client are, in this order,
    the deletion of the other requests for the backup, the fetch of the
    backup, the patch of the request to InProgress (with the backup-name
    label only when the request has none), the patch of the backup-UID
    label (only when the request has none), the patch of the backup to
    Deleting, the deletion of every restore correlated to the backup, the
    deletion of the backup, the patch to Processed with an empty error
    list and the deletion of the requests carrying the backup's name and
    UID labels; storage is asked to delete each of these restores and the
    backup; every call succeeds; afterwards no correlated restore, no
    such backup, no stored record of them, no correlated request and
    none of the other requests for the backup is left.  And in any run at
    all, with any faults, a restore of another backup name stays
    (restores being keyed by namespace and name). *)
Theorem full_delete_sequence (v : View) (w : World)
    (req : DeleteBackupRequest) (b : Backup) (loc : BackupStorageLocation) :
  req_BackupName req <> "" ->
  (req_Namespace req, req_BackupName req) ∉ tracker v ->
  List.find (sameBackup (req_Namespace req) (req_BackupName req)) (backups w)
  = Some b ->
  List.find (sameLocation (bk_Namespace b) (bk_StorageLocation b)) (locations v)
  = Some loc ->
  bsl_AccessMode loc <> BackupStorageLocationAccessModeReadOnly ->
  Forall (fun s => is_Some (snapshotProvider v b s))
    (volumeSnapshots v (bk_Name b)) ->
  let ns := req_Namespace req in
  let name := req_BackupName req in
  let rs := List.filter (correlatedRestore b) (restores w) in
  let t := eventsOf (processRequest v noFaults req) w in
  let w' := snd (processRequest v noFaults req w) in
  fst (processRequest v noFaults req w) = None /\
  clientActions t
  = List.map (fun r => DeleteRequest (req_Namespace r) (req_Name r))
      (siblings req w) ++
    [GetBackup ns name;
     PatchRequest ns (req_Name req)
       (mkPatch
          (if decide (labelOf req BackupNameLabel = "")
           then [(BackupNameLabel, GetValidName name)] else [])
          (Some DeleteBackupRequestPhaseInProgress) [])] ++
    (if decide (labelOf req BackupUIDLabel = "")
     then [PatchRequest ns (req_Name req) (uidPatch (bk_UID b))] else []) ++
    [PatchBackupPhase ns name BackupPhaseDeleting] ++
    List.map (fun r => DeleteRestore (rs_Namespace r) (rs_Name r)) rs ++
    [DeleteBackup ns name;
     PatchRequest ns (req_Name req) (processedPatch []);
     DeleteCollectionRequests ns name (bk_UID b)] /\
  (forall e, In e t -> ev_err e = None) /\
  (forall r, In r rs -> In (Call (StoreDeleteRestore (rs_Name r)) None) t) /\
  In (Call (StoreDeleteBackup name) None) t /\
  (forall r, In r (restores w') -> correlatedRestore b r = false) /\
  (forall x, In x (backups w') -> sameBackup ns name x = false) /\
  ~ In name (storeBackups w') /\
  (forall r, In r rs -> ~ In (rs_Name r) (storeRestores w')) /\
  (forall q, In q (requests w') ->
             correlatedRequest ns name (bk_UID b) q = false /\
             siblingRequest req q = false) /\
  (forall flt r,
      NoDup (restoreKeys w) -> In r (restores w) -> rs_BackupName r <> name ->
      In r (restores (snd (processRequest v flt req w)))).
Proof.
  intros Hn Ht Hb Hl Hro Hs ns name rs t w'.
  assert (Hp : routeOf v noFaults req w = RouteCascade b)
    by (by eapply routeOf_cascade).
  destruct (DeletionFacts.find_sameBackup _ _ _ _ Hb) as [Hbns Hbname].
  fold ns in Hbns. fold name in Hbname.
  assert (Ht' : t = startEvents req b w ++ cascadeEvents v noFaults req b rs).
  { unfold t. by rewrite eventsOf_route, Hp. }
  assert (Hw' : w' = cascadeWorld v noFaults req b (startWorld req b w)).
  { unfold w'. by rewrite processRequest_route, Hp. }
  split; [by rewrite processRequest_route, Hp|].
  split.
  { rewrite Ht', DeletionFacts.clientActions_app, clientActions_startEvents,
      DeletionFacts.clientActions_cascadeEvents.
    rewrite DeletionFacts.cascadeErrors_noFaults by done.
    fold ns name. rewrite Hbns, Hbname. unfold markInProgress, uidPatches.
    fold name. rewrite <- !app_assoc. do 2 f_equal.
    by case_decide. }
  split.
  { intros [op [msg|]] He; [|done]. exfalso. rewrite Ht' in He.
    apply in_app_or in He as [He|He].
    - by apply startEvents_succeed in He.
    - apply DeletionFacts.failures_cascadeEvents in He as [_ [[_ Hd]|He]].
      + done.
      + by rewrite DeletionFacts.cascadeErrors_noFaults in He. }
  split.
  { intros r Hr. rewrite Ht'. apply in_or_app. right.
    unfold cascadeEvents. rewrite !in_app_iff. right. right. left.
    apply in_flat_map. exists r. split; [done|]. right. by left. }
  split.
  { rewrite Ht'. apply in_or_app. right.
    unfold cascadeEvents, backupEvents. rewrite !in_app_iff. do 3 right. left.
    rewrite Hbname. right. by left. }
  split.
  { intros r Hr. rewrite Hw' in Hr. unfold cascadeWorld, startWorld in Hr.
    wcbn_in Hr. rewrite DeletionFacts.clusterDeleted_noFaults in Hr.
    apply DeletionFacts.In_removeRestores in Hr as [Hr Hx].
    apply not_true_iff_false. intros Hc.
    specialize (Hx r).
    rewrite (proj2 (DeletionFacts.sameRestore_true _ _ r)) in Hx by done.
    assert (true = false); [|done]. apply Hx. apply filter_In. done. }
  split.
  { intros x Hx. rewrite Hw' in Hx. unfold cascadeWorld, startWorld in Hx.
    wcbn_in Hx.
    apply filter_In in Hx as [_ Hx]. apply negb_true_iff in Hx.
    by rewrite Hbns, Hbname in Hx. }
  split.
  { intros Hx. rewrite Hw' in Hx. unfold cascadeWorld, startWorld in Hx.
    wcbn_in Hx.
    apply filter_In in Hx as [_ Hx]. apply negb_true_iff in Hx.
    apply bool_decide_eq_false in Hx. by rewrite Hbname in Hx. }
  split.
  { intros r Hr Hx. rewrite Hw' in Hx. unfold cascadeWorld, startWorld in Hx.
    wcbn_in Hx.
    apply DeletionFacts.In_removeNames in Hx as [_ Hx]. apply Hx.
    rewrite DeletionFacts.storeDeleted_noFaults. by apply in_map. }
  split.
  { intros q Hq. rewrite Hw' in Hq. unfold cascadeWorld in Hq.
    cbn [requests] in Hq.
    apply filter_In in Hq as [Hq Hc]. apply negb_true_iff in Hc.
    split; [by rewrite Hbname in Hc|].
    eapply siblingRequest_patched; [|exact Hq].
    intros x. apply siblingRequest_startWorld. }
  intros flt r. apply unrelated_restores_kept.
Qed.

(** ** Fatal and recoverable failures *)


(** ** The scenarios of the controller tests, run *)

(** "existing deletion requests for the backup are deleted": "bar" is
    deleted, the request itself and "bar-2" stay. *)
Lemma test_existing_requests_deleted :
  clientActions
    (eventsOf (processRequest inProgress_view noFaults inProgress_req)
       existing_world)
  = existing_expected /\
  List.map req_Name
    (requests (snd (processRequest inProgress_view noFaults inProgress_req
                      existing_world)))
  = ["foo-abcde"; "bar-2"].
Proof. split; vm_compute; reflexivity. Qed.

(** "patching to InProgress fails" *)
Lemma test_patching_to_InProgress_fails :
  fst (processRequest (default_view [default_location]) patchFails
         inProgress_req default_world)
  = Some "error patching DeleteBackupRequest: bad" /\
  clientActions
    (eventsOf (processRequest (default_view [default_location]) patchFails
                 inProgress_req) default_world)
  = patchFails_expected.
Proof. split; vm_compute; reflexivity. Qed.

(** "patching backup to Deleting fails" *)
Lemma test_patching_to_Deleting_fails :
  fst (processRequest (default_view [default_location]) deletingFails
         inProgress_req default_world)
  = Some "error patching Backup: bad" /\
  clientActions
    (eventsOf (processRequest (default_view [default_location]) deletingFails
                 inProgress_req) default_world)
  = deletingFails_expected.
Proof. split; vm_compute; reflexivity. Qed.

(** "unable to find backup" *)
Lemma test_unable_to_find_backup :
  fst (processRequest emptyView noFaults inProgress_req
         (worldOf [inProgress_req] [] [])) = None /\
  clientActions
    (eventsOf (processRequest emptyView noFaults inProgress_req)
       (worldOf [inProgress_req] [] []))
  = backupNotFound_expected.
Proof. split; vm_compute; reflexivity. Qed.

(** "unable to find backup storage location" *)
Lemma test_unable_to_find_location :
  fst (processRequest (default_view []) noFaults inProgress_req default_world)
  = None /\
  clientActions
    (eventsOf (processRequest (default_view []) noFaults inProgress_req)
       default_world)
  = locationNotFound_expected.
Proof. split; vm_compute; reflexivity. Qed.

(** "backup storage location is in read-only mode" *)
Lemma test_location_read_only :
  fst (processRequest (default_view [readOnly_location]) noFaults
         inProgress_req default_world) = None /\
  clientActions
    (eventsOf (processRequest (default_view [readOnly_location]) noFaults
                 inProgress_req) default_world)
  = readOnly_expected.
Proof. split; vm_compute; reflexivity. Qed.

(** "full delete, no errors": the calls, which are the expected ones up
    to the order of the first two, and the test's last checks. *)
Lemma test_full_delete_calls :
  clientActions
    (eventsOf (processRequest (fullDelete_view "foo" 0) noFaults fullDelete_req)
       fullDelete_world)
  = fullDelete_actions "foo" "foo" ["restore-1"; "restore-2"] /\
  Permutation (fullDelete_actions "foo" "foo" ["restore-1"; "restore-2"])
    fullDelete_expected /\
  providerSnapshots
    (snd (processRequest (fullDelete_view "foo" 0) noFaults fullDelete_req
            fullDelete_world)) = [] /\
  restores
    (snd (processRequest (fullDelete_view "foo" 0) noFaults fullDelete_req
            fullDelete_world)) = [restore3].
Proof.
  split; [vm_compute; reflexivity|].
  split; [apply perm_swap|].
  split; vm_compute; reflexivity.
Qed.

(** "full delete, no errors, with backup name greater than 63 chars" *)
Lemma test_long_name_calls :
  clientActions
    (eventsOf (processRequest (fullDelete_view longName 0) noFaults
                 longDelete_req) longDelete_world)
  = fullDelete_actions longName
      "the-really-long-backup-name-that-is-much-more-than-63-cha6ca4bc"
      ["restore-1"; "restore-2"] /\
  Permutation
    (fullDelete_actions longName
       "the-really-long-backup-name-that-is-much-more-than-63-cha6ca4bc"
       ["restore-1"; "restore-2"])
    longDelete_expected.
Proof. split; [vm_compute; reflexivity | apply perm_swap]. Qed.

(** "backup is not downloaded when there are no DeleteItemAction plugins"
    and "backup is still deleted if downloading tarball fails for
    DeleteItemAction plugins" *)
Lemma test_tarball_calls :
  clientActions
    (eventsOf (processRequest (fullDelete_view "foo" 0) noFaults fullDelete_req)
       tarball_world)
  = fullDelete_actions "foo" "foo" [] /\
  ~ attempted (StoreGetBackupContents "foo")
      (eventsOf (processRequest (fullDelete_view "foo" 0) noFaults
                   fullDelete_req) tarball_world) /\
  clientActions
    (eventsOf (processRequest (fullDelete_view "foo" 1) tarball_faults
                 fullDelete_req) tarball_world)
  = fullDelete_actions "foo" "foo" [] /\
  Permutation (fullDelete_actions "foo" "foo" []) tarball_expected.
Proof.
  split; [vm_compute; reflexivity|]. split.
  { intros [err H]. apply list_elem_of_In in H. vm_compute in H.
    repeat (destruct H as [H|H]; [discriminate|]). done. }
  split; [vm_compute; reflexivity | apply perm_swap].
Qed.


(** The run of the two tests on failed patches when no call fails. *)
Lemma default_calls :
  eventsOf (processRequest (default_view [default_location]) noFaults
              inProgress_req) default_world
  = [Call (GetBackup "velero" "foo") None;
     Call (GetLocation "velero" "default") None;
     Call (PatchRequest "velero" "foo-abcde"
             (mkPatch [] (Some DeleteBackupRequestPhaseInProgress) [])) None;
     Call (PatchBackupPhase "velero" "foo" BackupPhaseDeleting) None;
     Call GetDeleteItemActions None;
     Call (StoreGetBackupVolumeSnapshots "foo") None;
     Call (DeleteBackup "velero" "foo") None;
     Call (StoreDeleteBackup "foo") None;
     Call (PatchRequest "velero" "foo-abcde"
             (mkPatch [] (Some DeleteBackupRequestPhaseProcessed) [])) None;
     Call (DeleteCollectionRequests "velero" "foo" "") None;
     Call CleanupClients None].
Proof. vm_compute. reflexivity. Qed.

(** C1, the claim as stated, fails on the request of the test setup, which
    carries both labels.  "patching backup to Deleting fails" records the
    fetch of the backup, then the patch to InProgress without a label,
    then the patch of the backup, and no patch of the UID label.  The
    same request in the same world, with no call failing, is fully
    deleted without error by six calls, which begin with these three; the
    sequence of the claim has seven, begins with a patch that carries the
    backup-name label and holds a patch of the UID label: the two differ,
    in any order. *)
Lemma labelled_request_sequence :
  clientActions
    (eventsOf (processRequest (default_view [default_location]) deletingFails
                 inProgress_req) default_world)
  = deletingFails_expected /\
  fst (processRequest (default_view [default_location]) noFaults
         inProgress_req default_world) = None /\
  (forall e,
      In e (eventsOf (processRequest (default_view [default_location]) noFaults
                        inProgress_req) default_world) ->
      ev_err e = None) /\
  clientActions
    (eventsOf (processRequest (default_view [default_location]) noFaults
                 inProgress_req) default_world)
  = default_actions /\
  take 3 default_actions = deletingFails_expected /\
  default_actions <> default_specified /\
  ~ Permutation default_actions default_specified.
Proof.
  split; [vm_compute; reflexivity|].
  split; [vm_compute; reflexivity|].
  rewrite default_calls.
  split.
  { intros e H. simpl in H.
    repeat (destruct H as [H|H]; [by subst e|]). done. }
  split; [reflexivity|]. split; [reflexivity|].
  split; [discriminate|].
  intros H. apply Permutation_length in H. discriminate.
Qed.

Ltac no_download_error H :=
  simpl in H;
  repeat (destruct H as [H|H];
          [try discriminate; injection H as <- <-; simpl;
           try tauto; intros [?|[]]; discriminate|]);
  done.


(** ** The theorems at work on the test scenarios *)

#[local] Transparent GetValidName.

(** "full delete, no errors": the calls through the cluster client. *)
Lemma full_delete_sequence_witness :
  req_BackupName fullDelete_req <> "" /\
  ((req_Namespace fullDelete_req, req_BackupName fullDelete_req)
     ∉ tracker (fullDelete_view "foo" 0)) /\
  List.find (sameBackup "velero" "foo") (backups fullDelete_world)
  = Some fullDelete_backup /\
  List.find (sameLocation "velero" "primary")
    (locations (fullDelete_view "foo" 0)) = Some primaryLocation /\
  bsl_AccessMode primaryLocation <> BackupStorageLocationAccessModeReadOnly /\
  Forall (fun s => is_Some (snapshotProvider (fullDelete_view "foo" 0)
                              fullDelete_backup s))
    (volumeSnapshots (fullDelete_view "foo" 0) "foo") /\
  clientActions
    (eventsOf (processRequest (fullDelete_view "foo" 0) noFaults fullDelete_req)
       fullDelete_world)
  = fullDelete_actions "foo" "foo" ["restore-1"; "restore-2"].
Proof.
  assert (H1 : req_BackupName fullDelete_req <> "") by discriminate.
  assert (H2 : (req_Namespace fullDelete_req, req_BackupName fullDelete_req)
                 ∉ tracker (fullDelete_view "foo" 0))
    by apply not_elem_of_empty.
  assert (H5 : bsl_AccessMode primaryLocation
               <> BackupStorageLocationAccessModeReadOnly) by discriminate.
  assert (H6 : Forall (fun s => is_Some (snapshotProvider (fullDelete_view "foo" 0)
                                           fullDelete_backup s))
                 (volumeSnapshots (fullDelete_view "foo" 0) "foo")).
  { repeat constructor. by eexists. }
  refine (conj H1 (conj H2 (conj eq_refl (conj eq_refl (conj H5 (conj H6 _)))))).
  exact (proj1 (proj2 (full_delete_sequence (fullDelete_view "foo" 0)
                         fullDelete_world fullDelete_req fullDelete_backup
                         primaryLocation H1 H2 eq_refl eq_refl H5 H6))).
Defined.


End ControllerFacts.
